(** * rtl_wave: the sample pipeline of [rtl_wave.c]

    A shallow embedding of the capture pipeline of [src/rtl_wave.c]: the
    in-place bias removal, the power monitor of the synchronous loop, the
    WAVE header writer, the byte budget and the two capture drivers.

    Conventions.
    - A C integer of width [w] is a [Z]; every store into a narrower or
      unsigned object is written out with [u8], [u16], [u32], [u64], [s32].
    - [uint8_t *buffer] is a [list Z]; an access outside the list is the
      [Fault] outcome (undefined behaviour in C).
    - [float] arithmetic is idealised as exact rational arithmetic ([Q]);
      [logf] is the natural logarithm of the reals ([ln]).  Normalised
      samples, their squares and the peaks are exact in single precision
      as well; the sums and the means are not once a window is long, so a
      statement about sums or means is one about their exact values.
    - [FILE *] is the list of bytes written so far together with a script
      that tells how many bytes each coming [fwrite] call accepts. *)

From Stdlib Require Import ZArith List Lia Bool.
From Stdlib Require String Ascii.
From Stdlib Require Import QArith Qminmax Qreals Reals Psatz.
Import ListNotations.
Local Open Scope Z_scope.

(** ** Machine integers *)

Definition u8 (x : Z) : Z := x mod 2 ^ 8.
Definition u16 (x : Z) : Z := x mod 2 ^ 16.
Definition u32 (x : Z) : Z := x mod 2 ^ 32.
Definition u64 (x : Z) : Z := x mod 2 ^ 64.
(** Conversion to [int] (two's complement). *)
Definition s32 (x : Z) : Z := (x + 2 ^ 31) mod 2 ^ 32 - 2 ^ 31.

Definition is_byte (b : Z) : Prop := 0 <= b <= 255.

(** ** Outcomes of bounded loops over a buffer *)

Inductive run (A : Type) : Type :=
| Done (a : A)
| Fault          (* access outside the buffer *)
| Exhausted.       (* the fuel of the model ran out *)
Arguments Done {A} a.
Arguments Fault {A}.
Arguments Exhausted {A}.

(** [buf[i]] as an rvalue. *)
Definition load (buf : list Z) (i : Z) : option Z :=
  if i <? 0 then None else nth_error buf (Z.to_nat i).

Fixpoint store_at (buf : list Z) (i : nat) (v : Z) : option (list Z) :=
  match buf, i with
  | [], _ => None
  | _ :: tl, O => Some (v :: tl)
  | hd :: tl, S j =>
      match store_at tl j v with
      | Some tl' => Some (hd :: tl')
      | None => None
      end
  end.

(** [buf[i] = v]. *)
Definition store (buf : list Z) (i : Z) (v : Z) : option (list Z) :=
  if i <? 0 then None else store_at buf (Z.to_nat i) v.

(** ** Messages on the diagnostic stream *)

(** The accumulators as the report line finds them: both peaks, and both
    sums after [iavg /= interval; qavg /= interval]. *)
Record report : Type := mkReport {
  rep_ipeak : Q;
  rep_qpeak : Q;
  rep_iavg : Q;
  rep_qavg : Q
}.

Inductive msg : Type :=
| MsgBlockSizeWrong
| MsgMinimalLength (n : Z)
| MsgMaximalLength (n : Z)
| MsgSyncMode
| MsgAsyncMode
| MsgSyncReadFailed
| MsgShortWrite
| MsgShortRead
| MsgPeak (r : report)
| MsgSignalCaught.

(** ** The output stream *)

Record FILE : Type := mkFILE {
  f_data : list Z;        (* bytes in the destination so far *)
  f_accept : list nat     (* bytes accepted by the coming fwrite calls;
                             once the script is used up every call is complete *)
}.

(** [fwrite(ptr, 1, length data, file)]: the number of bytes written and the
    stream afterwards. *)
Definition fwrite (data : list Z) (f : FILE) : Z * FILE :=
  match f_accept f with
  | [] => (Z.of_nat (length data), mkFILE (f_data f ++ data) [])
  | k :: rest =>
      let n := Nat.min k (length data) in
      (Z.of_nat n, mkFILE (f_data f ++ firstn n data) rest)
  end.

(** ** SampleConverter: [for (int n=0; n<len; n++) buf[n] = buf[n] - 128;] *)

(** The value stored by [buf[n] = buf[n] - 128] into an [unsigned char]. *)
Definition convert_byte (b : Z) : Z := u8 (b - 128).

Fixpoint convert_loop (fuel : nat) (n len : Z) (buf : list Z) : run (list Z) :=
  if n <? len then
    match fuel with
    | O => Exhausted
    | S fuel' =>
        match load buf n with
        | None => Fault
        | Some b =>
            match store buf n (convert_byte b) with
            | None => Fault
            | Some buf' => convert_loop fuel' (n + 1) len buf'
            end
        end
    end
  else Done buf.

Definition convert (len : Z) (buf : list Z) : run (list Z) :=
  convert_loop (Z.to_nat len) 0 len buf.

(** ** Output block size (main, lines 293-302) *)

Definition DEFAULT_SAMPLE_RATE : Z := 2048000.
Definition DEFAULT_BUF_LENGTH : Z := 16 * 16384.
Definition MINIMAL_BUF_LENGTH : Z := 512.
Definition MAXIMAL_BUF_LENGTH : Z := 256 * 16384.

Definition check_block_size (out_block_size : Z) : Z * list msg :=
  if (out_block_size <? MINIMAL_BUF_LENGTH) || (out_block_size >? MAXIMAL_BUF_LENGTH)
  then (DEFAULT_BUF_LENGTH,
        [MsgBlockSizeWrong; MsgMinimalLength MINIMAL_BUF_LENGTH;
         MsgMaximalLength MAXIMAL_BUF_LENGTH])
  else (out_block_size, []).

(** ** ContainerWriter: the header records (lines 115-162) *)

Module Tag.
Import String Ascii.
Local Open Scope string_scope.

(** The characters of a string literal as [char] values. *)
Definition chars (s : string) : list Z :=
  map (fun c => Z.of_N (N_of_ascii c)) (list_ascii_of_string s).

(** [strncpy(dest, src, n)]: the [n] bytes left in [dest]. *)
Definition strncpy (src : string) (n : nat) : list Z :=
  firstn n (chars src ++ repeat 0 n).

Definition RIFF : string := "RIFF".
Definition WAVE : string := "WAVE".
Definition fmt : string := "fmt ".
Definition auxi : string := "auxi".
Definition data : string := "data".
End Tag.

(** Little-endian images of the [uint16_t] and [uint32_t] fields of the
    packed structures. *)
Definition le16 (x : Z) : list Z := [x mod 256; (x / 256) mod 256].
Definition le32 (x : Z) : list Z :=
  [x mod 256; (x / 256) mod 256; (x / 65536) mod 256; (x / 16777216) mod 256].

Record datetime_t : Type := mkDatetime {
  year : Z; month : Z; day_of_week : Z; day : Z;
  hour : Z; minute : Z; second : Z; milliseconds : Z
}.

Record riff_t : Type := mkRiff { riff_id : list Z; riff_size : Z; riff_type : list Z }.

Record fmt_t : Type := mkFmt {
  format_tag : Z; channels : Z; samples_per_sec : Z;
  data_rate : Z; block_size : Z; bits_per_sample : Z
}.

Record auxi_t : Type := mkAuxi {
  start_time : datetime_t; stop_time : datetime_t;
  frequency : Z; sample_frequency : Z; if_frequency : Z;
  bandwidth : Z; dc_offset : Z
}.

Record chunk_t : Type := mkChunk { chunk_id : list Z; chunk_size : Z }.

Definition sizeof_datetime_t : Z := 8 * 2.
Definition sizeof_riff_t : Z := 4 + 4 + 4.
Definition sizeof_fmt_t : Z := 2 + 2 + 4 + 4 + 2 + 2.
Definition sizeof_auxi_t : Z := sizeof_datetime_t + sizeof_datetime_t + 5 * 4.
Definition sizeof_chunk_t : Z := 4 + 4.

(** The object representation of each packed structure. *)
Definition bytes_of_datetime (d : datetime_t) : list Z :=
  le16 (year d) ++ le16 (month d) ++ le16 (day_of_week d) ++ le16 (day d) ++
  le16 (hour d) ++ le16 (minute d) ++ le16 (second d) ++ le16 (milliseconds d).

Definition bytes_of_riff (r : riff_t) : list Z :=
  riff_id r ++ le32 (riff_size r) ++ riff_type r.

Definition bytes_of_fmt (x : fmt_t) : list Z :=
  le16 (format_tag x) ++ le16 (channels x) ++ le32 (samples_per_sec x) ++
  le32 (data_rate x) ++ le16 (block_size x) ++ le16 (bits_per_sample x).

Definition bytes_of_auxi (a : auxi_t) : list Z :=
  bytes_of_datetime (start_time a) ++ bytes_of_datetime (stop_time a) ++
  le32 (frequency a) ++ le32 (sample_frequency a) ++ le32 (if_frequency a) ++
  le32 (bandwidth a) ++ le32 (dc_offset a).

Definition bytes_of_chunk (c : chunk_t) : list Z :=
  chunk_id c ++ le32 (chunk_size c).

(** [memset(&x, 0, sizeof x)]. *)
Definition zero_datetime : datetime_t := mkDatetime 0 0 0 0 0 0 0 0.
Definition zero_auxi : auxi_t := mkAuxi zero_datetime zero_datetime 0 0 0 0 0.

(** The fields of [struct tm] read by [set_datetime]; the value is what
    [gmtime(time(NULL))] returns. *)
Record tm : Type := mkTm {
  tm_sec : Z; tm_min : Z; tm_hour : Z; tm_mday : Z; tm_mon : Z; tm_year : Z
}.

Definition set_datetime (now : tm) (dt : datetime_t) : datetime_t :=
  mkDatetime (u16 (tm_year now + 1900)) (u16 (tm_mon now + 1)) (day_of_week dt)
             (u16 (tm_mday now)) (u16 (tm_hour now)) (u16 (tm_min now))
             (u16 (tm_sec now)) (milliseconds dt).

(** ** Programs that write to the stream and may call [exit] *)

Definition io (A : Type) : Type := FILE -> FILE * (A + Z).

Definition ret {A : Type} (a : A) : io A := fun f => (f, inl a).
Definition exit {A : Type} (code : Z) : io A := fun f => (f, inr code).
Definition bind {A B : Type} (c : io A) (k : A -> io B) : io B :=
  fun f =>
    match c f with
    | (f', inl a) => k a f'
    | (f', inr code) => (f', inr code)
    end.
Definition fwrite_io (data : list Z) : io Z :=
  fun f => let (n, f') := fwrite data f in (f', inl n).

Notation "x <- c1 ;; c2" := (bind c1 (fun x => c2))
  (at level 61, c1 at next level, right associativity).

(** [if (fwrite(&x, 1, size, file) != size) exit(1);] *)
Definition write_or_exit (image : list Z) (size : Z) : io unit :=
  n <- fwrite_io image ;;
  if negb (n =? size) then exit 1 else ret tt.

(** ** wave_header (lines 177-223) *)

Definition header_riff : riff_t :=
  mkRiff (Tag.strncpy Tag.RIFF 4) (u32 (-1)) (Tag.strncpy Tag.WAVE 4).

Definition header_fmt (samp_rate bits : Z) : fmt_t :=
  let format_tag := 1 in
  let channels := 2 in
  let bits_per_sample := u16 bits in
  let samples_per_sec := u32 samp_rate in
  let data_rate := u32 (channels * bits_per_sample / 8 * samples_per_sec) in
  let block_size := u16 (channels * bits_per_sample / 8) in
  mkFmt format_tag channels samples_per_sec data_rate block_size bits_per_sample.

Definition header_auxi (now : tm) (freq : Z) : auxi_t :=
  let auxi := zero_auxi in
  let auxi := mkAuxi (start_time auxi) (stop_time auxi) (u32 freq)
                     (sample_frequency auxi) (if_frequency auxi)
                     (bandwidth auxi) (dc_offset auxi) in
  mkAuxi (set_datetime now (start_time auxi)) (stop_time auxi) (frequency auxi)
         (sample_frequency auxi) (if_frequency auxi)
         (bandwidth auxi) (dc_offset auxi).

Definition wave_header (now : tm) (samp_rate freq bits : Z) : io unit :=
  (* write riff header *)
  _ <- write_or_exit (bytes_of_riff header_riff) sizeof_riff_t ;;
  (* write fmt header *)
  let chunk := mkChunk (Tag.strncpy Tag.fmt 4) (u32 sizeof_fmt_t) in
  _ <- write_or_exit (bytes_of_chunk chunk) sizeof_chunk_t ;;
  (* write fmt data *)
  _ <- write_or_exit (bytes_of_fmt (header_fmt samp_rate bits)) sizeof_fmt_t ;;
  (* write auxi header *)
  let chunk := mkChunk (Tag.strncpy Tag.auxi 4) (u32 sizeof_auxi_t) in
  _ <- write_or_exit (bytes_of_chunk chunk) sizeof_chunk_t ;;
  (* write auxi data *)
  _ <- write_or_exit (bytes_of_auxi (header_auxi now freq)) sizeof_auxi_t ;;
  (* write data header *)
  let chunk := mkChunk (Tag.strncpy Tag.data 4) (u32 (-1)) in
  write_or_exit (bytes_of_chunk chunk) sizeof_chunk_t.

(** ** PowerMonitor (main, lines 363-365 and 392-412) *)

Record monitor : Type := mkMonitor {
  interval : Z;     (* int: sample pairs since the last report *)
  ipeak : Q; qpeak : Q;
  iavg : Q; qavg : Q
}.

Definition interval_seconds : Z := 2.

Definition monitor_init : monitor := mkMonitor 0 0 0 0 0.

(** [(float) (buffer[i] - 128) / 128] *)
Definition normalize (b : Z) : Q := (inject_Z (b - 128) / inject_Z 128)%Q.

(** [x > y] on floats. *)
Definition Qgtb (x y : Q) : bool := negb (Qle_bool x y).

(** The body of the loop over pairs. *)
Definition accumulate (bi bq : Z) (m : monitor) : monitor :=
  let ival := normalize bi in
  let qval := normalize bq in
  let ival := (ival * ival)%Q in
  let qval := (qval * qval)%Q in
  let iavg' := (iavg m + ival)%Q in
  let qavg' := (qavg m + qval)%Q in
  let ipeak' := if Qgtb ival (ipeak m) then ival else ipeak m in
  let qpeak' := if Qgtb qval (qpeak m) then qval else qpeak m in
  mkMonitor (interval m) ipeak' qpeak' iavg' qavg'.

(** [for (int i=0; i < n_read; i += 2) { ... buffer[i] ... buffer[i+1] ... }] *)
Fixpoint monitor_loop (fuel : nat) (i n_read : Z) (buffer : list Z) (m : monitor)
  : run monitor :=
  if i <? n_read then
    match fuel with
    | O => Exhausted
    | S fuel' =>
        match load buffer i, load buffer (i + 1) with
        | Some bi, Some bq =>
            monitor_loop fuel' (i + 2) n_read buffer (accumulate bi bq m)
        | _, _ => Fault
        end
    end
  else Done m.

(** The threshold of the test [interval > samp_rate * interval_seconds]; the
    product is formed in [unsigned int]. *)
Definition report_threshold (samp_rate : Z) : Z := u32 (samp_rate * interval_seconds).

(** Lines 404-412: the counter update ([n_read] is never negative, so [/]
    is C's division), the test, the report and the reset. *)
Definition monitor_report (samp_rate n_read : Z) (m : monitor) : monitor * list msg :=
  let interval' := s32 (interval m + n_read / 2) in
  if u32 interval' >? report_threshold samp_rate then
    let iavg' := (iavg m / inject_Z interval')%Q in
    let qavg' := (qavg m / inject_Z interval')%Q in
    (mkMonitor 0 0 0 0 0, [MsgPeak (mkReport (ipeak m) (qpeak m) iavg' qavg')])
  else (mkMonitor interval' (ipeak m) (qpeak m) (iavg m) (qavg m), []).

(** One buffer through the monitor. *)
Definition power_monitor (samp_rate n_read : Z) (buffer : list Z) (m : monitor)
  : run (monitor * list msg) :=
  match monitor_loop (Z.to_nat n_read) 0 n_read buffer m with
  | Done m' => Done (monitor_report samp_rate n_read m')
  | Fault => Fault
  | Exhausted => Exhausted
  end.

(** [float db(float x) { return 10 * logf(x); }] *)
Definition db (x : R) : R := (10 * ln x)%R.

(** The four numbers printed by the [PEAK ... PAR ...] line:
    [db(ipeak), db(qpeak), db(ipeak / iavg), db(qpeak / qavg)].  A division
    by zero, which gives a non-finite [float], has no counterpart here: the
    statements below that use a ratio assume a nonzero mean. *)
Definition printed_ipeak (r : report) : R := db (Q2R (rep_ipeak r)).
Definition printed_qpeak (r : report) : R := db (Q2R (rep_qpeak r)).
Definition printed_ipar (r : report) : R := db (Q2R (rep_ipeak r) / Q2R (rep_iavg r)).
Definition printed_qpar (r : report) : R := db (Q2R (rep_qpeak r) / Q2R (rep_qavg r)).

(** ** Program state shared by the capture loop, the callback and the
       signal handler *)

Record state : Type := mkState {
  do_exit : bool;
  bytes_to_read : Z;      (* uint64_t; 0 means no limit *)
  buffer : list Z;        (* the block allocated by main *)
  mon : monitor;
  file : FILE;
  stderr : list msg;
  cancels : nat           (* calls of rtlsdr_cancel_async so far *)
}.

Definition log (m : list msg) (st : state) : state :=
  mkState (do_exit st) (bytes_to_read st) (buffer st) (mon st) (file st)
          (stderr st ++ m) (cancels st).

Definition rtlsdr_cancel_async (st : state) : state :=
  mkState (do_exit st) (bytes_to_read st) (buffer st) (mon st) (file st)
          (stderr st) (S (cancels st)).

Definition set_do_exit (st : state) : state :=
  mkState true (bytes_to_read st) (buffer st) (mon st) (file st)
          (stderr st) (cancels st).

Definition sighandler (st : state) : state :=
  rtlsdr_cancel_async (set_do_exit (log [MsgSignalCaught] st)).

(** ** Synchronous capture (main, lines 377-431) *)

(** What one call of [rtlsdr_read_sync] does: its return value, the bytes it
    leaves at the front of the buffer ([n_read] is their number), and whether
    a signal was handled while the call was blocked. *)
Record sync_read : Type := mkRead {
  rd_r : Z;
  rd_data : list Z;
  rd_signal : bool
}.

Inductive stop : Type :=
| ExitFlag        (* the test [!do_exit] failed *)
| ReadFailed      (* break after a failed read *)
| ShortWrite      (* break after a short write *)
| ShortRead       (* break after a short read *)
| Undefined       (* access outside the buffer *)
| OutOfFuel.      (* never returned, see [sync_body_fuel] *)

(** The test [(bytes_to_read > 0) && (bytes_to_read < len)] of both
    capture paths, [len] being a [uint32_t]. *)
Definition over_budget (len : Z) (st : state) : bool :=
  (bytes_to_read st >? 0) && (bytes_to_read st <? u32 len).

(** [n_read] after lines 384-387. *)
Definition sync_count (ev : sync_read) (st : state) : Z :=
  let n_read := Z.of_nat (length (rd_data ev)) in
  if over_budget n_read st then s32 (bytes_to_read st) else n_read.

Definition sync_body (out_block_size samp_rate : Z) (ev : sync_read) (st : state)
  : option stop * state :=
  let st := if rd_signal ev then sighandler st else st in
  if rd_r ev <? 0 then (Some ReadFailed, log [MsgSyncReadFailed] st)
  else
    let buffer0 := rd_data ev ++ skipn (length (rd_data ev)) (buffer st) in
    let n_read := sync_count ev st in
    let exit_flag :=
      if over_budget (Z.of_nat (length (rd_data ev))) st then true else do_exit st in
    match power_monitor samp_rate n_read buffer0 (mon st) with
    | Done (mon', report) =>
        match convert n_read buffer0 with
        | Done buffer1 =>
            let (written, file') :=
              fwrite (firstn (Z.to_nat n_read) buffer1) (file st) in
            let st1 := mkState exit_flag (bytes_to_read st) buffer1 mon' file'
                               (stderr st ++ report) (cancels st) in
            if negb (written =? n_read) then (Some ShortWrite, log [MsgShortWrite] st1)
            else if u32 n_read <? out_block_size then (Some ShortRead, log [MsgShortRead] st1)
            else
              let budget :=
                if bytes_to_read st >? 0 then u64 (bytes_to_read st - n_read)
                else bytes_to_read st in
              (None, mkState exit_flag budget buffer1 mon' file'
                             (stderr st ++ report) (cancels st))
        | Fault => (Some Undefined, st)
        | Exhausted => (Some OutOfFuel, st)
        end
    | Fault => (Some Undefined, st)
    | Exhausted => (Some OutOfFuel, st)
    end.

(** [while (!do_exit) { ... }] over the reads the device serves; [None] means
    that every read served so far was consumed and the loop is in the next
    call of [rtlsdr_read_sync]. *)
Fixpoint sync_loop (out_block_size samp_rate : Z) (reads : list sync_read) (st : state)
  : option stop * state :=
  if do_exit st then (Some ExitFlag, st)
  else
    match reads with
    | [] => (None, st)
    | ev :: reads' =>
        match sync_body out_block_size samp_rate ev st with
        | (None, st') => sync_loop out_block_size samp_rate reads' st'
        | (Some why, st') => (Some why, st')
        end
    end.

(** ** Asynchronous capture (rtlsdr_callback, lines 85-107) *)

(** [len] after lines 91-95. *)
Definition callback_len (buf : list Z) (st : state) : Z :=
  let len := u32 (Z.of_nat (length buf)) in
  if over_budget len st then u32 (bytes_to_read st) else len.

(** The callback with [ctx] the output stream; [buf] is the block owned by
    the library and [len] its length. *)
Definition rtlsdr_callback (buf : list Z) (st : state) : run state :=
  if do_exit st then Done st
  else
    let len := callback_len buf st in
    let st := if over_budget (u32 (Z.of_nat (length buf))) st
              then rtlsdr_cancel_async (set_do_exit st) else st in
    match convert len buf with
    | Done buf' =>
        let (written, file') := fwrite (firstn (Z.to_nat len) buf') (file st) in
        let st := mkState (do_exit st) (bytes_to_read st) (buffer st) (mon st) file'
                          (stderr st) (cancels st) in
        let st := if negb (written =? len)
                  then rtlsdr_cancel_async (log [MsgShortWrite] st) else st in
        let budget :=
          if bytes_to_read st >? 0 then u64 (bytes_to_read st - len)
          else bytes_to_read st in
        Done (mkState (do_exit st) budget (buffer st) (mon st) (file st)
                      (stderr st) (cancels st))
    | Fault => Fault
    | Exhausted => Exhausted
    end.

(** What the library does inside [rtlsdr_read_async]: it hands a block to
    the callback, or a signal is handled. *)
Inductive async_event : Type :=
| Deliver (buf : list Z)
| Signal.

Fixpoint read_async (events : list async_event) (st : state) : run state :=
  match events with
  | [] => Done st
  | Signal :: events' => read_async events' (sighandler st)
  | Deliver buf :: events' =>
      match rtlsdr_callback buf st with
      | Done st' => read_async events' st'
      | Fault => Fault
      | Exhausted => Exhausted
      end
  end.

(** ** main, from the block-size check to the end of capture

    The configuration of the device, the closing message and the release of
    the resources are left out. *)

Record options : Type := mkOptions {
  opt_samp_rate : Z;          (* -s, uint32_t *)
  opt_frequency : Z;          (* -f, uint32_t *)
  opt_out_block_size : Z;     (* -b, uint32_t *)
  opt_bytes_to_read : Z;      (* -n, already doubled *)
  opt_sync_mode : bool        (* -S *)
}.

(** What the program meets at run time: the clock, the contents of the
    block returned by [malloc], the output stream, and what the device does
    in either mode. *)
Record world : Type := mkWorld {
  w_now : tm;
  w_heap : nat -> Z;
  w_file : FILE;
  w_reads : list sync_read;
  w_events : list async_event
}.

Inductive result : Type :=
| Exit (code : Z) (f : FILE)                 (* exit(code) *)
| Capture (why : option stop) (st : state)   (* the loop as the device left it *)
| Crash.

Definition main (o : options) (w : world) : result :=
  let (out_block_size, warnings) := check_block_size (opt_out_block_size o) in
  let buffer := map (w_heap w) (seq 0 (Z.to_nat out_block_size)) in
  match wave_header (w_now w) (opt_samp_rate o) (opt_frequency o) 8 (w_file w) with
  | (f, inr code) => Exit code f
  | (f, inl _) =>
      let st := mkState false (opt_bytes_to_read o) buffer monitor_init f warnings 0 in
      if opt_sync_mode o then
        let (why, st') :=
          sync_loop out_block_size (opt_samp_rate o) (w_reads w) (log [MsgSyncMode] st) in
        Capture why st'
      else
        match read_async (w_events w) (log [MsgAsyncMode] st) with
        | Done st' => Capture None st'
        | _ => Crash
        end
  end.

(** ** The behaviour the specification describes, for comparison *)

Module Spec.

(** Decibels: ten times the decimal logarithm. *)
Definition log10 (x : R) : R := (ln x / ln 10)%R.
Definition decibel (x : R) : R := (10 * log10 x)%R.

(** A raw byte normalised as [(raw - 128) / 128] and squared. *)
Definition power (raw : Z) : Q :=
  let x := ((inject_Z raw - 128) / 128)%Q in (x * x)%Q.

(** One pair: peaks by maximum, sums by addition, the counter by one. *)
Definition pair (bi bq : Z) (m : monitor) : monitor :=
  mkMonitor (interval m + 1)
            (Qmax (ipeak m) (power bi)) (Qmax (qpeak m) (power bq))
            (iavg m + power bi)%Q (qavg m + power bq)%Q.

Fixpoint pairs (samples : list Z) (m : monitor) : monitor :=
  match samples with
  | bi :: bq :: rest => pairs rest (pair bi bq m)
  | _ => m
  end.

(** The header as a sequence of bytes. *)
Definition header (now : tm) (samp_rate freq bits : Z) : list Z :=
  let channels := 2 in
  let bytes_per_sample := bits / 8 in
  (* container record *)
  Tag.chars Tag.RIFF ++ le32 (2 ^ 32 - 1) ++ Tag.chars Tag.WAVE ++
  (* format record *)
  Tag.chars Tag.fmt ++ le32 16 ++
  (le16 1 ++ le16 channels ++ le32 samp_rate ++
   le32 (channels * bytes_per_sample * samp_rate) ++
   le16 (channels * bytes_per_sample) ++ le16 bits) ++
  (* auxiliary record *)
  Tag.chars Tag.auxi ++ le32 52 ++
  ((le16 (tm_year now + 1900) ++ le16 (tm_mon now + 1) ++ le16 0 ++
    le16 (tm_mday now) ++ le16 (tm_hour now) ++ le16 (tm_min now) ++
    le16 (tm_sec now) ++ le16 0) ++
   repeat 0 16 ++ le32 freq ++ repeat 0 16) ++
  (* data record header *)
  Tag.chars Tag.data ++ le32 (2 ^ 32 - 1).

End Spec.


(** The messages of a log that are reports. *)
Fixpoint reports (l : list msg) : list report :=
  match l with
  | [] => []
  | MsgPeak r :: l' => r :: reports l'
  | _ :: l' => reports l'
  end.

(** ** Auxiliary definitions used by the statements *)

(** A sequence of records, each written by one [fwrite] whose result is
    compared with the size of the record. *)
Fixpoint write_seq (images : list (list Z)) : io unit :=
  match images with
  | [] => ret tt
  | image :: rest =>
      _ <- write_or_exit image (Z.of_nat (length image)) ;; write_seq rest
  end.

Definition header_images (now : tm) (samp_rate freq bits : Z) : list (list Z) :=
  [ bytes_of_riff header_riff;
    bytes_of_chunk (mkChunk (Tag.strncpy Tag.fmt 4) (u32 sizeof_fmt_t));
    bytes_of_fmt (header_fmt samp_rate bits);
    bytes_of_chunk (mkChunk (Tag.strncpy Tag.auxi 4) (u32 sizeof_auxi_t));
    bytes_of_auxi (header_auxi now freq);
    bytes_of_chunk (mkChunk (Tag.strncpy Tag.data 4) (u32 (-1))) ].

(** [f'] is [f] with more bytes at its end. *)
Definition extends (f f' : FILE) : Prop :=
  exists extra, f_data f' = f_data f ++ extra.

(** The loop over pairs, unrolled over the bytes it reads. *)
Fixpoint accumulate_pairs (samples : list Z) (m : monitor) : monitor :=
  match samples with
  | bi :: bq :: rest => accumulate_pairs rest (accumulate bi bq m)
  | _ => m
  end.

(** What C10 asks of a report: in each channel the mean is at most the
    peak, and when the mean is not zero the ratio peak / mean is at least 1
    and the printed peak-to-average figure is not negative. *)
Definition report_ok (r : report) : Prop :=
  (rep_iavg r <= rep_ipeak r)%Q /\
  (rep_qavg r <= rep_qpeak r)%Q /\
  (~ (rep_iavg r == 0)%Q ->
     (1 <= Q2R (rep_ipeak r) / Q2R (rep_iavg r))%R /\ (0 <= printed_ipar r)%R) /\
  (~ (rep_qavg r == 0)%Q ->
     (1 <= Q2R (rep_qpeak r) / Q2R (rep_qavg r))%R /\ (0 <= printed_qpar r)%R).

(** One channel between two reports: [count] squares, none above [peak],
    add up to [sum]. *)
Definition channel_ok (count peak sum : Q) : Prop :=
  (0 <= peak)%Q /\ (0 <= sum)%Q /\ (sum <= count * peak)%Q.

Definition monitor_ok (threshold : Z) (m : monitor) : Prop :=
  0 <= interval m <= threshold /\
  channel_ok (inject_Z (interval m)) (ipeak m) (iavg m) /\
  channel_ok (inject_Z (interval m)) (qpeak m) (qavg m).

(** The state of a capture whose reports so far are all as C10 says. *)
Definition capture_ok (samp_rate : Z) (st : state) : Prop :=
  monitor_ok (report_threshold samp_rate) (mon st) /\
  Z.even (bytes_to_read st) = true /\
  0 <= bytes_to_read st < 2 ^ 64 /\
  Forall report_ok (reports (stderr st)).

(** A read that leaves a whole number of pairs, no more than the block. *)
Definition whole_pairs (out_block_size : Z) (ev : sync_read) : Prop :=
  Z.even (Z.of_nat (length (rd_data ev))) = true /\
  Z.of_nat (length (rd_data ev)) <= out_block_size.

(** A read that succeeds, is not interrupted and fills the block. *)
Definition full_block (out_block_size : Z) (ev : sync_read) : Prop :=
  0 <= rd_r ev /\ rd_signal ev = false /\
  Z.of_nat (length (rd_data ev)) = out_block_size.

(** ** Further definitions: readings of the data and of the options *)

(** A byte read as [int8_t] (two's complement), the way a reader of the
    file takes the converted samples. *)
Definition s8 (x : Z) : Z := (x + 2 ^ 7) mod 2 ^ 8 - 2 ^ 7.

(** Line 276, [bytes_to_read = (uint32_t)atof(optarg) * 2;] with [count] the
    value of [(uint32_t)atof(optarg)]: the product is formed in [uint32_t]
    and then widened. *)
Definition budget_of_count (count : Z) : Z := u64 (u32 (u32 count * 2)).

(** The blocks handed to the callback, in order. *)
Fixpoint delivered (events : list async_event) : list (list Z) :=
  match events with
  | [] => []
  | Deliver buf :: events' => buf :: delivered events'
  | Signal :: events' => delivered events'
  end.

(** The number of bytes the reads of a capture bring. *)
Fixpoint bytes_read (reads : list sync_read) : nat :=
  match reads with
  | [] => 0%nat
  | ev :: reads' => (length (rd_data ev) + bytes_read reads')%nat
  end.

(** Both peaks between silence and full scale. *)
Definition peaks_in_range (m : monitor) : Prop :=
  (0 <= ipeak m)%Q /\ (ipeak m <= 1)%Q /\ (0 <= qpeak m)%Q /\ (qpeak m <= 1)%Q.

(** A report whose peaks are at most full scale and whose printed peak
    levels, where the peak is not zero, are at most 0. *)
Definition report_in_range (r : report) : Prop :=
  (0 <= rep_ipeak r)%Q /\ (rep_ipeak r <= 1)%Q /\
  (0 <= rep_qpeak r)%Q /\ (rep_qpeak r <= 1)%Q /\
  ((0 < rep_ipeak r)%Q -> (printed_ipeak r <= 0)%R) /\
  ((0 < rep_qpeak r)%Q -> (printed_qpeak r <= 0)%R).

(** The block and the accumulators of a capture of bytes. *)
Definition capture_in_range (st : state) : Prop :=
  Forall is_byte (buffer st) /\
  peaks_in_range (mon st) /\
  Forall report_in_range (reports (stderr st)).

(** Deliveries only (no signal), each block within [uint32_t]. *)
Definition deliveries (events : list async_event) : Prop :=
  Forall (fun e => match e with
                   | Deliver buf => Z.of_nat (length buf) < 2 ^ 32
                   | Signal => False
                   end) events.

(** Little-endian fields read back from a file. *)
Definition from_le16 (bytes : list Z) : Z :=
  match bytes with
  | [b0; b1] => b0 + 256 * b1
  | _ => 0
  end.

Definition from_le32 (bytes : list Z) : Z :=
  match bytes with
  | [b0; b1; b2; b3] => b0 + 256 * b1 + 65536 * b2 + 16777216 * b3
  | _ => 0
  end.

(** [size] bytes of a file from offset [pos]. *)
Definition field (pos size : nat) (bytes : list Z) : list Z :=
  firstn size (skipn pos bytes).

(** The value of [r] when the synchronous loop is left: [r0] if no read was
    made, else the return value of the last call of [rtlsdr_read_sync]. *)
Fixpoint sync_last_r (out_block_size samp_rate : Z) (reads : list sync_read)
  (st : state) (r0 : Z) : Z :=
  if do_exit st then r0
  else
    match reads with
    | [] => r0
    | ev :: reads' =>
        match sync_body out_block_size samp_rate ev st with
        | (None, st') => sync_last_r out_block_size samp_rate reads' st' (rd_r ev)
        | (Some _, _) => rd_r ev
        end
    end.

(** Line 449, [return r >= 0 ? r : -r;]. *)
Definition exit_status (r : Z) : Z := if r >=? 0 then r else s32 (- r).

(** * Properties *)

(** ** Buffers *)

Lemma load_middle (pre rest : list Z) (x : Z) :
  load (pre ++ x :: rest) (Z.of_nat (length pre)) = Some x.
Proof.
  unfold load.
  destruct (Z.of_nat (length pre) <? 0) eqn:E; [apply Z.ltb_lt in E; lia|].
  rewrite Nat2Z.id, nth_error_app2 by lia.
  now rewrite Nat.sub_diag.
Qed.

Lemma store_at_middle (pre rest : list Z) (x v : Z) :
  store_at (pre ++ x :: rest) (length pre) v = Some (pre ++ v :: rest).
Proof.
  induction pre as [|p pre IH]; simpl; [reflexivity|].
  now rewrite IH.
Qed.

Lemma store_middle (pre rest : list Z) (x v : Z) :
  store (pre ++ x :: rest) (Z.of_nat (length pre)) v = Some (pre ++ v :: rest).
Proof.
  unfold store.
  destruct (Z.of_nat (length pre) <? 0) eqn:E; [apply Z.ltb_lt in E; lia|].
  rewrite Nat2Z.id. apply store_at_middle.
Qed.

Lemma load_outside (buf : list Z) (i : Z) :
  Z.of_nat (length buf) <= i -> load buf i = None.
Proof.
  intros H. unfold load.
  destruct (i <? 0) eqn:E; [reflexivity|].
  apply nth_error_None. lia.
Qed.

(** ** SampleConverter *)

Lemma convert_loop_middle (k fuel : nat) (pre rest : list Z) :
  (k <= fuel)%nat -> (k <= length rest)%nat ->
  convert_loop fuel (Z.of_nat (length pre)) (Z.of_nat (length pre + k)) (pre ++ rest)
  = Done (pre ++ map convert_byte (firstn k rest) ++ skipn k rest).
Proof.
  revert fuel pre rest.
  induction k as [|k IH]; intros fuel pre rest Hfuel Hlen.
  - rewrite Nat.add_0_r.
    destruct fuel; simpl; rewrite Z.ltb_irrefl; reflexivity.
  - destruct fuel as [|fuel]; [lia|].
    destruct rest as [|x rest]; [simpl in Hlen; lia|].
    simpl convert_loop.
    destruct (Z.of_nat (length pre) <? Z.of_nat (length pre + S k)) eqn:E;
      [|apply Z.ltb_ge in E; lia].
    rewrite load_middle, store_middle.
    replace (Z.of_nat (length pre) + 1) with (Z.of_nat (length (pre ++ [convert_byte x])))
      by (rewrite length_app; simpl; lia).
    replace (Z.of_nat (length pre + S k))
      with (Z.of_nat (length (pre ++ [convert_byte x]) + k))
      by (rewrite length_app; simpl; lia).
    replace (pre ++ convert_byte x :: rest) with ((pre ++ [convert_byte x]) ++ rest)
      by (now rewrite <- app_assoc).
    rewrite IH by (simpl in Hlen; lia).
    simpl. now rewrite <- app_assoc.
Qed.

(** The loop is the elementwise map over the first [len] bytes; it never
    faults and never runs out of fuel when [len] is within the buffer. *)
Lemma convert_map (len : Z) (buf : list Z) :
  0 <= len <= Z.of_nat (length buf) ->
  convert len buf
  = Done (map convert_byte (firstn (Z.to_nat len) buf) ++ skipn (Z.to_nat len) buf).
Proof.
  intros H. unfold convert.
  pose proof (convert_loop_middle (Z.to_nat len) (Z.to_nat len) [] buf) as L.
  simpl in L. rewrite Z2Nat.id in L by lia.
  apply L; lia.
Qed.

(** The fuel handed to the loop is always enough. *)
Lemma convert_loop_fuel (fuel : nat) :
  forall (n len : Z) (buf : list Z),
  len - n <= Z.of_nat fuel -> convert_loop fuel n len buf <> Exhausted.
Proof.
  induction fuel as [|fuel IH]; intros n len buf H; simpl.
  - destruct (n <? len) eqn:E; [apply Z.ltb_lt in E; lia | discriminate].
  - destruct (n <? len); [|discriminate].
    destruct (load buf n); [|discriminate].
    destruct (store buf n _); [|discriminate].
    apply IH. lia.
Qed.

Lemma convert_fuel (len : Z) (buf : list Z) : convert len buf <> Exhausted.
Proof. unfold convert. apply convert_loop_fuel. lia. Qed.

Lemma convert_byte_range (b : Z) : is_byte (convert_byte b).
Proof.
  unfold is_byte, convert_byte, u8.
  pose proof (Z.mod_pos_bound (b - 128) (2 ^ 8) ltac:(lia)). lia.
Qed.

Lemma convert_byte_involutive (b : Z) :
  is_byte b -> convert_byte (convert_byte b) = b.
Proof.
  unfold is_byte, convert_byte, u8. intros H.
  destruct (Z_lt_ge_dec b 128) as [L|G].
  - replace (b - 128) with (b + 128 + (-1) * 2 ^ 8) by lia.
    rewrite Z.mod_add by lia.
    rewrite (Z.mod_small (b + 128)) by lia.
    replace (b + 128 - 128) with b by lia. apply Z.mod_small. lia.
  - rewrite (Z.mod_small (b - 128)) by lia.
    replace (b - 128 - 128) with (b + (-1) * 2 ^ 8) by lia.
    rewrite Z.mod_add by lia. apply Z.mod_small. lia.
Qed.

Lemma convert_byte_add (b : Z) : convert_byte b = u8 (b + 128).
Proof.
  unfold convert_byte, u8.
  replace (b - 128) with (b + 128 + (-1) * 2 ^ 8) by lia.
  now rewrite Z.mod_add by lia.
Qed.

Lemma convert_byte_moves (b : Z) : is_byte b -> convert_byte b <> b.
Proof.
  unfold is_byte, convert_byte, u8. intros H.
  destruct (Z_lt_ge_dec b 128) as [L|G].
  - replace (b - 128) with (b + 128 + (-1) * 2 ^ 8) by lia.
    rewrite Z.mod_add by lia. rewrite Z.mod_small by lia. lia.
  - rewrite Z.mod_small by lia. lia.
Qed.

(** C5 as stated fails: the claim denies that reapplying the transform
    restores the byte, yet the second pass over a converted byte gives the
    original back. *)
Lemma C5_reapplying_restores :
  convert_byte (convert_byte 200) = 200 /\
  convert 4 [0; 127; 128; 255] = Done [128; 255; 0; 127] /\
  convert 4 [128; 255; 0; 127] = Done [0; 127; 128; 255] /\
  ~ (forall b, is_byte b -> convert_byte (convert_byte b) <> b).
Proof.
  repeat split; try reflexivity.
  intros H. apply (H 200); [unfold is_byte; lia | reflexivity].
Qed.

(** C5 (amended): on the first [len] bytes of the buffer the converter is
    the elementwise map [b |-> (b - 128) mod 256], the buffer keeps its
    length, the result of one pass is never a fixed point of a second pass
    (the map is not idempotent), and the original byte comes back both by
    adding 128 modulo 256 and by applying the same transform again. *)
Theorem C5_converter_is_involutive_map (len : Z) (buf : list Z)
  (Hlen : 0 <= len <= Z.of_nat (length buf)) :
  exists out,
    convert len buf = Done out /\
    length out = length buf /\
    (forall i, 0 <= i < len ->
       exists b, load buf i = Some b /\ load out i = Some ((b - 128) mod 256)) /\
    (forall i, len <= i -> load out i = load buf i) /\
    (forall b, is_byte b ->
       convert_byte b = (b - 128) mod 256 /\
       is_byte (convert_byte b) /\
       convert_byte (convert_byte b) <> convert_byte b /\
       u8 (convert_byte b + 128) = b /\
       convert_byte (convert_byte b) = b).
Proof.
  exists (map convert_byte (firstn (Z.to_nat len) buf) ++ skipn (Z.to_nat len) buf).
  split; [now apply convert_map|].
  assert (Hfl : length (firstn (Z.to_nat len) buf) = Z.to_nat len)
    by (rewrite length_firstn; lia).
  split; [|split; [|split]].
  - rewrite length_app, length_map, length_firstn, length_skipn. lia.
  - intros i Hi. unfold load.
    destruct (i <? 0) eqn:E; [apply Z.ltb_lt in E; lia|].
    destruct (nth_error buf (Z.to_nat i)) as [b|] eqn:Eb.
    + exists b. split; [reflexivity|].
      rewrite nth_error_app1 by (rewrite length_map; lia).
      rewrite nth_error_map, nth_error_firstn.
      destruct (Nat.ltb_spec (Z.to_nat i) (Z.to_nat len)); [|lia].
      now rewrite Eb.
    + apply nth_error_None in Eb. lia.
  - intros i Hi. unfold load.
    destruct (i <? 0) eqn:E; [reflexivity|].
    rewrite nth_error_app2 by (rewrite length_map; lia).
    rewrite length_map, Hfl, nth_error_skipn. f_equal. lia.
  - intros b Hb.
    split; [reflexivity|].
    split; [apply convert_byte_range|].
    split; [apply convert_byte_moves, convert_byte_range|].
    split; [|now apply convert_byte_involutive].
    rewrite <- convert_byte_add. now apply convert_byte_involutive.
Qed.

Lemma C5_converter_witness :
  0 <= 4 <= Z.of_nat (length [0; 127; 128; 255]) /\
  exists out, convert 4 [0; 127; 128; 255] = Done out /\ length out = 4%nat.
Proof.
  assert (H : 0 <= 4 <= Z.of_nat (length [0; 127; 128; 255])) by (simpl; lia).
  split; [exact H|].
  destruct (C5_converter_is_involutive_map 4 [0; 127; 128; 255] H) as (out & E & L & _).
  exists out. split; [exact E | exact L].
Defined.

(** ** ContainerWriter: the header *)

Lemma le16_u16 (x : Z) : le16 (u16 x) = le16 x.
Proof.
  unfold le16, u16. f_equal; [|f_equal];
    change (2 ^ 16) with 65536; Z.to_euclidean_division_equations; lia.
Qed.

Lemma le32_u32 (x : Z) : le32 (u32 x) = le32 x.
Proof.
  unfold le32, u32. change (2 ^ 32) with 4294967296.
  f_equal; [|f_equal; [|f_equal; [|f_equal]]];
    Z.to_euclidean_division_equations; lia.
Qed.

Lemma wave_header_as_seq (now : tm) (samp_rate freq bits : Z) (f : FILE) :
  wave_header now samp_rate freq bits f
  = write_seq (header_images now samp_rate freq bits) f.
Proof.
  unfold wave_header, header_images, write_seq, bind.
  change sizeof_riff_t with (Z.of_nat (length (bytes_of_riff header_riff))).
  destruct (write_or_exit _ _ f) as [f1 [[]|c1]]; [|reflexivity].
  change sizeof_chunk_t
    with (Z.of_nat (length (bytes_of_chunk (mkChunk (Tag.strncpy Tag.fmt 4) (u32 sizeof_fmt_t))))).
  destruct (write_or_exit _ _ f1) as [f2 [[]|c2]]; [|reflexivity].
  change sizeof_fmt_t with (Z.of_nat (length (bytes_of_fmt (header_fmt samp_rate bits)))).
  destruct (write_or_exit _ _ f2) as [f3 [[]|c3]]; [|reflexivity].
  destruct (write_or_exit _ _ f3) as [f4 [[]|c4]]; [|reflexivity].
  change sizeof_auxi_t with (Z.of_nat (length (bytes_of_auxi (header_auxi now freq)))).
  destruct (write_or_exit _ _ f4) as [f5 [[]|c5]]; [|reflexivity].
  destruct (write_or_exit _ _ f5) as [f6 [[]|c6]]; reflexivity.
Qed.

Lemma write_or_exit_cases (image : list Z) (f : FILE) :
  let '(f', r) := write_or_exit image (Z.of_nat (length image)) f in
  f_accept f' = skipn 1 (f_accept f) /\
  ((r = inl tt /\ f_data f' = f_data f ++ image) \/
   (r = inr 1 /\ exists n, (n < length image)%nat /\
                           f_data f' = f_data f ++ firstn n image)).
Proof.
  unfold write_or_exit, bind, fwrite_io, fwrite.
  destruct (f_accept f) as [|k rest]; simpl.
  - rewrite Z.eqb_refl. simpl. split; [reflexivity|]. left. now split.
  - destruct (Nat.le_gt_cases (length image) k) as [L|G].
    + rewrite Nat.min_r by lia. rewrite Z.eqb_refl. simpl.
      split; [reflexivity|]. left. split; [reflexivity|].
      now rewrite firstn_all.
    + rewrite Nat.min_l by lia.
      destruct (Z.of_nat k =? Z.of_nat (length image)) eqn:E;
        [apply Z.eqb_eq in E; lia|].
      simpl. split; [reflexivity|]. right. split; [reflexivity|].
      exists k. now split.
Qed.

(** The records are written in order, each by a single call; the first
    incomplete call is followed by [exit(1)] and by no other call. *)
Lemma write_seq_cases (images : list (list Z)) (f : FILE) :
  let '(f', r) := write_seq images f in
  exists calls : nat,
    (calls <= length images)%nat /\
    f_accept f' = skipn calls (f_accept f) /\
    ((r = inl tt /\ calls = length images /\
      f_data f' = f_data f ++ concat images) \/
     (r = inr 1 /\ exists n, (n < length (concat images))%nat /\
                             f_data f' = f_data f ++ firstn n (concat images))).
Proof.
  revert f. induction images as [|image rest IH]; intros f; simpl.
  - exists 0%nat. split; [lia|]. split; [reflexivity|]. left.
    split; [reflexivity|]. split; [reflexivity|]. now rewrite app_nil_r.
  - unfold bind.
    pose proof (write_or_exit_cases image f) as W.
    destruct (write_or_exit image (Z.of_nat (length image)) f) as [f1 r1].
    destruct W as (Hacc & [(Hr & Hd) | (Hr & n & Hn & Hd)]); subst r1.
    + specialize (IH f1). destruct (write_seq rest f1) as [f' r].
      destruct IH as (calls & Hc & Ha & Hres).
      exists (S calls). split; [lia|].
      split; [rewrite Ha, Hacc; destruct (f_accept f); simpl;
              [now destruct calls | reflexivity]|].
      destruct Hres as [(Hr & Hk & Hd') | (Hr & m & Hm & Hd')].
      * left. split; [exact Hr|]. split; [lia|].
        now rewrite Hd', Hd, <- app_assoc.
      * right. split; [exact Hr|].
        exists (length image + m)%nat.
        split; [rewrite length_app; lia|].
        rewrite Hd', Hd, <- app_assoc. f_equal.
        rewrite firstn_app.
        rewrite (firstn_all2 image) by lia.
        f_equal. f_equal. lia.
    + exists 1%nat. split; [lia|]. split; [exact Hacc|].
      right. split; [reflexivity|].
      exists n. split; [rewrite length_app; lia|].
      rewrite Hd. f_equal. rewrite firstn_app.
      replace (n - length image)%nat with 0%nat by lia.
      simpl. now rewrite app_nil_r.
Qed.

Lemma write_seq_complete (images : list (list Z)) (f : FILE) :
  f_accept f = [] ->
  write_seq images f = (mkFILE (f_data f ++ concat images) [], inl tt).
Proof.
  revert f. induction images as [|image rest IH]; intros [d a] H; simpl in *; subst a.
  - unfold ret. now rewrite app_nil_r.
  - unfold bind, write_or_exit, bind, fwrite_io, fwrite. simpl.
    rewrite Z.eqb_refl. simpl.
    rewrite IH by reflexivity. simpl. now rewrite <- app_assoc.
Qed.

(** The records of the header, concatenated, are the layout of the
    specification when the sample size is a whole number of bytes and the
    byte rate fits its 32-bit field. *)
Lemma header_images_layout (now : tm) (samp_rate freq bits : Z) :
  0 <= bits < 2 ^ 16 -> bits mod 8 = 0 ->
  concat (header_images now samp_rate freq bits) = Spec.header now samp_rate freq bits.
Proof.
  intros Hbits Hwhole.
  assert (Hb : u16 bits = bits) by (unfold u16; apply Z.mod_small; lia).
  assert (Hd : 2 * bits / 8 = 2 * (bits / 8))
    by (Z.to_euclidean_division_equations; lia).
  unfold header_images, Spec.header, concat,
    bytes_of_riff, bytes_of_chunk, bytes_of_fmt, bytes_of_auxi, bytes_of_datetime,
    header_riff, header_fmt, header_auxi, set_datetime, zero_auxi, zero_datetime.
  cbn [riff_id riff_size riff_type chunk_id chunk_size
       format_tag channels samples_per_sec data_rate block_size bits_per_sample
       start_time stop_time frequency sample_frequency if_frequency bandwidth dc_offset
       year month day_of_week day hour minute second milliseconds].
  rewrite Hb, Hd, !le16_u16, !le32_u32.
  replace (le32 (2 * (bits / 8) * u32 samp_rate)) with (le32 (2 * (bits / 8) * samp_rate)).
  - reflexivity.
  - rewrite <- (le32_u32 (2 * (bits / 8) * samp_rate)).
    rewrite <- (le32_u32 (2 * (bits / 8) * u32 samp_rate)).
    f_equal. unfold u32. now rewrite Z.mul_mod_idemp_r by lia.
Qed.

(** ** The stream only grows *)

Lemma extends_refl (f : FILE) : extends f f.
Proof. exists []. now rewrite app_nil_r. Qed.

Lemma extends_trans (f g h : FILE) : extends f g -> extends g h -> extends f h.
Proof.
  intros [a Ha] [b Hb]. exists (a ++ b). now rewrite Hb, Ha, app_assoc.
Qed.

Lemma fwrite_extends (data : list Z) (f : FILE) : extends f (snd (fwrite data f)).
Proof.
  unfold fwrite. destruct (f_accept f); simpl; eexists; reflexivity.
Qed.

Lemma sync_body_extends (obs sr : Z) (ev : sync_read) (st : state) :
  extends (file st) (file (snd (sync_body obs sr ev st))).
Proof.
  unfold sync_body.
  assert (Hs : file (if rd_signal ev then sighandler st else st) = file st)
    by (destruct (rd_signal ev); reflexivity).
  destruct (rd_r ev <? 0); [simpl; rewrite Hs; apply extends_refl|].
  destruct (power_monitor _ _ _ _) as [[m r]| |];
    try (simpl; rewrite Hs; apply extends_refl).
  destruct (convert _ _) as [b| |];
    try (simpl; rewrite Hs; apply extends_refl).
  match goal with
  | |- context [fwrite ?d ?f] =>
      pose proof (fwrite_extends d f) as E; destruct (fwrite d f) as [n f']
  end.
  rewrite Hs in E. simpl in E.
  destruct (negb _); [exact E|].
  destruct (_ <? _); exact E.
Qed.

Lemma sync_loop_extends (obs sr : Z) (reads : list sync_read) (st : state) :
  extends (file st) (file (snd (sync_loop obs sr reads st))).
Proof.
  revert st. induction reads as [|ev reads IH]; intros st; simpl.
  - destruct (do_exit st); apply extends_refl.
  - destruct (do_exit st); [apply extends_refl|].
    pose proof (sync_body_extends obs sr ev st) as E.
    destruct (sync_body obs sr ev st) as [[why|] st1]; [exact E|].
    eapply extends_trans; [exact E | apply IH].
Qed.

Lemma rtlsdr_callback_extends (buf : list Z) (st st' : state) :
  rtlsdr_callback buf st = Done st' -> extends (file st) (file st').
Proof.
  unfold rtlsdr_callback.
  destruct (do_exit st); [intros H; inversion H; apply extends_refl|].
  set (trunc := over_budget _ st).
  assert (Hs : file (if trunc then rtlsdr_cancel_async (set_do_exit st) else st) = file st)
    by (destruct trunc; reflexivity).
  destruct (convert _ _) as [b| |]; try discriminate.
  match goal with
  | |- context [fwrite ?d ?f] =>
      pose proof (fwrite_extends d f) as E; destruct (fwrite d f) as [n f']
  end.
  rewrite Hs in E. simpl in E.
  intros H. inversion H. simpl.
  destruct (negb _); exact E.
Qed.

Lemma read_async_extends (events : list async_event) (st st' : state) :
  read_async events st = Done st' -> extends (file st) (file st').
Proof.
  revert st. induction events as [|[buf|] events IH]; intros st H; simpl in H.
  - inversion H. apply extends_refl.
  - destruct (rtlsdr_callback buf st) as [st1| |] eqn:E; try discriminate.
    eapply extends_trans; [eapply rtlsdr_callback_extends; exact E | now apply IH].
  - apply IH in H. exact H.
Qed.

Lemma wave_header_returned (now : tm) (samp_rate freq bits : Z) (f f' : FILE) :
  wave_header now samp_rate freq bits f = (f', inl tt) ->
  f_data f' = f_data f ++ concat (header_images now samp_rate freq bits).
Proof.
  intros Hrun.
  pose proof (write_seq_cases (header_images now samp_rate freq bits) f) as W.
  rewrite <- wave_header_as_seq, Hrun in W.
  destruct W as (calls & _ & _ & [(_ & _ & Hd) | (Hr & _)]);
    [exact Hd | discriminate].
Qed.

(** C6: whenever [wave_header] returns it has appended exactly the header of
    the specification, and it does return on a stream that takes every
    write.  The header is, in this order: the RIFF record (size field -1,
    type WAVE); the "fmt " chunk header whose size field is the length of the
    format body, and that body (format code 1, two channels, the sample rate,
    byte rate = channels x bytes per sample x sample rate, block alignment =
    channels x bytes per sample, bits per sample); the "auxi" chunk header
    whose size field is the length of the auxiliary body, and that body
    (start time taken from the clock, stop time zero, the centre frequency,
    the other fields zero); the "data" chunk header with size field -1.  In
    [main] every sample byte comes after it. *)
Theorem C6_header_layout (now : tm) (samp_rate freq bits : Z)
  (Hrate : 0 <= samp_rate < 2 ^ 32) (Hfreq : 0 <= freq < 2 ^ 32)
  (Hbits : 0 <= bits < 2 ^ 16) (Hwhole : bits mod 8 = 0)
  (Hfit : 2 * (bits / 8) * samp_rate < 2 ^ 32) :
  let channels := 2 in
  let bytes_per_sample := bits / 8 in
  (forall f f',
     wave_header now samp_rate freq bits f = (f', inl tt) ->
     f_data f' = f_data f ++ Spec.header now samp_rate freq bits) /\
  (forall f, f_accept f = [] ->
     exists f', wave_header now samp_rate freq bits f = (f', inl tt)) /\
  header_riff = mkRiff (Tag.chars Tag.RIFF) (2 ^ 32 - 1) (Tag.chars Tag.WAVE) /\
  u32 sizeof_fmt_t = Z.of_nat (length (bytes_of_fmt (header_fmt samp_rate bits))) /\
  header_fmt samp_rate bits
  = mkFmt 1 channels samp_rate (channels * bytes_per_sample * samp_rate)
          (channels * bytes_per_sample) bits /\
  u32 sizeof_auxi_t = Z.of_nat (length (bytes_of_auxi (header_auxi now freq))) /\
  header_auxi now freq
  = mkAuxi (mkDatetime (u16 (tm_year now + 1900)) (u16 (tm_mon now + 1)) 0
                       (u16 (tm_mday now)) (u16 (tm_hour now)) (u16 (tm_min now))
                       (u16 (tm_sec now)) 0)
           zero_datetime freq 0 0 0 0 /\
  u32 (-1) = 2 ^ 32 - 1 /\
  (bits = 8 ->
   forall block budget sync heap f reads events why st,
     main (mkOptions samp_rate freq block budget sync)
          (mkWorld now heap f reads events) = Capture why st ->
     exists samples,
       f_data (file st) = f_data f ++ Spec.header now samp_rate freq 8 ++ samples).
Proof.
  intros channels bytes_per_sample.
  assert (Hb : u16 bits = bits) by (unfold u16; apply Z.mod_small; lia).
  assert (Hd : 2 * bits / 8 = 2 * (bits / 8))
    by (Z.to_euclidean_division_equations; lia).
  assert (Hlayout : forall f f',
            wave_header now samp_rate freq bits f = (f', inl tt) ->
            f_data f' = f_data f ++ Spec.header now samp_rate freq bits).
  { intros f f' Hrun. apply wave_header_returned in Hrun.
    now rewrite header_images_layout in Hrun. }
  split; [exact Hlayout|].
  split.
  { intros f Hfile. eexists.
    rewrite wave_header_as_seq, write_seq_complete by exact Hfile. reflexivity. }
  split; [reflexivity|]. split; [reflexivity|].
  split.
  { unfold header_fmt. rewrite Hb, Hd.
    assert (Hsr : u32 samp_rate = samp_rate) by (unfold u32; apply Z.mod_small; lia).
    rewrite Hsr.
    assert (Hq : 0 <= bits / 8 < 2 ^ 13)
      by (Z.to_euclidean_division_equations; lia).
    subst channels bytes_per_sample.
    f_equal; [unfold u32 | unfold u16]; apply Z.mod_small; lia. }
  split; [reflexivity|].
  split.
  { unfold header_auxi, set_datetime, zero_auxi, zero_datetime. simpl.
    f_equal. unfold u32. apply Z.mod_small. lia. }
  split; [reflexivity|].
  intros H8 block budget sync heap f reads events why st Hmain.
  subst bits. unfold main in Hmain. simpl in Hmain.
  destruct (check_block_size block) as [obs warn].
  destruct (wave_header now samp_rate freq 8 f) as [f1 [[]|code]] eqn:Hrun;
    [|discriminate].
  apply Hlayout in Hrun.
  destruct sync.
  - match type of Hmain with
    | context [sync_loop ?a ?b ?c ?d] =>
        pose proof (sync_loop_extends a b c d) as E;
        destruct (sync_loop a b c d) as [why' st']
    end.
    inversion Hmain; subst. destruct E as [extra E]. simpl in E.
    exists extra. now rewrite E, Hrun, app_assoc.
  - destruct (read_async _ _) as [st'| |] eqn:E; try discriminate.
    inversion Hmain; subst.
    apply read_async_extends in E. destruct E as [extra E]. simpl in E.
    exists extra. now rewrite E, Hrun, app_assoc.
Qed.

Lemma C6_header_witness :
  data_rate (header_fmt 2048000 8) = 4096000 /\
  block_size (header_fmt 2048000 8) = 2 /\
  exists f',
    wave_header (mkTm 30 15 12 30 9 126) 2048000 100000000 8 (mkFILE [] []) = (f', inl tt) /\
    length (f_data f') = 104%nat.
Proof.
  assert (H1 : 0 <= 2048000 < 2 ^ 32) by lia.
  assert (H2 : 0 <= 100000000 < 2 ^ 32) by lia.
  assert (H3 : 0 <= 8 < 2 ^ 16) by lia.
  assert (H4 : 8 mod 8 = 0) by reflexivity.
  assert (H5 : 2 * (8 / 8) * 2048000 < 2 ^ 32) by reflexivity.
  pose proof (C6_header_layout (mkTm 30 15 12 30 9 126) 2048000 100000000 8
                H1 H2 H3 H4 H5) as H.
  cbv zeta in H. destruct H as (Hlayout & Hreturns & _ & _ & Hfmt & _).
  rewrite Hfmt. split; [reflexivity|]. split; [reflexivity|].
  destruct (Hreturns (mkFILE [] []) eq_refl) as [f' Hrun].
  exists f'. split; [exact Hrun|].
  rewrite (Hlayout _ _ Hrun). reflexivity.
Defined.

(** ** PowerMonitor: the loop over pairs *)

Lemma monitor_loop_step (fuel : nat) (i n_read : Z) (buf : list Z) (m : monitor) :
  i < n_read ->
  monitor_loop (S fuel) i n_read buf m
  = match load buf i, load buf (i + 1) with
    | Some bi, Some bq => monitor_loop fuel (i + 2) n_read buf (accumulate bi bq m)
    | _, _ => Fault
    end.
Proof.
  intros H. simpl.
  destruct (i <? n_read) eqn:E; [reflexivity | apply Z.ltb_ge in E; lia].
Qed.

Lemma monitor_loop_done (fuel : nat) (i n_read : Z) (buf : list Z) (m : monitor) :
  n_read <= i -> monitor_loop fuel i n_read buf m = Done m.
Proof.
  intros H.
  destruct fuel; simpl; destruct (i <? n_read) eqn:E;
    try reflexivity; apply Z.ltb_lt in E; lia.
Qed.

Lemma monitor_loop_fuel (fuel : nat) :
  forall (i n_read : Z) (buf : list Z) (m : monitor),
  n_read - i <= Z.of_nat fuel -> monitor_loop fuel i n_read buf m <> Exhausted.
Proof.
  induction fuel as [|fuel IH]; intros i n_read buf m H; simpl.
  - destruct (i <? n_read) eqn:E; [apply Z.ltb_lt in E; lia | discriminate].
  - destruct (i <? n_read); [|discriminate].
    destruct (load buf i); [|discriminate].
    destruct (load buf (i + 1)); [|discriminate].
    apply IH. lia.
Qed.

Lemma power_monitor_fuel (samp_rate n_read : Z) (buf : list Z) (m : monitor) :
  power_monitor samp_rate n_read buf m <> Exhausted.
Proof.
  unfold power_monitor.
  pose proof (monitor_loop_fuel (Z.to_nat n_read) 0 n_read buf m ltac:(lia)) as H.
  destruct (monitor_loop _ _ _ _ _); congruence.
Qed.

(** [k] trips of the loop, each of which finds its two bytes. *)
Lemma monitor_loop_steps (k fuel : nat) (pre rest : list Z) (n_read : Z) (m : monitor) :
  (2 * k <= length rest)%nat ->
  ((1 <= k)%nat -> Z.of_nat (length pre + 2 * k) - 2 < n_read) ->
  monitor_loop (k + fuel) (Z.of_nat (length pre)) n_read (pre ++ rest) m
  = monitor_loop fuel (Z.of_nat (length pre + 2 * k)) n_read (pre ++ rest)
                 (accumulate_pairs (firstn (2 * k) rest) m).
Proof.
  revert pre rest m.
  induction k as [|k IH]; intros pre rest m Hlen Hn.
  - simpl. now rewrite Nat.add_0_r.
  - destruct rest as [|bi [|bq rest]]; try (simpl in Hlen; lia).
    change (S k + fuel)%nat with (S (k + fuel)).
    rewrite monitor_loop_step by lia.
    rewrite load_middle.
    replace (pre ++ bi :: bq :: rest) with ((pre ++ [bi]) ++ bq :: rest)
      by (now rewrite <- app_assoc).
    replace (Z.of_nat (length pre) + 1) with (Z.of_nat (length (pre ++ [bi])))
      by (rewrite length_app; simpl; lia).
    rewrite load_middle.
    replace ((pre ++ [bi]) ++ bq :: rest) with ((pre ++ [bi; bq]) ++ rest)
      by (now rewrite <- !app_assoc).
    replace (Z.of_nat (length pre) + 2) with (Z.of_nat (length (pre ++ [bi; bq])))
      by (rewrite length_app; simpl; lia).
    rewrite IH.
    + replace (length (pre ++ [bi; bq]) + 2 * k)%nat with (length pre + 2 * S k)%nat
        by (rewrite length_app; simpl; lia).
      replace (2 * S k)%nat with (S (S (2 * k))) by lia.
      reflexivity.
    + simpl in Hlen. lia.
    + intros Hk. rewrite length_app. simpl length. lia.
Qed.

(** The loop on a whole number of pairs inside the buffer. *)
Lemma monitor_loop_even (n_read : Z) (buf : list Z) (m : monitor) :
  Z.even n_read = true -> 0 <= n_read <= Z.of_nat (length buf) ->
  monitor_loop (Z.to_nat n_read) 0 n_read buf m
  = Done (accumulate_pairs (firstn (Z.to_nat n_read) buf) m).
Proof.
  intros Heven Hlen.
  apply Z.even_spec in Heven. destruct Heven as [h Hh].
  pose proof (monitor_loop_steps (Z.to_nat h) (Z.to_nat h) [] buf n_read m) as L.
  change (Z.of_nat (@length Z [])) with 0 in L.
  change (@length Z []) with 0%nat in L.
  rewrite Nat.add_0_l in L. change ([] ++ buf) with buf in L.
  replace (Z.to_nat h + Z.to_nat h)%nat with (Z.to_nat n_read) in L by lia.
  replace (2 * Z.to_nat h)%nat with (Z.to_nat n_read) in L by lia.
  rewrite L by lia.
  apply monitor_loop_done. lia.
Qed.

(** The loop on an odd count: the last trip takes the trailing byte
    [buf[n_read - 1]] together with [buf[n_read]], the byte after the data. *)
Lemma monitor_loop_odd (n_read : Z) (buf : list Z) (m : monitor) :
  Z.odd n_read = true -> 0 <= n_read < Z.of_nat (length buf) ->
  monitor_loop (Z.to_nat n_read) 0 n_read buf m
  = Done (accumulate_pairs (firstn (Z.to_nat (n_read + 1)) buf) m).
Proof.
  intros Hodd Hlen.
  apply Z.odd_spec in Hodd. destruct Hodd as [h Hh].
  pose proof (monitor_loop_steps (Z.to_nat (h + 1)) (Z.to_nat h) [] buf n_read m) as L.
  change (Z.of_nat (@length Z [])) with 0 in L.
  change (@length Z []) with 0%nat in L.
  rewrite Nat.add_0_l in L. change ([] ++ buf) with buf in L.
  replace (Z.to_nat (h + 1) + Z.to_nat h)%nat with (Z.to_nat n_read) in L by lia.
  replace (2 * Z.to_nat (h + 1))%nat with (Z.to_nat (n_read + 1)) in L by lia.
  rewrite L by lia.
  apply monitor_loop_done. lia.
Qed.

(** When the odd count fills the buffer, that last trip reads outside it. *)
Lemma monitor_loop_odd_full (n_read : Z) (buf : list Z) (m : monitor) :
  Z.odd n_read = true -> n_read = Z.of_nat (length buf) ->
  monitor_loop (Z.to_nat n_read) 0 n_read buf m = Fault.
Proof.
  intros Hodd Hlen.
  apply Z.odd_spec in Hodd. destruct Hodd as [h Hh].
  pose proof (monitor_loop_steps (Z.to_nat h) (S (Z.to_nat h)) [] buf n_read m) as L.
  change (Z.of_nat (@length Z [])) with 0 in L.
  change (@length Z []) with 0%nat in L.
  rewrite Nat.add_0_l in L. change ([] ++ buf) with buf in L.
  replace (Z.to_nat h + S (Z.to_nat h))%nat with (Z.to_nat n_read) in L by lia.
  rewrite L by lia.
  rewrite monitor_loop_step by lia.
  rewrite (load_outside buf (Z.of_nat (2 * Z.to_nat h) + 1)) by lia.
  now destruct (load buf _).
Qed.

(** ** PowerMonitor: one pair *)

Lemma pair_list_ind (P : list Z -> Prop) :
  P [] -> (forall x, P [x]) ->
  (forall x y l, P l -> P (x :: y :: l)) ->
  forall l, P l.
Proof.
  intros H0 H1 H2. fix IH 1.
  intros [|x [|y l]]; [exact H0 | apply H1 | apply H2, IH].
Qed.

Lemma normalize_spec (raw : Z) :
  (normalize raw * normalize raw == Spec.power raw)%Q.
Proof.
  unfold normalize, Spec.power.
  assert (E : (inject_Z (raw - 128) == inject_Z raw - 128)%Q).
  { unfold Z.sub. rewrite inject_Z_plus, inject_Z_opp. reflexivity. }
  rewrite E. reflexivity.
Qed.

Lemma normalize_range (raw : Z) :
  is_byte raw -> (-1 <= normalize raw /\ normalize raw < 1)%Q.
Proof.
  unfold is_byte, normalize. intros H.
  unfold Qle, Qlt, Qdiv, Qmult, Qinv, inject_Z. simpl. lia.
Qed.

Lemma power_nonneg (raw : Z) : (0 <= Spec.power raw)%Q.
Proof.
  unfold Spec.power. cbv zeta.
  set (x := ((inject_Z raw - 128) / 128)%Q). nra.
Qed.

Lemma Qgtb_lt (x y : Q) : Qgtb x y = true <-> (y < x)%Q.
Proof.
  unfold Qgtb. rewrite negb_true_iff.
  split; intros H.
  - apply Qnot_le_lt. intros L. apply Qle_bool_iff in L. congruence.
  - destruct (Qle_bool x y) eqn:E; [|reflexivity].
    apply Qle_bool_iff in E. lra.
Qed.

(** [if (v > peak) peak = v;] leaves the maximum of the two in [peak]. *)
Lemma peak_update_max (peak peak' v v' : Q) :
  (peak == peak')%Q -> (v == v')%Q ->
  ((if Qgtb v peak then v else peak) == Qmax peak' v')%Q.
Proof.
  intros Hp Hv.
  destruct (Qgtb v peak) eqn:E.
  - apply Qgtb_lt in E. rewrite Q.max_r; [exact Hv | lra].
  - assert (L : (v <= peak)%Q).
    { destruct (Qlt_le_dec peak v) as [G|G]; [|exact G].
      apply Qgtb_lt in G. congruence. }
    rewrite Q.max_l; [exact Hp | lra].
Qed.

(** The loop body against one pair of the specification; the counter is
    left to the update after the loop. *)
Lemma accumulate_pair (bi bq : Z) (a b : monitor) :
  (ipeak a == ipeak b)%Q -> (qpeak a == qpeak b)%Q ->
  (iavg a == iavg b)%Q -> (qavg a == qavg b)%Q ->
  let a' := accumulate bi bq a in
  let b' := Spec.pair bi bq b in
  (ipeak a' == ipeak b')%Q /\ (qpeak a' == qpeak b')%Q /\
  (iavg a' == iavg b')%Q /\ (qavg a' == qavg b')%Q /\
  interval a' = interval a /\ interval b' = interval b + 1.
Proof.
  intros Hip Hqp Hia Hqa. simpl.
  split; [apply peak_update_max; [exact Hip | apply normalize_spec]|].
  split; [apply peak_update_max; [exact Hqp | apply normalize_spec]|].
  split; [rewrite Hia, normalize_spec; reflexivity|].
  split; [rewrite Hqa, normalize_spec; reflexivity|].
  split; reflexivity.
Qed.

Lemma accumulate_pairs_spec (samples : list Z) :
  forall a b : monitor,
  (ipeak a == ipeak b)%Q -> (qpeak a == qpeak b)%Q ->
  (iavg a == iavg b)%Q -> (qavg a == qavg b)%Q ->
  let a' := accumulate_pairs samples a in
  let b' := Spec.pairs samples b in
  (ipeak a' == ipeak b')%Q /\ (qpeak a' == qpeak b')%Q /\
  (iavg a' == iavg b')%Q /\ (qavg a' == qavg b')%Q /\
  interval a' = interval a /\
  interval b' = interval b + Z.of_nat (length samples / 2).
Proof.
  induction samples as [|x|bi bq rest IH] using pair_list_ind;
    intros a b Hip Hqp Hia Hqa.
  - simpl. repeat split; try assumption. lia.
  - simpl. repeat split; try assumption. lia.
  - destruct (accumulate_pair bi bq a b Hip Hqp Hia Hqa)
      as (H1 & H2 & H3 & H4 & H5 & H6).
    destruct (IH _ _ H1 H2 H3 H4) as (K1 & K2 & K3 & K4 & K5 & K6).
    cbv zeta. change (accumulate_pairs (bi :: bq :: rest) a)
      with (accumulate_pairs rest (accumulate bi bq a)).
    change (Spec.pairs (bi :: bq :: rest) b)
      with (Spec.pairs rest (Spec.pair bi bq b)).
    cbv zeta in K5, K6, H5, H6.
    repeat split; try assumption; try congruence.
    rewrite K6, H6.
    change (length (bi :: bq :: rest)) with (2 + length rest)%nat.
    replace ((2 + length rest) / 2)%nat with (1 + length rest / 2)%nat.
    + lia.
    + replace (2 + length rest)%nat with (length rest + 1 * 2)%nat by lia.
      rewrite Nat.div_add by lia. lia.
Qed.

Lemma s32_small (x : Z) : - 2 ^ 31 <= x < 2 ^ 31 -> s32 x = x.
Proof. intros H. unfold s32. rewrite Z.mod_small; lia. Qed.

Lemma u32_small (x : Z) : 0 <= x < 2 ^ 32 -> u32 x = x.
Proof. intros H. unfold u32. apply Z.mod_small; lia. Qed.

Lemma u64_small (x : Z) : 0 <= x < 2 ^ 64 -> u64 x = x.
Proof. intros H. unfold u64. apply Z.mod_small; lia. Qed.

Lemma pairs_of_length (n_read : Z) (buf : list Z) :
  0 <= n_read <= Z.of_nat (length buf) ->
  Z.of_nat (length (firstn (Z.to_nat n_read) buf) / 2) = n_read / 2.
Proof.
  intros H. rewrite length_firstn, Nat.min_l by lia.
  rewrite Nat2Z.inj_div. rewrite Z2Nat.id by lia. reflexivity.
Qed.



(** ** PowerMonitor: mean and peak *)

Lemma square_nonneg (x : Q) : (0 <= x * x)%Q.
Proof. nra. Qed.

Lemma channel_step (count peak sum v : Q) :
  (0 <= count)%Q -> (0 <= v)%Q -> channel_ok count peak sum ->
  channel_ok (count + 1) (if Qgtb v peak then v else peak) (sum + v).
Proof.
  unfold channel_ok. intros Hc Hv (Hp & Hs & Hb).
  destruct (Qgtb v peak) eqn:E.
  - apply Qgtb_lt in E. repeat split; nra.
  - assert (L : (v <= peak)%Q).
    { destruct (Qlt_le_dec peak v) as [G|G]; [|exact G].
      apply Qgtb_lt in G. congruence. }
    repeat split; nra.
Qed.

Lemma channel_ok_eq (c c' peak sum : Q) :
  (c == c')%Q -> channel_ok c peak sum -> channel_ok c' peak sum.
Proof. unfold channel_ok. intros E (A & B & C). rewrite <- E. tauto. Qed.

Lemma accumulate_pairs_ok (samples : list Z) :
  forall (m : monitor) (count : Z),
  0 <= count ->
  channel_ok (inject_Z count) (ipeak m) (iavg m) ->
  channel_ok (inject_Z count) (qpeak m) (qavg m) ->
  let a := accumulate_pairs samples m in
  let count' := count + Z.of_nat (length samples / 2) in
  channel_ok (inject_Z count') (ipeak a) (iavg a) /\
  channel_ok (inject_Z count') (qpeak a) (qavg a) /\
  interval a = interval m.
Proof.
  induction samples as [|x|bi bq rest IH] using pair_list_ind;
    intros m count Hc Hi Hq; cbv zeta.
  - simpl. rewrite Z.add_0_r. tauto.
  - simpl. rewrite Z.add_0_r. tauto.
  - change (accumulate_pairs (bi :: bq :: rest) m)
      with (accumulate_pairs rest (accumulate bi bq m)).
    assert (Hc' : (0 <= inject_Z count)%Q)
      by (change 0%Q with (inject_Z 0); rewrite <- Zle_Qle; exact Hc).
    assert (E : (inject_Z count + 1 == inject_Z (count + 1))%Q)
      by (rewrite inject_Z_plus; reflexivity).
    destruct (IH (accumulate bi bq m) (count + 1)) as (A & B & C).
    + lia.
    + apply (channel_ok_eq _ _ _ _ E). simpl.
      apply channel_step; [exact Hc' | apply square_nonneg | exact Hi].
    + apply (channel_ok_eq _ _ _ _ E). simpl.
      apply channel_step; [exact Hc' | apply square_nonneg | exact Hq].
    + change (length (bi :: bq :: rest)) with (2 + length rest)%nat.
      replace (2 + length rest)%nat with (length rest + 1 * 2)%nat by lia.
      rewrite Nat.div_add by lia.
      replace (count + Z.of_nat (length rest / 2 + 1))
        with (count + 1 + Z.of_nat (length rest / 2)) by lia.
      split; [exact A|]. split; [exact B|]. exact C.
Qed.

(** In the reals: a positive mean below the peak gives a ratio of at least
    one, whose logarithm is not negative. *)
Lemma ratio_at_least_one (peak mean : Q) :
  (0 <= mean)%Q -> (mean <= peak)%Q -> ~ (mean == 0)%Q ->
  (1 <= Q2R peak / Q2R mean)%R /\ (0 <= db (Q2R peak / Q2R mean))%R.
Proof.
  intros H0 Hle Hnz.
  assert (Hpos : (0 < mean)%Q).
  { destruct (Qlt_le_dec 0 mean) as [L|G]; [exact L|].
    exfalso. apply Hnz. lra. }
  apply Qlt_Rlt in Hpos. apply Qle_Rle in Hle.
  replace (Q2R 0) with 0%R in Hpos by (unfold Q2R; simpl; lra).
  assert (Hr : (1 <= Q2R peak / Q2R mean)%R).
  { unfold Rdiv. apply (Rmult_le_reg_r (Q2R mean)); [exact Hpos|].
    rewrite Rmult_assoc, Rinv_l, Rmult_1_r by lra. lra. }
  split; [exact Hr|].
  unfold db.
  destruct (Rle_lt_or_eq_dec _ _ Hr) as [L|E].
  - pose proof (ln_increasing 1 (Q2R peak / Q2R mean) ltac:(lra) L) as K.
    rewrite ln_1 in K. lra.
  - rewrite <- E, ln_1. lra.
Qed.

Lemma mean_below_peak (count : Z) (peak sum : Q) :
  0 < count -> channel_ok (inject_Z count) peak sum ->
  (0 <= sum / inject_Z count)%Q /\ (sum / inject_Z count <= peak)%Q.
Proof.
  unfold channel_ok. intros Hc (Hp & Hs & Hb).
  assert (Hc' : (0 < inject_Z count)%Q)
    by (change 0%Q with (inject_Z 0); rewrite <- Zlt_Qlt; exact Hc).
  split.
  - apply Qle_shift_div_l; [exact Hc' | lra].
  - apply Qle_shift_div_r; [exact Hc' | lra].
Qed.

Lemma reports_app (a b : list msg) : reports (a ++ b) = reports a ++ reports b.
Proof.
  induction a as [|x a IH]; simpl; [reflexivity|].
  destruct x; simpl; now rewrite ?IH.
Qed.

Lemma report_threshold_range (samp_rate : Z) :
  0 <= report_threshold samp_rate < 2 ^ 32.
Proof. unfold report_threshold, u32. apply Z.mod_pos_bound. lia. Qed.

Lemma monitor_ok_zero (threshold : Z) :
  0 <= threshold -> monitor_ok threshold (mkMonitor 0 0 0 0 0).
Proof.
  intros H. unfold monitor_ok, channel_ok. simpl.
  repeat split; try lia; try lra.
Qed.

(** One buffer of whole pairs keeps the monitor in order, and a report it
    emits is as C10 says. *)
Lemma power_monitor_ok (samp_rate n_read : Z) (buf : list Z) (m : monitor) :
  Z.even n_read = true -> 0 <= n_read <= Z.of_nat (length buf) ->
  report_threshold samp_rate + n_read / 2 < 2 ^ 31 ->
  monitor_ok (report_threshold samp_rate) m ->
  exists m' out,
    power_monitor samp_rate n_read buf m = Done (m', out) /\
    monitor_ok (report_threshold samp_rate) m' /\
    Forall report_ok (reports out).
Proof.
  intros Heven Hlen Hfit (Hint & Hi & Hq).
  pose proof (report_threshold_range samp_rate) as HT.
  assert (Hdiv : 0 <= n_read / 2) by (apply Z.div_pos; lia).
  unfold power_monitor. rewrite monitor_loop_even by assumption.
  destruct (accumulate_pairs_ok (firstn (Z.to_nat n_read) buf) m (interval m)
              ltac:(lia) Hi Hq) as (A & B & C).
  cbv zeta in A, B, C. rewrite pairs_of_length in A, B by exact Hlen.
  set (a := accumulate_pairs (firstn (Z.to_nat n_read) buf) m) in *.
  unfold monitor_report. rewrite C.
  rewrite s32_small by lia. rewrite u32_small by lia.
  set (count := interval m + n_read / 2) in *.
  destruct (count >? report_threshold samp_rate) eqn:E.
  - rewrite Z.gtb_ltb in E. apply Z.ltb_lt in E.
    eexists. eexists. split; [reflexivity|].
    split; [apply monitor_ok_zero; lia|].
    simpl. constructor; [|constructor].
    destruct (mean_below_peak count (ipeak a) (iavg a) ltac:(lia) A) as (I0 & I1).
    destruct (mean_below_peak count (qpeak a) (qavg a) ltac:(lia) B) as (Q0 & Q1).
    unfold report_ok, printed_ipar, printed_qpar. simpl.
    split; [exact I1|]. split; [exact Q1|].
    split; intros Hnz; apply ratio_at_least_one; assumption.
  - rewrite Z.gtb_ltb in E. apply Z.ltb_ge in E.
    eexists. eexists. split; [reflexivity|].
    split; [|constructor].
    unfold monitor_ok. simpl. split; [lia|]. split; assumption.
Qed.

Lemma capture_ok_signal (samp_rate : Z) (st : state) (b : bool) :
  capture_ok samp_rate st -> capture_ok samp_rate (if b then sighandler st else st).
Proof.
  destruct b; intros H; [|exact H].
  destruct H as (A & B & C & D). unfold capture_ok. simpl.
  rewrite reports_app, app_nil_r. tauto.
Qed.

Lemma capture_ok_log (samp_rate : Z) (st : state) (l : list msg) :
  reports l = [] -> capture_ok samp_rate st -> capture_ok samp_rate (log l st).
Proof.
  intros Hl (A & B & C & D). unfold capture_ok. simpl.
  rewrite reports_app, Hl, app_nil_r. tauto.
Qed.

Lemma sync_body_ok (obs samp_rate : Z) (ev : sync_read) (st : state) :
  report_threshold samp_rate + obs < 2 ^ 31 ->
  whole_pairs obs ev -> capture_ok samp_rate st ->
  capture_ok samp_rate (snd (sync_body obs samp_rate ev st)).
Proof.
  intros Hfit (Heven & Hblock) Hok.
  unfold sync_body.
  apply (capture_ok_signal _ _ (rd_signal ev)) in Hok.
  set (st0 := if rd_signal ev then sighandler st else st) in *.
  destruct (rd_r ev <? 0); [simpl; now apply capture_ok_log|].
  set (len := Z.of_nat (length (rd_data ev))) in *.
  set (buffer0 := rd_data ev ++ skipn (length (rd_data ev)) (buffer st0)).
  unfold sync_count. fold len.
  set (trunc := over_budget len st0).
  set (n_read := if trunc then s32 (bytes_to_read st0) else len).
  destruct Hok as (Hmon & Hbe & Hbr & Hrep).
  assert (Hlen0 : 0 <= len) by (unfold len; lia).
  pose proof (report_threshold_range samp_rate) as HT.
  assert (Hu : u32 len = len) by (apply u32_small; lia).
  assert (Hn : Z.even n_read = true /\ 0 <= n_read <= len /\
               (trunc = false -> bytes_to_read st0 > 0 -> n_read <= bytes_to_read st0)).
  { unfold n_read. destruct trunc eqn:Et.
    - unfold trunc, over_budget in Et. apply andb_true_iff in Et. destruct Et as [E1 E2].
      rewrite Z.gtb_ltb in E1. apply Z.ltb_lt in E1. apply Z.ltb_lt in E2.
      rewrite Hu in E2.
      rewrite s32_small by lia.
      split; [exact Hbe|]. split; [lia | discriminate].
    - split; [exact Heven|]. split; [lia|].
      intros _ Hpos. unfold trunc, over_budget in Et. apply andb_false_iff in Et.
      destruct Et as [E|E].
      + rewrite Z.gtb_ltb in E. apply Z.ltb_ge in E. lia.
      + apply Z.ltb_ge in E. rewrite Hu in E. exact E. }
  destruct Hn as (Hne & Hnr & Hnb).
  assert (Hbuf : 0 <= n_read <= Z.of_nat (length buffer0)).
  { unfold buffer0. rewrite length_app. fold len. lia. }
  assert (Hfit' : report_threshold samp_rate + n_read / 2 < 2 ^ 31).
  { assert (n_read / 2 <= n_read) by (Z.to_euclidean_division_equations; lia). lia. }
  destruct (power_monitor_ok samp_rate n_read buffer0 (mon st0) Hne Hbuf Hfit' Hmon)
    as (m' & out & Hrun & Hm' & Hout).
  rewrite Hrun.
  destruct (convert n_read buffer0) as [buffer1| |];
    [|simpl; unfold capture_ok; tauto|simpl; unfold capture_ok; tauto].
  destruct (fwrite _ _) as [written file'].
  assert (Hrep' : Forall report_ok (reports (stderr st0 ++ out)))
    by (rewrite reports_app; apply Forall_app; now split).
  destruct (negb (written =? n_read)).
  { simpl. unfold capture_ok. simpl.
    rewrite reports_app, app_nil_r. tauto. }
  destruct (u32 n_read <? obs).
  { simpl. unfold capture_ok. simpl.
    rewrite reports_app, app_nil_r. tauto. }
  simpl. unfold capture_ok. simpl.
  split; [exact Hm'|].
  destruct (bytes_to_read st0 >? 0) eqn:Eb.
  - rewrite Z.gtb_ltb in Eb. apply Z.ltb_lt in Eb.
    destruct trunc eqn:Et.
    + (* the truncated count equals the budget *)
      unfold trunc, over_budget in Et. apply andb_true_iff in Et. destruct Et as [_ E2].
      apply Z.ltb_lt in E2. rewrite Hu in E2.
      assert (Hs : n_read = bytes_to_read st0).
      { unfold n_read. apply s32_small. lia. }
      rewrite Hs, Z.sub_diag. split; [reflexivity|].
      split; [unfold u64; rewrite Z.mod_0_l by lia; lia | exact Hrep'].
    + specialize (Hnb eq_refl ltac:(lia)).
      rewrite u64_small by lia.
      split; [|split; [lia | exact Hrep']].
      rewrite Z.even_sub, Hbe, Hne. reflexivity.
  - split; [exact Hbe|]. split; [exact Hbr | exact Hrep'].
Qed.

Lemma sync_loop_ok (obs samp_rate : Z) (reads : list sync_read) :
  report_threshold samp_rate + obs < 2 ^ 31 ->
  Forall (whole_pairs obs) reads ->
  forall st, capture_ok samp_rate st ->
  capture_ok samp_rate (snd (sync_loop obs samp_rate reads st)).
Proof.
  intros Hfit Hreads.
  induction Hreads as [|ev reads Hev Hreads IH]; intros st Hok; simpl.
  - destruct (do_exit st); exact Hok.
  - destruct (do_exit st); [exact Hok|].
    pose proof (sync_body_ok obs samp_rate ev st Hfit Hev Hok) as H1.
    destruct (sync_body obs samp_rate ev st) as [[why|] st1]; [exact H1|].
    apply IH. exact H1.
Qed.

(** Mean and peak over reads of whole pairs: in a synchronous capture started
    with fresh accumulators and an even byte budget, in which every read
    leaves a whole number of pairs, every report emitted has, in each
    channel, mean = sum / counter at most the peak (in exact arithmetic);
    hence, whenever the mean is not zero, peak / mean >= 1 and the printed
    peak-to-average ratio is not negative.  The counter stays within [int]:
    threshold plus block size is below 2^31. *)
Lemma whole_pairs_mean_at_most_peak
  (out_block_size samp_rate : Z) (reads : list sync_read) (st : state)
  (Hfit : report_threshold samp_rate + out_block_size < 2 ^ 31)
  (Hreads : Forall (whole_pairs out_block_size) reads)
  (Hfresh : mon st = monitor_init /\ reports (stderr st) = [])
  (Hbudget : Z.even (bytes_to_read st) = true /\ 0 <= bytes_to_read st < 2 ^ 64) :
  forall r,
    In r (reports (stderr (snd (sync_loop out_block_size samp_rate reads st)))) ->
    report_ok r.
Proof.
  destruct Hfresh as [Hmon Hlog]. destruct Hbudget as [Heven Hrange].
  assert (Hok : capture_ok samp_rate st).
  { unfold capture_ok. rewrite Hmon, Hlog.
    split; [apply monitor_ok_zero; apply report_threshold_range|].
    split; [exact Heven|]. split; [exact Hrange | constructor]. }
  pose proof (sync_loop_ok out_block_size samp_rate reads Hfit Hreads st Hok)
    as (_ & _ & _ & Hall).
  intros r Hr. rewrite Forall_forall in Hall. exact (Hall r Hr).
Qed.

Lemma whole_pairs_mean_at_most_peak_example :
  let st := mkState false 0 (repeat 0 512%nat) monitor_init (mkFILE [] []) [] 0 in
  let reads := [mkRead 0 [255; 0; 192; 128; 64; 128; 128; 128] false] in
  exists r,
    reports (stderr (snd (sync_loop 512 1 reads st))) = [r] /\ report_ok r.
Proof.
  intros st reads.
  assert (Hfit : report_threshold 1 + 512 < 2 ^ 31) by reflexivity.
  assert (Hreads : Forall (whole_pairs 512) reads).
  { constructor; [|constructor]. split; [reflexivity | simpl; lia]. }
  assert (Hfresh : mon st = monitor_init /\ reports (stderr st) = [])
    by (split; reflexivity).
  assert (Hbudget : Z.even (bytes_to_read st) = true /\ 0 <= bytes_to_read st < 2 ^ 64)
    by (split; [reflexivity | simpl; lia]).
  pose proof (whole_pairs_mean_at_most_peak 512 1 reads st Hfit Hreads Hfresh Hbudget) as H.
  assert (E : exists r, reports (stderr (snd (sync_loop 512 1 reads st))) = [r])
    by (vm_compute; eexists; reflexivity).
  destruct E as [r E]. exists r. split; [exact E|].
  apply H. rewrite E. left. reflexivity.
Qed.

(** C10 fails on the code when a read leaves an odd count: the loop over
    pairs adds one more square to each sum than the counter counts.  Seven
    full-scale bytes (raw 0) are read short into a block of 512 whose other
    bytes are 0, at a window of 2 pairs: four squares of 1 are summed in each
    channel, the counter is 3, so the report has mean 4/3 above the peak 1,
    the ratio peak / mean is 3/4 and the printed peak-to-average figure is
    negative. *)
Theorem C10_odd_count_mean_above_peak :
  let st := mkState false 0 (repeat 0 512%nat) monitor_init (mkFILE [] []) [] 0 in
  exists st' r,
    sync_body 512 1 (mkRead 0 [0; 0; 0; 0; 0; 0; 0] false) st = (Some ShortRead, st') /\
    reports (stderr st') = [r] /\
    (rep_ipeak r == 1)%Q /\ (rep_iavg r == 4 # 3)%Q /\
    (rep_qpeak r == 1)%Q /\ (rep_qavg r == 4 # 3)%Q /\
    ~ (rep_iavg r <= rep_ipeak r)%Q /\
    (Q2R (rep_ipeak r) / Q2R (rep_iavg r) < 1)%R /\
    (printed_ipar r < 0)%R /\
    ~ report_ok r.
Proof.
  intros st.
  eexists. eexists. split; [vm_compute; reflexivity|].
  split; [reflexivity|].
  split; [reflexivity|]. split; [reflexivity|].
  split; [reflexivity|]. split; [reflexivity|].
  match goal with
  | |- context [rep_iavg ?r] => set (rep := r)
  end.
  assert (Hp : Q2R (rep_ipeak rep) = 1%R).
  { rewrite (Qeq_eqR (rep_ipeak rep) 1) by reflexivity.
    unfold Q2R. simpl. lra. }
  assert (Ha : Q2R (rep_iavg rep) = (4 / 3)%R).
  { rewrite (Qeq_eqR (rep_iavg rep) (4 # 3)) by reflexivity.
    unfold Q2R. simpl. lra. }
  assert (Hnle : ~ (rep_iavg rep <= rep_ipeak rep)%Q).
  { intros H. apply Qle_Rle in H. rewrite Hp, Ha in H. lra. }
  split; [exact Hnle|].
  unfold printed_ipar. rewrite Hp, Ha.
  replace (1 / (4 / 3))%R with (3 / 4)%R by lra.
  split; [lra|].
  split.
  - unfold db.
    pose proof (ln_increasing (3 / 4) 1 ltac:(lra) ltac:(lra)) as L.
    rewrite ln_1 in L. lra.
  - intros (H & _). exact (Hnle H).
Qed.

(** ** The report line *)

Lemma ln_10_gt_1 : (1 < ln 10)%R.
Proof.
  rewrite <- (ln_exp 1) at 1.
  apply ln_increasing; [apply exp_pos|].
  pose proof exp_le_3. lra.
Qed.

(** Below full scale the natural logarithm is further from zero than the
    decimal one. *)
Lemma db_below_decibel (x : R) : (0 < x < 1)%R -> (db x < Spec.decibel x)%R.
Proof.
  intros [H0 H1]. unfold db, Spec.decibel, Spec.log10.
  pose proof (ln_increasing x 1 H0 H1) as L. rewrite ln_1 in L.
  pose proof ln_10_gt_1 as T.
  assert (I : (0 < / ln 10 < 1)%R).
  { split; [apply Rinv_0_lt_compat; lra|].
    assert (K : (/ ln 10 < / 1)%R) by (apply Rinv_lt_contravar; lra).
    rewrite Rinv_1 in K. exact K. }
  unfold Rdiv. nra.
Qed.

(** C2 fails on the code: [db] is ten times the natural logarithm.  A
    half-scale tone on channel 0 (raw bytes 192), whose peak is 1/4 of full
    scale, is reported as 10 * ln (1/4), about -13.9, which is strictly below
    the level 10 * log10 (1/4), about -6.0 dBFS, that the claim describes. *)
Theorem C2_report_uses_natural_log :
  exists m r,
    power_monitor 1 6 [192; 128; 192; 128; 192; 128] monitor_init
    = Done (m, [MsgPeak r]) /\
    Q2R (rep_ipeak r) = (1 / 4)%R /\
    printed_ipeak r = (10 * ln (1 / 4))%R /\
    (printed_ipeak r < Spec.decibel (1 / 4))%R /\
    printed_ipeak r <> Spec.decibel (Q2R (rep_ipeak r)).
Proof.
  eexists. eexists. split; [vm_compute; reflexivity|].
  assert (L : (db (1 / 4) < Spec.decibel (1 / 4))%R) by (apply db_below_decibel; lra).
  unfold printed_ipeak. simpl rep_ipeak.
  assert (E' : Q2R (4096 # 16384) = (1 / 4)%R) by (unfold Q2R; simpl; lra).
  rewrite E'.
  split; [reflexivity|]. split; [reflexivity|]. split; [exact L|]. lra.
Qed.

(** ** Short writes *)

Lemma sync_count_range (ev : sync_read) (st : state) :
  Z.of_nat (length (rd_data ev)) < 2 ^ 31 ->
  0 <= sync_count ev st <= Z.of_nat (length (rd_data ev)).
Proof.
  intros H. unfold sync_count, over_budget.
  destruct ((bytes_to_read st >? 0) && _) eqn:E; [|lia].
  apply andb_true_iff in E. destruct E as [E1 E2].
  rewrite Z.gtb_ltb in E1. apply Z.ltb_lt in E1. apply Z.ltb_lt in E2.
  rewrite u32_small in E2 by lia. rewrite s32_small; lia.
Qed.

(** The monitor returns whenever its loop stays inside the buffer. *)
Lemma power_monitor_returns (samp_rate n_read : Z) (buf : list Z) (m : monitor) :
  0 <= n_read <= Z.of_nat (length buf) ->
  Z.even n_read = true \/ n_read < Z.of_nat (length buf) ->
  exists m' out, power_monitor samp_rate n_read buf m = Done (m', out).
Proof.
  intros Hlen Hin. unfold power_monitor.
  destruct (Z.even n_read) eqn:E.
  - rewrite monitor_loop_even by assumption.
    destruct (monitor_report _ _ _) as [m' out]. now exists m', out.
  - destruct Hin as [Hin|Hin]; [discriminate|].
    rewrite monitor_loop_odd; [| rewrite <- Z.negb_even, E; reflexivity | lia].
    destruct (monitor_report _ _ _) as [m' out]. now exists m', out.
Qed.

(** A short write in the synchronous loop: one message, then [break]; the
    reads that the device would still serve are not consumed and nothing
    more reaches the stream. *)
Lemma sync_short_write (obs samp_rate : Z) (ev : sync_read) (st : state)
  (k : nat) (script : list nat) :
  do_exit st = false ->
  0 <= rd_r ev ->
  Z.of_nat (length (rd_data ev)) < 2 ^ 31 ->
  Z.even (sync_count ev st) = true \/ sync_count ev st < Z.of_nat (length (buffer st)) ->
  f_accept (file st) = k :: script ->
  Z.of_nat k < sync_count ev st ->
  exists st' log0,
    (forall reads, sync_loop obs samp_rate (ev :: reads) st = (Some ShortWrite, st')) /\
    stderr st' = log0 ++ [MsgShortWrite] /\
    f_accept (file st') = script /\
    length (f_data (file st')) = (length (f_data (file st)) + k)%nat.
Proof.
  intros Hrun Hr Hint Hin Hscript Hshort.
  pose proof (sync_count_range ev st Hint) as Hn.
  assert (Hbody : exists st' log0,
             sync_body obs samp_rate ev st = (Some ShortWrite, st') /\
             stderr st' = log0 ++ [MsgShortWrite] /\
             f_accept (file st') = script /\
             length (f_data (file st')) = (length (f_data (file st)) + k)%nat).
  { unfold sync_body.
    set (st0 := if rd_signal ev then sighandler st else st).
    assert (E0 : sync_count ev st0 = sync_count ev st /\ file st0 = file st /\
                 buffer st0 = buffer st)
      by (unfold st0; destruct (rd_signal ev); repeat split; reflexivity).
    destruct E0 as (Ec & Ef & Eb). rewrite Ec, Ef, Eb.
    destruct (rd_r ev <? 0) eqn:E; [apply Z.ltb_lt in E; lia|].
    set (buffer0 := rd_data ev ++ skipn (length (rd_data ev)) (buffer st)).
    assert (Hb0 : Z.of_nat (length buffer0)
                  = Z.max (Z.of_nat (length (rd_data ev))) (Z.of_nat (length (buffer st)))).
    { unfold buffer0. rewrite length_app, length_skipn. lia. }
    destruct (power_monitor_returns samp_rate (sync_count ev st) buffer0 (mon st0))
      as (m' & out & Hm); [lia | destruct Hin; [now left | right; lia] |].
    rewrite Hm. rewrite convert_map by lia.
    unfold fwrite. rewrite Hscript.
    set (data := firstn (Z.to_nat (sync_count ev st)) _).
    assert (Hd : length data = Z.to_nat (sync_count ev st)).
    { unfold data. rewrite length_firstn, length_app, length_map,
        length_firstn, length_skipn. lia. }
    rewrite Hd, Nat.min_l by lia.
    destruct (Z.of_nat k =? sync_count ev st) eqn:Ek; [apply Z.eqb_eq in Ek; lia|].
    simpl negb. cbv iota.
    eexists. eexists. split; [reflexivity|]. simpl.
    split; [reflexivity|]. split; [reflexivity|].
    rewrite length_app, length_firstn. lia. }
  destruct Hbody as (st' & log0 & Hb & Hlog & Hacc & Hlen).
  exists st', log0. split; [|tauto].
  intros reads. simpl. now rewrite Hrun, Hb.
Qed.

Lemma callback_len_range (buf : list Z) (st : state) :
  Z.of_nat (length buf) < 2 ^ 32 ->
  0 <= callback_len buf st <= Z.of_nat (length buf).
Proof.
  intros H. unfold callback_len, over_budget.
  rewrite (u32_small (Z.of_nat (length buf))) by lia.
  rewrite (u32_small (Z.of_nat (length buf))) by lia.
  destruct ((bytes_to_read st >? 0) && _) eqn:E; [|lia].
  apply andb_true_iff in E. destruct E as [E1 E2].
  rewrite Z.gtb_ltb in E1. apply Z.ltb_lt in E1. apply Z.ltb_lt in E2.
  rewrite u32_small; lia.
Qed.

(** A short write in the callback: one message and a request to the
    library to stop the capture.  The flag [do_exit] is not touched by it:
    it is set by the budget test alone. *)
Lemma callback_short_write (buf : list Z) (st : state) (k : nat) (script : list nat) :
  do_exit st = false ->
  Z.of_nat (length buf) < 2 ^ 32 ->
  f_accept (file st) = k :: script ->
  Z.of_nat k < callback_len buf st ->
  exists st',
    rtlsdr_callback buf st = Done st' /\
    (cancels st < cancels st')%nat /\
    stderr st' = stderr st ++ [MsgShortWrite] /\
    f_accept (file st') = script /\
    length (f_data (file st')) = (length (f_data (file st)) + k)%nat /\
    do_exit st' = over_budget (u32 (Z.of_nat (length buf))) st /\
    f_data (file st')
    = f_data (file st)
      ++ firstn k (map convert_byte (firstn (Z.to_nat (callback_len buf st)) buf)).
Proof.
  intros Hrun Hint Hscript Hshort.
  pose proof (callback_len_range buf st Hint) as Hn.
  unfold rtlsdr_callback. rewrite Hrun.
  rewrite convert_map by lia.
  set (st0 := if over_budget _ st then rtlsdr_cancel_async (set_do_exit st) else st).
  assert (E0 : file st0 = file st /\ stderr st0 = stderr st /\
               (cancels st <= cancels st0)%nat /\
               do_exit st0 = over_budget (u32 (Z.of_nat (length buf))) st).
  { unfold st0. destruct (over_budget _ st); simpl; repeat split; try lia.
    exact Hrun. }
  destruct E0 as (Ef & Ee & Ec & Ex). rewrite Ef.
  unfold fwrite. rewrite Hscript.
  assert (Hdata : firstn (Z.to_nat (callback_len buf st))
                    (map convert_byte (firstn (Z.to_nat (callback_len buf st)) buf)
                     ++ skipn (Z.to_nat (callback_len buf st)) buf)
                  = map convert_byte (firstn (Z.to_nat (callback_len buf st)) buf)).
  { rewrite firstn_app, length_map, length_firstn.
    replace (Z.to_nat (callback_len buf st)
             - Nat.min (Z.to_nat (callback_len buf st)) (length buf))%nat
      with 0%nat by lia.
    rewrite firstn_O, app_nil_r. apply firstn_all2.
    rewrite length_map, length_firstn. lia. }
  set (data := firstn (Z.to_nat (callback_len buf st)) _) in *.
  assert (Hd : length data = Z.to_nat (callback_len buf st)).
  { unfold data. rewrite length_firstn, length_app, length_map,
      length_firstn, length_skipn. lia. }
  rewrite Hd, Nat.min_l by lia.
  destruct (Z.of_nat k =? callback_len buf st) eqn:Ek; [apply Z.eqb_eq in Ek; lia|].
  simpl negb. cbv iota.
  eexists. split; [reflexivity|]. simpl.
  split; [lia|]. split; [now rewrite Ee|]. split; [reflexivity|].
  split; [rewrite length_app, length_firstn; lia|].
  split; [exact Ex|]. now rewrite Hdata.
Qed.

(** X20: what a short write does at each of the three places that write.
    Header: [wave_header] either completes all six writes, or stops with
    [exit(1)] right after the first incomplete one, having made no further
    call, and then [main] terminates with that exit.  Samples, synchronous
    loop: an incomplete write ends the loop at once with the short-write
    message; later reads are not consumed and no byte follows.  Samples,
    callback: an incomplete write logs the message and asks the library to
    cancel the capture, the bytes that were taken are in the file, and
    [do_exit] is set only if the budget test set it. *)
Theorem short_write_handling :
  (forall now samp_rate freq bits f f' r,
     wave_header now samp_rate freq bits f = (f', r) ->
     let header := concat (header_images now samp_rate freq bits) in
     length header = 104%nat /\
     exists calls : nat,
       (calls <= 6)%nat /\
       f_accept f' = skipn calls (f_accept f) /\
       ((r = inl tt /\ calls = 6%nat /\ f_data f' = f_data f ++ header) \/
        (r = inr 1 /\ exists n, (n < 104)%nat /\
                                f_data f' = f_data f ++ firstn n header))) /\
  (forall o w f',
     wave_header (w_now w) (opt_samp_rate o) (opt_frequency o) 8 (w_file w) = (f', inr 1) ->
     main o w = Exit 1 f') /\
  (forall obs samp_rate ev st k script,
     do_exit st = false ->
     0 <= rd_r ev ->
     Z.of_nat (length (rd_data ev)) < 2 ^ 31 ->
     Z.even (sync_count ev st) = true \/ sync_count ev st < Z.of_nat (length (buffer st)) ->
     f_accept (file st) = k :: script ->
     Z.of_nat k < sync_count ev st ->
     exists st' log0,
       (forall reads, sync_loop obs samp_rate (ev :: reads) st = (Some ShortWrite, st')) /\
       stderr st' = log0 ++ [MsgShortWrite] /\
       f_accept (file st') = script /\
       length (f_data (file st')) = (length (f_data (file st)) + k)%nat) /\
  (forall buf st k script,
     do_exit st = false ->
     Z.of_nat (length buf) < 2 ^ 32 ->
     f_accept (file st) = k :: script ->
     Z.of_nat k < callback_len buf st ->
     exists st',
       rtlsdr_callback buf st = Done st' /\
       (cancels st < cancels st')%nat /\
       stderr st' = stderr st ++ [MsgShortWrite] /\
       f_accept (file st') = script /\
       length (f_data (file st')) = (length (f_data (file st)) + k)%nat /\
       do_exit st' = over_budget (u32 (Z.of_nat (length buf))) st /\
       f_data (file st')
       = f_data (file st)
         ++ firstn k (map convert_byte (firstn (Z.to_nat (callback_len buf st)) buf))).
Proof.
  split; [|split; [|split]].
  - intros now samp_rate freq bits f f' r Hrun header.
    assert (Hlen : length header = 104%nat) by reflexivity.
    split; [exact Hlen|].
    pose proof (write_seq_cases (header_images now samp_rate freq bits) f) as W.
    rewrite <- wave_header_as_seq, Hrun in W.
    destruct W as (calls & Hc & Ha & Hres).
    exists calls. split; [exact Hc|]. split; [exact Ha|].
    fold header in Hres. rewrite Hlen in Hres. exact Hres.
  - intros o w f' Hrun. unfold main.
    destruct (check_block_size (opt_out_block_size o)) as [obs warn].
    now rewrite Hrun.
  - intros. now apply sync_short_write.
  - intros. now apply callback_short_write.
Qed.

Lemma short_write_handling_witness :
  (* the third record of the header is cut after 10 of its 16 bytes *)
  (let o := mkOptions 2048000 100000000 512 0 true in
   let f := mkFILE [] [12; 8; 10; 100]%nat in
   let w := mkWorld (mkTm 30 15 12 30 9 126) (fun _ => 0) f [] [] in
   exists f', main o w = Exit 1 f' /\ length (f_data f') = 30%nat
              /\ f_accept f' = [100%nat]) /\
  (* the first block of samples is cut after 100 of its 512 bytes *)
  (let st := mkState false 0 (repeat 0 512%nat) monitor_init
                     (mkFILE [] [100; 512]%nat) [] 0 in
   let ev := mkRead 0 (repeat 128 512%nat) false in
   exists st',
     (forall reads, sync_loop 512 2048000 (ev :: reads) st = (Some ShortWrite, st')) /\
     length (f_data (file st')) = 100%nat /\ f_accept (file st') = [512%nat]) /\
  (* the same in the callback *)
  (let st := mkState false 0 [] monitor_init (mkFILE [] [100; 512]%nat) [] 0 in
   exists st',
     rtlsdr_callback (repeat 128 512%nat) st = Done st' /\
     cancels st' = 1%nat /\ do_exit st' = false /\
     f_data (file st') = repeat 0 100%nat).
Proof.
  destruct short_write_handling as (Hheader & Hmain & Hsync & Hcallback).
  split; [|split].
  - intros o f w.
    destruct (wave_header (w_now w) (opt_samp_rate o) (opt_frequency o) 8 (w_file w))
      as [f' r] eqn:E.
    assert (Er : r = inr 1) by (vm_compute in E; congruence).
    subst r. exists f'. split; [exact (Hmain o w f' E)|].
    vm_compute in E. inversion E. split; reflexivity.
  - intros st ev.
    assert (H1 : do_exit st = false) by reflexivity.
    assert (H2 : 0 <= rd_r ev) by (simpl; lia).
    assert (H3 : Z.of_nat (length (rd_data ev)) < 2 ^ 31) by reflexivity.
    assert (H4 : Z.even (sync_count ev st) = true \/
                 sync_count ev st < Z.of_nat (length (buffer st)))
      by (left; reflexivity).
    assert (H5 : f_accept (file st) = [100; 512]%nat) by reflexivity.
    assert (H6 : Z.of_nat 100 < sync_count ev st) by reflexivity.
    destruct (Hsync 512 2048000 ev st 100%nat [512%nat] H1 H2 H3 H4 H5 H6)
      as (st' & log0 & Hloop & _ & Hacc & Hlen).
    exists st'. split; [exact Hloop|]. split; [exact Hlen | exact Hacc].
  - intros st.
    assert (H1 : do_exit st = false) by reflexivity.
    assert (H2 : Z.of_nat (length (repeat 128 512%nat)) < 2 ^ 32) by reflexivity.
    assert (H3 : f_accept (file st) = [100; 512]%nat) by reflexivity.
    assert (H4 : Z.of_nat 100 < callback_len (repeat 128 512%nat) st) by reflexivity.
    destruct (Hcallback (repeat 128 512%nat) st 100%nat [512%nat] H1 H2 H3 H4)
      as (st' & Hrun & _ & _ & _ & _ & Hexit & Hdata).
    exists st'. split; [exact Hrun|].
    assert (Hc : cancels st' = 1%nat)
      by (vm_compute in Hrun; inversion Hrun; reflexivity).
    split; [exact Hc|]. split; [rewrite Hexit; reflexivity|].
    rewrite Hdata. vm_compute. reflexivity.
Defined.

(** ** The byte budget *)

(** A block that uses the budget up exactly, or arrives when the budget is
    already 0, is written whole; the budget is 0 afterwards and the loop
    goes on. *)
Lemma sync_body_budget_block (obs samp_rate : Z) (ev : sync_read) (st : state) :
  Z.even obs = true -> 0 < obs < 2 ^ 31 ->
  full_block obs ev ->
  do_exit st = false -> f_accept (file st) = [] ->
  bytes_to_read st = obs \/ bytes_to_read st = 0 ->
  exists st',
    sync_body obs samp_rate ev st = (None, st') /\
    bytes_to_read st' = 0 /\ do_exit st' = false /\ f_accept (file st') = [] /\
    length (f_data (file st')) = (length (f_data (file st)) + Z.to_nat obs)%nat.
Proof.
  intros Heven Hobs (Hr & Hsig & Hlen) Hrun Hscript Hbudget.
  unfold sync_body. rewrite Hsig.
  destruct (rd_r ev <? 0) eqn:E; [apply Z.ltb_lt in E; lia|].
  assert (Hover : over_budget (Z.of_nat (length (rd_data ev))) st = false).
  { unfold over_budget. rewrite Hlen, u32_small by lia.
    destruct Hbudget as [Hb|Hb]; rewrite Hb.
    - rewrite Z.ltb_irrefl. apply andb_false_r.
    - reflexivity. }
  assert (Hcount : sync_count ev st = obs)
    by (unfold sync_count; rewrite Hover; exact Hlen).
  rewrite Hcount, Hover, Hrun.
  set (buffer0 := rd_data ev ++ skipn (length (rd_data ev)) (buffer st)).
  assert (Hb0 : obs <= Z.of_nat (length buffer0))
    by (unfold buffer0; rewrite length_app; lia).
  destruct (power_monitor_returns samp_rate obs buffer0 (mon st))
    as (m' & out & Hm); [lia | now left |].
  rewrite Hm, convert_map by lia.
  unfold fwrite. rewrite Hscript.
  set (data := firstn (Z.to_nat obs) _).
  assert (Hd : length data = Z.to_nat obs).
  { unfold data. rewrite length_firstn, length_app, length_map,
      length_firstn, length_skipn. lia. }
  rewrite Hd, Z2Nat.id, Z.eqb_refl by lia. simpl negb. cbv iota.
  rewrite u32_small by lia.
  destruct (obs <? obs) eqn:El; [apply Z.ltb_lt in El; lia|].
  eexists. split; [reflexivity|]. simpl.
  split.
  - destruct Hbudget as [Hb|Hb]; rewrite Hb.
    + destruct (obs >? 0) eqn:Eg.
      * rewrite Z.sub_diag. reflexivity.
      * rewrite Z.gtb_ltb in Eg. apply Z.ltb_ge in Eg. lia.
    + reflexivity.
  - split; [reflexivity|]. split; [reflexivity|].
    rewrite length_app, Hd. lia.
Qed.

(** Hence a budget of one block never ends the capture: however many full
    blocks the device serves, all of them are written. *)
Lemma sync_loop_budget_block (obs samp_rate : Z) (reads : list sync_read) :
  Z.even obs = true -> 0 < obs < 2 ^ 31 ->
  Forall (full_block obs) reads ->
  forall st,
  do_exit st = false -> f_accept (file st) = [] ->
  bytes_to_read st = obs \/ bytes_to_read st = 0 ->
  exists st',
    sync_loop obs samp_rate reads st = (None, st') /\
    do_exit st' = false /\
    length (f_data (file st'))
    = (length (f_data (file st)) + length reads * Z.to_nat obs)%nat.
Proof.
  intros Heven Hobs Hreads.
  induction Hreads as [|ev reads Hev Hreads IH]; intros st Hrun Hscript Hbudget.
  - exists st. simpl. split; [now rewrite Hrun|]. split; [exact Hrun | lia].
  - destruct (sync_body_budget_block obs samp_rate ev st Heven Hobs Hev Hrun Hscript Hbudget)
      as (st1 & Hbody & Hb1 & Hrun1 & Hscript1 & Hlen1).
    destruct (IH st1 Hrun1 Hscript1 (or_intror Hb1)) as (st' & Hloop & Hrun' & Hlen').
    exists st'. simpl. rewrite Hrun, Hbody.
    split; [exact Hloop|]. split; [exact Hrun'|].
    rewrite Hlen', Hlen1. lia.
Qed.

(** C1 fails on the code when the budget is a whole number of blocks: with
    [-n 256] (512 bytes) and blocks of 512 bytes, the first block uses the
    budget up exactly, [bytes_to_read] becomes 0, which the tests read as
    "no limit", and the capture goes on: after three blocks 1536 bytes have
    reached the stream, in the synchronous loop as in the callback, and
    neither has stopped.  With a budget of 510 bytes, which ends inside a
    block, both paths write 510 bytes and stop. *)
Theorem C1_budget_of_whole_blocks_overrun :
  let block := repeat 128 512%nat in
  let start budget :=
    mkState false budget (repeat 0 512%nat) monitor_init (mkFILE [] []) [] 0 in
  let reads := [mkRead 0 block false; mkRead 0 block false; mkRead 0 block false] in
  let events := [Deliver block; Deliver block; Deliver block] in
  (exists st,
     sync_loop 512 DEFAULT_SAMPLE_RATE reads (start 512) = (None, st) /\
     length (f_data (file st)) = 1536%nat /\
     bytes_to_read st = 0 /\ do_exit st = false) /\
  (exists st,
     read_async events (start 512) = Done st /\
     length (f_data (file st)) = 1536%nat /\
     bytes_to_read st = 0 /\ do_exit st = false /\ cancels st = 0%nat) /\
  (exists st,
     sync_loop 512 DEFAULT_SAMPLE_RATE reads (start 510) = (Some ShortRead, st) /\
     length (f_data (file st)) = 510%nat /\ do_exit st = true) /\
  (exists st,
     read_async events (start 510) = Done st /\
     length (f_data (file st)) = 510%nat /\
     bytes_to_read st = 0 /\ do_exit st = true /\ cancels st = 1%nat).
Proof.
  intros block start reads events.
  split; [|split; [|split]].
  - eexists. split; [vm_compute; reflexivity|].
    split; [reflexivity|]. split; reflexivity.
  - eexists. split; [vm_compute; reflexivity|].
    split; [reflexivity|]. repeat split; reflexivity.
  - eexists. split; [vm_compute; reflexivity|].
    split; reflexivity.
  - eexists. split; [vm_compute; reflexivity|].
    split; [reflexivity|]. repeat split; reflexivity.
Qed.

(** ** The two capture paths *)

Lemma rtlsdr_callback_no_monitor (buf : list Z) (st st' : state) :
  rtlsdr_callback buf st = Done st' ->
  mon st' = mon st /\ reports (stderr st') = reports (stderr st).
Proof.
  unfold rtlsdr_callback.
  destruct (do_exit st); [intros H; inversion H; now split|].
  set (st0 := if over_budget _ st then rtlsdr_cancel_async (set_do_exit st) else st).
  assert (E0 : mon st0 = mon st /\ stderr st0 = stderr st)
    by (unfold st0; destruct (over_budget _ st); split; reflexivity).
  destruct E0 as [Em Ee].
  destruct (convert _ _) as [b| |]; try discriminate.
  destruct (fwrite _ _) as [n f'].
  intros H. inversion H. simpl.
  destruct (negb _); simpl; rewrite ?reports_app, ?app_nil_r, Em, Ee; now split.
Qed.

Lemma read_async_no_monitor (events : list async_event) (st st' : state) :
  read_async events st = Done st' ->
  mon st' = mon st /\ reports (stderr st') = reports (stderr st).
Proof.
  revert st. induction events as [|[buf|] events IH]; intros st H; simpl in H.
  - inversion H. now split.
  - destruct (rtlsdr_callback buf st) as [st1| |] eqn:E; try discriminate.
    apply rtlsdr_callback_no_monitor in E. apply IH in H.
    destruct E as [E1 E2], H as [H1 H2]. split; congruence.
  - apply IH in H. simpl in H. rewrite reports_app, app_nil_r in H. exact H.
Qed.

(** C3 fails on the code: only the synchronous loop runs the power monitor.
    Whatever the library delivers, the callback leaves the accumulators
    untouched and emits no report.  On one block of 512 bytes at a sample
    rate of 100 (a window of 200 pairs) the synchronous loop emits a report
    and the asynchronous path none, while both write the same bytes. *)
Theorem C3_async_path_skips_power_monitor :
  (forall events st st',
     read_async events st = Done st' ->
     mon st' = mon st /\ reports (stderr st') = reports (stderr st)) /\
  (let block := repeat 192 512%nat in
   let st := mkState false 0 (repeat 0 512%nat) monitor_init (mkFILE [] []) [] 0 in
   exists st_sync st_async r,
     sync_loop 512 100 [mkRead 0 block false] st = (None, st_sync) /\
     read_async [Deliver block] st = Done st_async /\
     reports (stderr st_sync) = [r] /\
     reports (stderr st_async) = [] /\
     mon st_async = monitor_init /\
     f_data (file st_sync) = f_data (file st_async) /\
     f_data (file st_async) = map convert_byte block).
Proof.
  split; [exact read_async_no_monitor|].
  intros block st.
  eexists. eexists. eexists.
  split; [vm_compute; reflexivity|].
  split; [vm_compute; reflexivity|].
  split; [reflexivity|]. split; [reflexivity|]. split; [reflexivity|].
  split; reflexivity.
Qed.

(** ** Odd counts *)

(** C4 fails on the code: with an odd count the loop over pairs makes one
    more trip, which reads the trailing byte and the byte after it.  Seven
    bytes are read short into a block of 512 whose other bytes are 0, at a
    window of 2 pairs.  (1) Six silent bytes and a trailing full-scale byte:
    the report has channel-0 peak 1.  (2) Seven silent bytes: the report has
    channel-1 peak 1, taken from the stale byte [buffer[7]].  (3) Ignoring
    the trailing byte, as the claim says, both peaks would be 0.  (4) All
    seven bytes are written.  (5) When the odd count fills the block the
    extra trip reads outside the block. *)
Theorem C4_odd_count_reads_trailing_and_next_byte :
  let silent := [128; 128; 128; 128; 128; 128] in
  let st := mkState false 0 (repeat 0 512%nat) monitor_init (mkFILE [] []) [] 0 in
  (exists st' r,
     sync_body 512 1 (mkRead 0 (silent ++ [0]) false) st = (Some ShortRead, st') /\
     reports (stderr st') = [r] /\ (rep_ipeak r == 1)%Q /\
     f_data (file st') = map convert_byte (silent ++ [0])) /\
  (exists st' r,
     sync_body 512 1 (mkRead 0 (silent ++ [128]) false) st = (Some ShortRead, st') /\
     reports (stderr st') = [r] /\ (rep_ipeak r == 0)%Q /\ (rep_qpeak r == 1)%Q /\
     f_data (file st') = map convert_byte (silent ++ [128])) /\
  ((ipeak (Spec.pairs silent monitor_init) == 0)%Q /\
   (qpeak (Spec.pairs silent monitor_init) == 0)%Q /\
   interval (Spec.pairs silent monitor_init) = 3) /\
  (let st513 := mkState false 0 (repeat 0 513%nat) monitor_init (mkFILE [] []) [] 0 in
   fst (sync_body 513 1 (mkRead 0 (repeat 128 513%nat) false) st513) = Some Undefined).
Proof.
  intros silent st.
  split; [|split; [|split]].
  - eexists. eexists. split; [vm_compute; reflexivity|].
    split; [reflexivity|]. split; reflexivity.
  - eexists. eexists. split; [vm_compute; reflexivity|].
    split; [reflexivity|]. split; [reflexivity|]. split; reflexivity.
  - split; [reflexivity|]. split; reflexivity.
  - vm_compute. reflexivity.
Qed.

(** ** The capture paths always return *)

Lemma sync_body_fuel (obs samp_rate : Z) (ev : sync_read) (st : state) :
  fst (sync_body obs samp_rate ev st) <> Some OutOfFuel.
Proof.
  unfold sync_body.
  destruct (rd_r ev <? 0); [discriminate|].
  match goal with
  | |- context [power_monitor ?a ?b ?c ?d] =>
      pose proof (power_monitor_fuel a b c d) as Hm;
      destruct (power_monitor a b c d) as [[m' out]| |]
  end; try discriminate; try congruence.
  match goal with
  | |- context [convert ?a ?b] =>
      pose proof (convert_fuel a b) as Hc; destruct (convert a b) as [b1| |]
  end; try discriminate; try congruence.
  destruct (fwrite _ _) as [n f'].
  destruct (negb _); [discriminate|].
  destruct (_ <? _); discriminate.
Qed.

Lemma sync_loop_fuel (obs samp_rate : Z) (reads : list sync_read) :
  forall st, fst (sync_loop obs samp_rate reads st) <> Some OutOfFuel.
Proof.
  induction reads as [|ev reads IH]; intros st; simpl.
  - destruct (do_exit st); discriminate.
  - destruct (do_exit st); [discriminate|].
    pose proof (sync_body_fuel obs samp_rate ev st) as H.
    destruct (sync_body obs samp_rate ev st) as [[why|] st1]; [exact H | apply IH].
Qed.

(** The callback never leaves the block it is given. *)
Lemma rtlsdr_callback_returns (buf : list Z) (st : state) :
  Z.of_nat (length buf) < 2 ^ 32 ->
  exists st', rtlsdr_callback buf st = Done st'.
Proof.
  intros H. pose proof (callback_len_range buf st H) as Hn.
  unfold rtlsdr_callback.
  destruct (do_exit st); [now exists st|].
  rewrite convert_map by lia.
  destruct (fwrite _ _) as [n f'].
  eexists. reflexivity.
Qed.

(** * Further properties of the code *)

(** ** The converter on whole buffers *)

Lemma convert_byte_xor (b : Z) : is_byte b -> convert_byte b = Z.lxor b 128.
Proof.
  intros H.
  assert (T : forallb (fun n => convert_byte (Z.of_nat n) =? Z.lxor (Z.of_nat n) 128)
                      (seq 0 256) = true) by (vm_compute; reflexivity).
  rewrite forallb_forall in T.
  specialize (T (Z.to_nat b)).
  rewrite Z2Nat.id in T by (unfold is_byte in H; lia).
  apply Z.eqb_eq, T, in_seq. unfold is_byte in H. lia.
Qed.

(** X1: read as a signed 8-bit number, the converted byte is exactly
    raw - 128, a value in [-128, 127]; the conversion is the flip of the top
    bit; and the value the monitor normalises from the raw byte is that
    signed sample over 128, so the statistics taken before the conversion
    are those of the samples the file holds. *)
Theorem converted_byte_is_signed_sample (b : Z) (Hb : is_byte b) :
  s8 (convert_byte b) = b - 128 /\
  - 128 <= s8 (convert_byte b) <= 127 /\
  convert_byte b = Z.lxor b 128 /\
  normalize b = (inject_Z (s8 (convert_byte b)) / inject_Z 128)%Q.
Proof.
  assert (E : s8 (convert_byte b) = b - 128).
  { unfold s8. change (2 ^ 7) with 128. change (2 ^ 8) with 256.
    pose proof (convert_byte_involutive b Hb) as I.
    rewrite convert_byte_add in I. unfold u8 in I. change (2 ^ 8) with 256 in I.
    rewrite I. reflexivity. }
  split; [exact E|].
  split; [rewrite E; unfold is_byte in Hb; lia|].
  split; [now apply convert_byte_xor|].
  rewrite E. reflexivity.
Qed.

Lemma converted_byte_is_signed_sample_witness :
  is_byte 0 /\ s8 (convert_byte 0) = - 128 /\ s8 (convert_byte 255) = 127.
Proof.
  assert (H0 : is_byte 0) by (unfold is_byte; lia).
  assert (H255 : is_byte 255) by (unfold is_byte; lia).
  split; [exact H0|].
  split.
  - exact (proj1 (converted_byte_is_signed_sample 0 H0)).
  - exact (proj1 (converted_byte_is_signed_sample 255 H255)).
Defined.

Lemma map_convert_byte_twice (l : list Z) :
  Forall is_byte l -> map convert_byte (map convert_byte l) = l.
Proof.
  induction 1 as [|b l Hb Hl IH]; simpl; [reflexivity|].
  now rewrite convert_byte_involutive, IH.
Qed.

Lemma map_convert_byte_range (l : list Z) : Forall is_byte (map convert_byte l).
Proof.
  induction l as [|b l IH]; simpl; constructor; [apply convert_byte_range | exact IH].
Qed.

(** X2: a second pass of the converter over the same count restores the
    whole buffer, and one pass keeps every element a byte. *)
Theorem convert_buffer_round_trip (len : Z) (buf : list Z)
  (Hlen : 0 <= len <= Z.of_nat (length buf))
  (Hbytes : Forall is_byte buf) :
  exists out,
    convert len buf = Done out /\
    Forall is_byte out /\
    convert len out = Done buf.
Proof.
  set (n := Z.to_nat len).
  exists (map convert_byte (firstn n buf) ++ skipn n buf).
  assert (Hn : length (map convert_byte (firstn n buf)) = n)
    by (rewrite length_map, length_firstn; lia).
  split; [now apply convert_map|].
  split.
  - apply Forall_app. split; [apply map_convert_byte_range|].
    rewrite <- (firstn_skipn n buf) in Hbytes.
    apply Forall_app in Hbytes. tauto.
  - rewrite convert_map
      by (rewrite length_app, length_map, length_firstn, length_skipn; lia).
    fold n.
    rewrite firstn_app, Hn, Nat.sub_diag, firstn_O, app_nil_r.
    rewrite <- Hn at 1. rewrite firstn_all.
    rewrite skipn_app, Hn, Nat.sub_diag. simpl skipn at 2.
    rewrite <- Hn at 2. rewrite skipn_all. simpl app.
    rewrite map_convert_byte_twice.
    + now rewrite firstn_skipn.
    + rewrite <- (firstn_skipn n buf) in Hbytes.
      apply Forall_app in Hbytes. tauto.
Qed.

Lemma convert_buffer_round_trip_witness :
  exists out,
    convert 3 [0; 127; 255; 9] = Done out /\ convert 3 out = Done [0; 127; 255; 9].
Proof.
  assert (H1 : 0 <= 3 <= Z.of_nat (length [0; 127; 255; 9])) by (simpl; lia).
  assert (H2 : Forall is_byte [0; 127; 255; 9])
    by (repeat constructor; unfold is_byte; lia).
  destruct (convert_buffer_round_trip 3 [0; 127; 255; 9] H1 H2) as (out & A & _ & B).
  exists out. split; [exact A | exact B].
Defined.

(** ** The callback *)

Lemma callback_len_min (buf : list Z) (st : state) :
  Z.of_nat (length buf) < 2 ^ 32 -> 0 <= bytes_to_read st ->
  callback_len buf st
  = if bytes_to_read st >? 0
    then Z.min (Z.of_nat (length buf)) (bytes_to_read st)
    else Z.of_nat (length buf).
Proof.
  intros H Hb. unfold callback_len, over_budget.
  rewrite !(u32_small (Z.of_nat (length buf))) by lia.
  destruct (bytes_to_read st >? 0) eqn:E1; [|reflexivity].
  destruct (bytes_to_read st <? Z.of_nat (length buf)) eqn:E2; simpl.
  - apply Z.ltb_lt in E2. rewrite u32_small by lia. lia.
  - apply Z.ltb_ge in E2. lia.
Qed.

(** The callback on a stream that takes every write. *)
Lemma rtlsdr_callback_accepting (buf : list Z) (st : state) :
  do_exit st = false ->
  Z.of_nat (length buf) < 2 ^ 32 ->
  f_accept (file st) = [] ->
  let len := callback_len buf st in
  let over := over_budget (u32 (Z.of_nat (length buf))) st in
  rtlsdr_callback buf st
  = Done (mkState over
            (if bytes_to_read st >? 0 then u64 (bytes_to_read st - len)
             else bytes_to_read st)
            (buffer st) (mon st)
            (mkFILE (f_data (file st)
                     ++ map convert_byte (firstn (Z.to_nat len) buf)) [])
            (stderr st)
            (if over then S (cancels st) else cancels st)).
Proof.
  intros Hrun Hint Hscript len over.
  pose proof (callback_len_range buf st Hint) as Hn. fold len in Hn.
  unfold rtlsdr_callback. rewrite Hrun. fold len. fold over.
  rewrite convert_map by lia.
  assert (Hf : firstn (Z.to_nat len)
                 (map convert_byte (firstn (Z.to_nat len) buf) ++ skipn (Z.to_nat len) buf)
               = map convert_byte (firstn (Z.to_nat len) buf)).
  { assert (L : length (map convert_byte (firstn (Z.to_nat len) buf)) = Z.to_nat len)
      by (rewrite length_map, length_firstn; lia).
    rewrite firstn_app, L, Nat.sub_diag, firstn_O, app_nil_r.
    rewrite <- L at 1. apply firstn_all. }
  rewrite Hf. unfold fwrite.
  assert (Hfile : f_accept (file (if over then rtlsdr_cancel_async (set_do_exit st) else st))
                  = [] /\
                  f_data (file (if over then rtlsdr_cancel_async (set_do_exit st) else st))
                  = f_data (file st))
    by (destruct over; split; assumption || reflexivity).
  destruct Hfile as [Ha Hd]. rewrite Ha, Hd.
  rewrite length_map, length_firstn, Nat.min_l, Z2Nat.id, Z.eqb_refl by lia.
  destruct over; simpl; rewrite ?Hrun; reflexivity.
Qed.

(** X3: once [do_exit] is set the callback does nothing: whatever the
    library still delivers, and whatever signals follow, no byte reaches the
    stream, the budget and the accumulators keep their values and no message
    is logged except those of the signal handler. *)
Theorem cancelled_callback_writes_nothing (events : list async_event) (st : state)
  (Hexit : do_exit st = true) :
  exists st',
    read_async events st = Done st' /\
    file st' = file st /\
    bytes_to_read st' = bytes_to_read st /\
    mon st' = mon st /\
    do_exit st' = true /\
    reports (stderr st') = reports (stderr st).
Proof.
  revert st Hexit. induction events as [|[buf|] events IH]; intros st Hexit; simpl.
  - exists st. repeat split; assumption || reflexivity.
  - unfold rtlsdr_callback. rewrite Hexit. now apply IH.
  - destruct (IH (sighandler st) eq_refl) as (st' & H1 & H2 & H3 & H4 & H5 & H6).
    exists st'. split; [exact H1|]. split; [exact H2|]. split; [exact H3|].
    split; [exact H4|]. split; [exact H5|].
    rewrite H6. simpl. now rewrite reports_app, app_nil_r.
Qed.

Lemma cancelled_callback_writes_nothing_witness :
  let st := sighandler (mkState false 100 [] monitor_init (mkFILE [1; 2] []) [] 0) in
  exists st',
    read_async [Deliver [200; 201]; Signal; Deliver [7]] st = Done st' /\
    file st' = mkFILE [1; 2] [].
Proof.
  intros st.
  assert (H : do_exit st = true) by reflexivity.
  destruct (cancelled_callback_writes_nothing [Deliver [200; 201]; Signal; Deliver [7]] st H)
    as (st' & A & B & _).
  exists st'. split; [exact A | exact B].
Defined.

(** X4: with a budget set and a stream that takes every write, one call of
    the callback writes the converted first min(len, budget) bytes of the
    block and lowers the budget by exactly that number; it sets [do_exit] and
    asks for cancellation exactly when the budget is smaller than the block. *)
Theorem callback_respects_budget (buf : list Z) (st : state)
  (Hrun : do_exit st = false)
  (Hlen : Z.of_nat (length buf) < 2 ^ 32)
  (Hfile : f_accept (file st) = [])
  (Hbudget : 0 < bytes_to_read st < 2 ^ 64) :
  let written := Z.min (Z.of_nat (length buf)) (bytes_to_read st) in
  exists st',
    rtlsdr_callback buf st = Done st' /\
    f_data (file st')
    = f_data (file st) ++ map convert_byte (firstn (Z.to_nat written) buf) /\
    bytes_to_read st' = bytes_to_read st - written /\
    (bytes_to_read st < Z.of_nat (length buf) ->
       do_exit st' = true /\ cancels st' = S (cancels st) /\ bytes_to_read st' = 0) /\
    (Z.of_nat (length buf) <= bytes_to_read st ->
       do_exit st' = false /\ cancels st' = cancels st).
Proof.
  intros written.
  pose proof (rtlsdr_callback_accepting buf st Hrun Hlen Hfile) as E.
  cbv zeta in E.
  rewrite callback_len_min in E by lia.
  assert (Hpos : (bytes_to_read st >? 0) = true)
    by (rewrite Z.gtb_ltb; apply Z.ltb_lt; lia).
  rewrite Hpos in E. fold written in E.
  eexists. split; [exact E|]. simpl.
  split; [reflexivity|].
  assert (Hw : 0 <= written <= bytes_to_read st) by (unfold written; lia).
  split; [apply u64_small; lia|].
  unfold over_budget. rewrite Hpos, (u32_small (Z.of_nat (length buf))) by lia.
  rewrite (u32_small (Z.of_nat (length buf))) by lia. simpl.
  split; intros H.
  - destruct (bytes_to_read st <? Z.of_nat (length buf)) eqn:El;
      [|apply Z.ltb_ge in El; lia].
    split; [reflexivity|]. split; [reflexivity|].
    unfold written. rewrite Z.min_r by lia. rewrite Z.sub_diag. reflexivity.
  - destruct (bytes_to_read st <? Z.of_nat (length buf)) eqn:El;
      [apply Z.ltb_lt in El; lia|].
    split; reflexivity.
Qed.

Lemma callback_respects_budget_witness :
  let st := mkState false 3 [] monitor_init (mkFILE [] []) [] 0 in
  exists st',
    rtlsdr_callback [128; 129; 130; 131; 132] st = Done st' /\
    f_data (file st') = [0; 1; 2] /\ bytes_to_read st' = 0 /\ do_exit st' = true.
Proof.
  intros st.
  assert (H1 : do_exit st = false) by reflexivity.
  assert (H2 : Z.of_nat (length [128; 129; 130; 131; 132]) < 2 ^ 32) by reflexivity.
  assert (H3 : f_accept (file st) = []) by reflexivity.
  assert (H4 : 0 < bytes_to_read st < 2 ^ 64) by (split; reflexivity).
  destruct (callback_respects_budget [128; 129; 130; 131; 132] st H1 H2 H3 H4)
    as (st' & A & B & C & D & _).
  exists st'. split; [exact A|]. split; [exact B|].
  destruct D as (D1 & _ & D3); [reflexivity|].
  split; [exact D3 | exact D1].
Defined.

(** ** A short write in the callback *)

(** C9 fails on the code in the asynchronous path.  A short write in the
    callback prints the message and calls [rtlsdr_cancel_async], but unlike
    the budget branch it does not set [do_exit]: when the budget test did
    not fire, [do_exit] is still false after the short write, and the next
    block the library delivers passes the guard and is written.  On a
    stream that takes the header, then 100 bytes of the first 512-byte
    block, then everything, with three blocks delivered, the capture does
    not stop: the file holds the header, the 100 bytes and the two later
    blocks whole, with 412 samples missing in between.  The synchronous
    loop on the same reads stops at the cut block and writes nothing
    more. *)
Theorem C9_callback_writes_on_after_short_write :
  (forall buf st k script,
     do_exit st = false ->
     Z.of_nat (length buf) < 2 ^ 32 ->
     f_accept (file st) = k :: script ->
     Z.of_nat k < callback_len buf st ->
     over_budget (u32 (Z.of_nat (length buf))) st = false ->
     exists st',
       rtlsdr_callback buf st = Done st' /\
       stderr st' = stderr st ++ [MsgShortWrite] /\
       do_exit st' = false /\
       (script = [] ->
        forall next, Z.of_nat (length next) < 2 ^ 32 ->
        exists st'',
          rtlsdr_callback next st' = Done st'' /\
          f_data (file st'')
          = f_data (file st')
            ++ map convert_byte (firstn (Z.to_nat (callback_len next st')) next))) /\
  (let block := repeat 128 512%nat in
   let f := mkFILE [] [12; 8; 16; 8; 52; 8; 100]%nat in
   let now := mkTm 30 15 12 30 9 126 in
   let o_async := mkOptions 2048000 100000000 512 0 false in
   let o_sync := mkOptions 2048000 100000000 512 0 true in
   let w_async :=
     mkWorld now (fun _ => 0) f [] [Deliver block; Deliver block; Deliver block] in
   let w_sync :=
     mkWorld now (fun _ => 0) f
             [mkRead 0 block false; mkRead 0 block false; mkRead 0 block false] [] in
   let header := concat (header_images now 2048000 100000000 8) in
   exists st_async st_sync,
     main o_async w_async = Capture None st_async /\
     do_exit st_async = false /\
     stderr st_async = [MsgAsyncMode; MsgShortWrite] /\
     cancels st_async = 1%nat /\
     f_data (file st_async) = header ++ repeat 0 100%nat ++ repeat 0 1024%nat /\
     main o_sync w_sync = Capture (Some ShortWrite) st_sync /\
     f_data (file st_sync) = header ++ repeat 0 100%nat).
Proof.
  split.
  - intros buf st k script Hrun Hint Hscript Hshort Hover.
    destruct (callback_short_write buf st k script Hrun Hint Hscript Hshort)
      as (st' & Hcb & _ & Hlog & Hacc & _ & Hexit & _).
    exists st'. split; [exact Hcb|]. split; [exact Hlog|].
    rewrite Hover in Hexit. split; [exact Hexit|].
    intros Hnil next Hnext.
    rewrite Hnil in Hacc.
    pose proof (rtlsdr_callback_accepting next st' Hexit Hnext Hacc) as E.
    cbv zeta in E. rewrite E. eexists. split; [reflexivity|]. reflexivity.
  - intros block f now o_async o_sync w_async w_sync header.
    eexists. eexists.
    split; [vm_compute; reflexivity|].
    split; [reflexivity|]. split; [reflexivity|]. split; [reflexivity|].
    split; [vm_compute; reflexivity|].
    split; [vm_compute; reflexivity|].
    vm_compute. reflexivity.
Qed.

(** ** One trip of the synchronous loop *)

Lemma firstn_front (A : Type) (n : nat) (a b : list A) :
  (n <= length a)%nat -> firstn n (a ++ b) = firstn n a.
Proof.
  intros H. rewrite firstn_app.
  replace (n - length a)%nat with 0%nat by lia.
  simpl. apply app_nil_r.
Qed.

Lemma firstn_converted (n : nat) (buf : list Z) :
  (n <= length buf)%nat ->
  firstn n (map convert_byte (firstn n buf) ++ skipn n buf)
  = map convert_byte (firstn n buf).
Proof.
  intros H. rewrite firstn_front by (rewrite length_map, length_firstn; lia).
  apply firstn_all2. rewrite length_map, length_firstn. lia.
Qed.

(** The trip on a stream that takes every write, once the monitor has
    returned: the converted bytes of the read are appended, and the trip ends
    in the short-read break or goes back to the loop test. *)
Lemma sync_body_accepting (obs samp_rate : Z) (ev : sync_read) (st : state)
  (m' : monitor) (out : list msg) :
  0 <= rd_r ev ->
  Z.of_nat (length (rd_data ev)) < 2 ^ 31 ->
  f_accept (file st) = [] ->
  let st0 := if rd_signal ev then sighandler st else st in
  let n := sync_count ev st in
  let buffer0 := rd_data ev ++ skipn (length (rd_data ev)) (buffer st) in
  power_monitor samp_rate n buffer0 (mon st) = Done (m', out) ->
  let exit_flag :=
    if over_budget (Z.of_nat (length (rd_data ev))) st then true else do_exit st0 in
  let buffer1 :=
    map convert_byte (firstn (Z.to_nat n) buffer0) ++ skipn (Z.to_nat n) buffer0 in
  let file' :=
    mkFILE (f_data (file st)
            ++ map convert_byte (firstn (Z.to_nat n) (rd_data ev))) [] in
  sync_body obs samp_rate ev st
  = if n <? obs
    then (Some ShortRead,
          mkState exit_flag (bytes_to_read st) buffer1 m' file'
                  ((stderr st0 ++ out) ++ [MsgShortRead]) (cancels st0))
    else (None,
          mkState exit_flag
                  (if bytes_to_read st >? 0 then u64 (bytes_to_read st - n)
                   else bytes_to_read st)
                  buffer1 m' file' (stderr st0 ++ out) (cancels st0)).
Proof.
  intros Hr Hint Hscript st0 n buffer0 Hm exit_flag buffer1 file'.
  pose proof (sync_count_range ev st Hint) as Hn. fold n in Hn.
  assert (Hb0 : (Z.to_nat n <= length buffer0)%nat)
    by (unfold buffer0; rewrite length_app; lia).
  unfold sync_body.
  destruct (rd_r ev <? 0) eqn:E; [apply Z.ltb_lt in E; lia|].
  assert (E0 : sync_count ev st0 = n /\ file st0 = file st /\
               buffer st0 = buffer st /\ mon st0 = mon st /\
               bytes_to_read st0 = bytes_to_read st /\
               over_budget (Z.of_nat (length (rd_data ev))) st0
               = over_budget (Z.of_nat (length (rd_data ev))) st)
    by (unfold st0; destruct (rd_signal ev); repeat split; reflexivity).
  destruct E0 as (E1 & E2 & E3 & E4 & E5 & E6).
  fold st0. rewrite E1, E2, E3, E4, E5, E6. fold buffer0.
  rewrite Hm, convert_map by lia. fold buffer1.
  unfold buffer1 at 1. rewrite firstn_converted by exact Hb0.
  unfold buffer0 at 1. rewrite firstn_front by lia.
  unfold fwrite. rewrite Hscript.
  rewrite length_map, length_firstn, Nat.min_l, Z2Nat.id, Z.eqb_refl by lia.
  simpl negb. cbv iota.
  rewrite u32_small by lia.
  destruct (n <? obs); reflexivity.
Qed.

(** X5: in the synchronous loop, a budget that ends inside the block read
    makes the loop write exactly the budget (the converted first bytes of the
    read) and set [do_exit]; the shortened count is then smaller than the
    block size, so the loop leaves through the short-read break, with its
    message, before the budget is decremented, and no further read is
    consumed. *)
Theorem sync_budget_ends_as_short_read
  (obs samp_rate : Z) (ev : sync_read) (st : state)
  (Hrun : do_exit st = false)
  (Hr : 0 <= rd_r ev)
  (Hblock : Z.of_nat (length (rd_data ev)) <= obs /\ obs < 2 ^ 31)
  (Hbudget : 0 < bytes_to_read st < Z.of_nat (length (rd_data ev)))
  (Hfile : f_accept (file st) = []) :
  exists st' log0,
    (forall reads, sync_loop obs samp_rate (ev :: reads) st = (Some ShortRead, st')) /\
    f_data (file st')
    = f_data (file st)
      ++ map convert_byte (firstn (Z.to_nat (bytes_to_read st)) (rd_data ev)) /\
    do_exit st' = true /\
    bytes_to_read st' = bytes_to_read st /\
    stderr st' = log0 ++ [MsgShortRead].
Proof.
  destruct Hblock as [Hle Hobs].
  assert (Hint : Z.of_nat (length (rd_data ev)) < 2 ^ 31) by lia.
  assert (Hover : over_budget (Z.of_nat (length (rd_data ev))) st = true).
  { unfold over_budget. rewrite u32_small by lia.
    apply andb_true_iff. split; [rewrite Z.gtb_ltb|]; apply Z.ltb_lt; lia. }
  assert (Hn : sync_count ev st = bytes_to_read st).
  { unfold sync_count. rewrite Hover. apply s32_small. lia. }
  set (buffer0 := rd_data ev ++ skipn (length (rd_data ev)) (buffer st)).
  destruct (power_monitor_returns samp_rate (sync_count ev st) buffer0 (mon st))
    as (m' & out & Hm).
  { rewrite Hn. unfold buffer0. rewrite length_app. lia. }
  { right. rewrite Hn. unfold buffer0. rewrite length_app. lia. }
  pose proof (sync_body_accepting obs samp_rate ev st m' out Hr Hint Hfile Hm) as E.
  cbv zeta in E. rewrite Hover, Hn in E.
  destruct (bytes_to_read st <? obs) eqn:El; [|apply Z.ltb_ge in El; lia].
  eexists. eexists. split.
  - intros reads. simpl. rewrite Hrun, E. reflexivity.
  - simpl. repeat split; reflexivity.
Qed.

Lemma sync_budget_ends_as_short_read_witness :
  let st := mkState false 2 [9; 9; 9; 9] monitor_init (mkFILE [] []) [] 0 in
  exists st',
    sync_loop 4 1 [mkRead 0 [128; 129; 130; 131] false] st = (Some ShortRead, st') /\
    f_data (file st') = [0; 1] /\ bytes_to_read st' = 2.
Proof.
  intros st.
  assert (H1 : do_exit st = false) by reflexivity.
  assert (H2 : 0 <= rd_r (mkRead 0 [128; 129; 130; 131] false)) by (simpl; lia).
  assert (H3 : Z.of_nat (length (rd_data (mkRead 0 [128; 129; 130; 131] false))) <= 4
               /\ 4 < 2 ^ 31) by (simpl; lia).
  assert (H4 : 0 < bytes_to_read st
               < Z.of_nat (length (rd_data (mkRead 0 [128; 129; 130; 131] false))))
    by (simpl; lia).
  assert (H5 : f_accept (file st) = []) by reflexivity.
  destruct (sync_budget_ends_as_short_read 4 1 _ st H1 H2 H3 H4 H5)
    as (st' & log0 & A & B & _ & C & _).
  exists st'. split; [apply A|]. split; [exact B | exact C].
Defined.

(** X6: a signal handled during a read ends the synchronous loop with that
    trip: whatever the trip does with the block, the loop test that follows
    fails, so no later read is consumed. *)
Theorem signal_ends_sync_loop (obs samp_rate : Z) (ev : sync_read) (st : state)
  (Hrun : do_exit st = false) (Hsig : rd_signal ev = true) :
  forall reads,
    sync_loop obs samp_rate (ev :: reads) st
    = match sync_body obs samp_rate ev st with
      | (None, st') => (Some ExitFlag, st')
      | (Some why, st') => (Some why, st')
      end /\
    fst (sync_loop obs samp_rate (ev :: reads) st) <> None.
Proof.
  intros reads. simpl. rewrite Hrun.
  assert (Hflag : forall st', sync_body obs samp_rate ev st = (None, st') ->
                              do_exit st' = true).
  { intros st'. unfold sync_body. rewrite Hsig.
    destruct (rd_r ev <? 0); [discriminate|].
    destruct (power_monitor _ _ _ _) as [[m' out]| |]; try discriminate.
    destruct (convert _ _) as [b1| |]; try discriminate.
    destruct (fwrite _ _) as [w f'].
    destruct (negb _); [discriminate|].
    destruct (_ <? _); [discriminate|].
    intros H. inversion H. simpl.
    destruct (over_budget _ _); reflexivity. }
  destruct (sync_body obs samp_rate ev st) as [[why|] st'] eqn:E.
  - split; [reflexivity | discriminate].
  - specialize (Hflag st' eq_refl).
    assert (L : sync_loop obs samp_rate reads st' = (Some ExitFlag, st'))
      by (destruct reads; simpl; rewrite Hflag; reflexivity).
    rewrite L. split; [reflexivity | discriminate].
Qed.

Lemma signal_ends_sync_loop_witness :
  let st := mkState false 0 [9; 9] monitor_init (mkFILE [] []) [] 0 in
  let ev := mkRead 0 [128; 129] true in
  exists st',
    sync_loop 2 1 [ev; mkRead 0 [130; 131] false] st = (Some ExitFlag, st') /\
    f_data (file st') = [0; 1].
Proof.
  intros st ev.
  assert (H1 : do_exit st = false) by reflexivity.
  assert (H2 : rd_signal ev = true) by reflexivity.
  destruct (signal_ends_sync_loop 2 1 ev st H1 H2 [mkRead 0 [130; 131] false]) as [A _].
  eexists. split; [rewrite A; vm_compute; reflexivity | reflexivity].
Defined.

(** X7: for the same block, budget and stream, the synchronous trip and the
    callback leave the same file: both write the converted first bytes of the
    block, the same number of them. *)
Theorem both_paths_write_the_same (obs samp_rate : Z) (ev : sync_read) (st : state)
  (Hrun : do_exit st = false)
  (Hr : 0 <= rd_r ev)
  (Hint : Z.of_nat (length (rd_data ev)) < 2 ^ 31)
  (Hbudget : 0 <= bytes_to_read st)
  (Hin : Z.even (sync_count ev st) = true \/
         sync_count ev st < Z.of_nat (length (buffer st)))
  (Hfile : f_accept (file st) = []) :
  exists st_async,
    rtlsdr_callback (rd_data ev) st = Done st_async /\
    file (snd (sync_body obs samp_rate ev st)) = file st_async /\
    sync_count ev st = callback_len (rd_data ev) st.
Proof.
  pose proof (sync_count_range ev st Hint) as Hn.
  assert (Hsame : sync_count ev st = callback_len (rd_data ev) st).
  { unfold sync_count, callback_len, over_budget.
    rewrite !(u32_small (Z.of_nat (length (rd_data ev)))) by lia.
    destruct ((bytes_to_read st >? 0) && _) eqn:E; [|reflexivity].
    apply andb_true_iff in E. destruct E as [_ E]. apply Z.ltb_lt in E.
    rewrite s32_small, u32_small by lia. reflexivity. }
  set (buffer0 := rd_data ev ++ skipn (length (rd_data ev)) (buffer st)).
  destruct (power_monitor_returns samp_rate (sync_count ev st) buffer0 (mon st))
    as (m' & out & Hm).
  { unfold buffer0. rewrite length_app. lia. }
  { destruct Hin as [H|H]; [now left | right].
    unfold buffer0. rewrite length_app, length_skipn. lia. }
  pose proof (sync_body_accepting obs samp_rate ev st m' out Hr Hint Hfile Hm) as E.
  cbv zeta in E.
  pose proof (rtlsdr_callback_accepting (rd_data ev) st Hrun ltac:(lia) Hfile) as C.
  cbv zeta in C.
  eexists. split; [exact C|]. split; [|exact Hsame].
  rewrite E, <- Hsame.
  destruct (sync_count ev st <? obs); reflexivity.
Qed.

Lemma both_paths_write_the_same_witness :
  let st := mkState false 3 [9; 9; 9; 9; 9] monitor_init (mkFILE [] []) [] 0 in
  let ev := mkRead 0 [128; 129; 130; 131] false in
  exists st_async,
    rtlsdr_callback (rd_data ev) st = Done st_async /\
    file (snd (sync_body 4 1 ev st)) = file st_async.
Proof.
  intros st ev.
  assert (H1 : do_exit st = false) by reflexivity.
  assert (H2 : 0 <= rd_r ev) by (simpl; lia).
  assert (H3 : Z.of_nat (length (rd_data ev)) < 2 ^ 31) by reflexivity.
  assert (H4 : 0 <= bytes_to_read st) by (simpl; lia).
  assert (H5 : Z.even (sync_count ev st) = true \/
               sync_count ev st < Z.of_nat (length (buffer st)))
    by (right; reflexivity).
  assert (H6 : f_accept (file st) = []) by reflexivity.
  destruct (both_paths_write_the_same 4 1 ev st H1 H2 H3 H4 H5 H6) as (sa & A & B & _).
  exists sa. split; [exact A | exact B].
Defined.

(** ** The monitor and the data path *)

(** Whether the loop over pairs returns, faults or runs out of fuel does not
    depend on the accumulators it starts from. *)
Lemma monitor_loop_shape (fuel : nat) :
  forall (i n_read : Z) (buf : list Z) (m1 m2 : monitor),
  match monitor_loop fuel i n_read buf m1, monitor_loop fuel i n_read buf m2 with
  | Done _, Done _ | Fault, Fault | Exhausted, Exhausted => True
  | _, _ => False
  end.
Proof.
  induction fuel as [|fuel IH]; intros i n_read buf m1 m2; simpl.
  - destruct (i <? n_read); exact I.
  - destruct (i <? n_read); [|exact I].
    destruct (load buf i); [|exact I].
    destruct (load buf (i + 1)); [|exact I].
    apply IH.
Qed.

Lemma power_monitor_shape (sr1 sr2 n_read : Z) (buf : list Z) (m1 m2 : monitor) :
  match power_monitor sr1 n_read buf m1, power_monitor sr2 n_read buf m2 with
  | Done _, Done _ | Fault, Fault | Exhausted, Exhausted => True
  | _, _ => False
  end.
Proof.
  unfold power_monitor.
  pose proof (monitor_loop_shape (Z.to_nat n_read) 0 n_read buf m1 m2) as H.
  destruct (monitor_loop _ _ _ _ m1), (monitor_loop _ _ _ _ m2); exact H.
Qed.

(** X8: the power monitor has no effect on the data path.  Whatever the
    accumulators hold and whatever the sample rate, a trip of the
    synchronous loop ends the same way and leaves the same file, budget,
    exit flag, block and cancellation count. *)
Theorem monitor_does_not_touch_data_path
  (obs sr1 sr2 : Z) (ev : sync_read) (st : state) (m2 : monitor) :
  let st2 := mkState (do_exit st) (bytes_to_read st) (buffer st) m2 (file st)
                     (stderr st) (cancels st) in
  let r1 := sync_body obs sr1 ev st in
  let r2 := sync_body obs sr2 ev st2 in
  fst r1 = fst r2 /\
  file (snd r1) = file (snd r2) /\
  bytes_to_read (snd r1) = bytes_to_read (snd r2) /\
  do_exit (snd r1) = do_exit (snd r2) /\
  buffer (snd r1) = buffer (snd r2) /\
  cancels (snd r1) = cancels (snd r2).
Proof.
  intros st2 r1 r2. subst r1 r2 st2. unfold sync_body, sync_count, over_budget.
  destruct (rd_signal ev);
    cbn [sighandler rtlsdr_cancel_async set_do_exit log
         do_exit bytes_to_read buffer mon file stderr cancels];
    (destruct (rd_r ev <? 0); [repeat split; reflexivity|]);
    match goal with
    | |- context [power_monitor sr1 ?n ?b ?m] =>
        pose proof (power_monitor_shape sr1 sr2 n b m m2) as S;
        destruct (power_monitor sr1 n b m) as [[m1' o1]| |];
        destruct (power_monitor sr2 n b m2) as [[m2' o2]| |];
        try contradiction; try (repeat split; reflexivity)
    end;
    (destruct (convert _ _) as [b1| |]; [|repeat split; reflexivity ..]);
    destruct (fwrite _ _) as [w f'];
    (destruct (negb _); [repeat split; reflexivity|]);
    destruct (_ <? _); repeat split; reflexivity.
Qed.

(** ** Peaks never exceed full scale *)

Lemma power_in_range (b : Z) :
  is_byte b ->
  (0 <= normalize b * normalize b)%Q /\ (normalize b * normalize b <= 1)%Q.
Proof.
  intros H. destruct (normalize_range b H) as [L U].
  split; [apply square_nonneg | nra].
Qed.

Lemma full_scale_only_from_zero (b : Z) :
  is_byte b -> ((normalize b * normalize b == 1)%Q <-> b = 0).
Proof.
  unfold is_byte, normalize. intros H.
  unfold Qeq, Qdiv, Qmult, Qinv, inject_Z. simpl.
  split; intros E; [nia | subst b; reflexivity].
Qed.

Lemma peak_step_in_range (peak v : Q) :
  (0 <= peak)%Q -> (peak <= 1)%Q -> (0 <= v)%Q -> (v <= 1)%Q ->
  (0 <= (if Qgtb v peak then v else peak))%Q /\
  ((if Qgtb v peak then v else peak) <= 1)%Q.
Proof. intros. destruct (Qgtb v peak); split; assumption. Qed.

Lemma accumulate_in_range (bi bq : Z) (m : monitor) :
  is_byte bi -> is_byte bq -> peaks_in_range m -> peaks_in_range (accumulate bi bq m).
Proof.
  intros Hi Hq (A & B & C & D).
  destruct (power_in_range bi Hi) as [I0 I1].
  destruct (power_in_range bq Hq) as [Q0 Q1].
  unfold peaks_in_range, accumulate. simpl.
  destruct (peak_step_in_range (ipeak m) _ A B I0 I1) as [X1 X2].
  destruct (peak_step_in_range (qpeak m) _ C D Q0 Q1) as [Y1 Y2].
  tauto.
Qed.

Lemma load_byte (buf : list Z) (i b : Z) :
  Forall is_byte buf -> load buf i = Some b -> is_byte b.
Proof.
  intros H. unfold load. destruct (i <? 0); [discriminate|].
  intros E. apply nth_error_In in E.
  rewrite Forall_forall in H. now apply H.
Qed.

Lemma monitor_loop_in_range (fuel : nat) :
  forall (i n_read : Z) (buf : list Z) (m m' : monitor),
  Forall is_byte buf -> peaks_in_range m ->
  monitor_loop fuel i n_read buf m = Done m' -> peaks_in_range m'.
Proof.
  induction fuel as [|fuel IH]; intros i n_read buf m m' Hb Hm; simpl.
  - destruct (i <? n_read); [discriminate|]. intros E. inversion E. now subst.
  - destruct (i <? n_read); [|intros E; inversion E; now subst].
    destruct (load buf i) as [bi|] eqn:Ei; [|discriminate].
    destruct (load buf (i + 1)) as [bq|] eqn:Eq; [|discriminate].
    apply IH; [exact Hb|].
    apply accumulate_in_range; [eapply load_byte; eassumption ..| exact Hm].
Qed.

Lemma db_at_most_zero (x : R) : (0 < x <= 1)%R -> (db x <= 0)%R.
Proof.
  intros [H0 H1]. unfold db.
  destruct (Rle_lt_or_eq_dec _ _ H1) as [L|E].
  - pose proof (ln_increasing x 1 H0 L) as K. rewrite ln_1 in K. lra.
  - rewrite E, ln_1. lra.
Qed.

Lemma power_monitor_in_range (samp_rate n_read : Z) (buf : list Z)
  (m m' : monitor) (out : list msg) :
  Forall is_byte buf -> peaks_in_range m ->
  power_monitor samp_rate n_read buf m = Done (m', out) ->
  peaks_in_range m' /\ Forall report_in_range (reports out).
Proof.
  intros Hb Hm. unfold power_monitor.
  destruct (monitor_loop _ _ _ _ _) as [a| |] eqn:E; try discriminate.
  apply (monitor_loop_in_range _ _ _ _ _ _ Hb Hm) in E.
  unfold monitor_report.
  destruct (_ >? _); intros H; inversion H; subst; simpl.
  - split.
    + unfold peaks_in_range. simpl. repeat split; lra.
    + constructor; [|constructor].
      destruct E as (A & B & C & D).
      unfold report_in_range, printed_ipeak, printed_qpeak. simpl.
      assert (Z0 : Q2R 0 = 0%R) by (unfold Q2R; simpl; lra).
      assert (Z1 : Q2R 1 = 1%R) by (unfold Q2R; simpl; lra).
      repeat split; try assumption; intros P; apply db_at_most_zero.
      * apply Qlt_Rlt in P. apply Qle_Rle in B. lra.
      * apply Qlt_Rlt in P. apply Qle_Rle in D. lra.
  - split; [exact E | constructor].
Qed.

Lemma store_at_bytes (buf : list Z) :
  forall (i : nat) (v : Z) (buf' : list Z),
  Forall is_byte buf -> is_byte v -> store_at buf i v = Some buf' ->
  Forall is_byte buf'.
Proof.
  induction buf as [|x buf IH]; intros i v buf' Hb Hv; simpl.
  - destruct i; discriminate.
  - inversion Hb; subst. destruct i as [|i].
    + intros E. inversion E. now constructor.
    + destruct (store_at buf i v) as [tl|] eqn:Et; [|discriminate].
      intros E. inversion E. constructor; [assumption|].
      apply (IH i v tl); assumption.
Qed.

Lemma convert_loop_bytes (fuel : nat) :
  forall (n len : Z) (buf out : list Z),
  Forall is_byte buf -> convert_loop fuel n len buf = Done out -> Forall is_byte out.
Proof.
  induction fuel as [|fuel IH]; intros n len buf out Hb; simpl.
  - destruct (n <? len); [discriminate|]. intros E. inversion E. now subst.
  - destruct (n <? len); [|intros E; inversion E; now subst].
    destruct (load buf n) as [b|]; [|discriminate].
    destruct (store buf n (convert_byte b)) as [buf'|] eqn:Es; [|discriminate].
    apply IH. unfold store in Es. destruct (n <? 0); [discriminate|].
    eapply store_at_bytes; [exact Hb | apply convert_byte_range | exact Es].
Qed.

Lemma sync_body_in_range (obs samp_rate : Z) (ev : sync_read) (st : state) :
  Forall is_byte (rd_data ev) -> capture_in_range st ->
  capture_in_range (snd (sync_body obs samp_rate ev st)).
Proof.
  intros Hdata (Hbuf & Hmon & Hrep).
  set (st0 := if rd_signal ev then sighandler st else st).
  assert (H0 : capture_in_range st0 /\ buffer st0 = buffer st).
  { unfold st0. destruct (rd_signal ev); (split; [|reflexivity]).
    - unfold capture_in_range. simpl. rewrite reports_app, app_nil_r. tauto.
    - unfold capture_in_range. tauto. }
  destruct H0 as [(Hbuf0 & Hmon0 & Hrep0) Eb].
  unfold sync_body. fold st0.
  destruct (rd_r ev <? 0).
  { unfold capture_in_range. simpl. rewrite reports_app, app_nil_r. tauto. }
  assert (Hb0 : Forall is_byte (rd_data ev ++ skipn (length (rd_data ev)) (buffer st0))).
  { apply Forall_app. split; [exact Hdata|].
    rewrite <- (firstn_skipn (length (rd_data ev)) (buffer st0)) in Hbuf0.
    apply Forall_app in Hbuf0. tauto. }
  destruct (power_monitor _ _ _ _) as [[m' out]| |] eqn:Em;
    [|unfold capture_in_range; tauto ..].
  destruct (power_monitor_in_range _ _ _ _ _ _ Hb0 Hmon0 Em) as [Hm' Hout].
  destruct (convert _ _) as [buffer1| |] eqn:Ec;
    [|unfold capture_in_range; tauto ..].
  apply (convert_loop_bytes _ _ _ _ _ Hb0) in Ec.
  destruct (fwrite _ _) as [w f'].
  assert (Hrep' : Forall report_in_range (reports (stderr st0 ++ out)))
    by (rewrite reports_app; apply Forall_app; now split).
  destruct (negb _);
    [unfold capture_in_range; simpl; rewrite reports_app, app_nil_r; tauto|].
  destruct (_ <? _);
    [unfold capture_in_range; simpl; rewrite reports_app, app_nil_r; tauto|].
  unfold capture_in_range. simpl. tauto.
Qed.

(** X9: in a synchronous capture of bytes started with fresh accumulators,
    every report has both peaks between 0 and 1 (full scale), so a printed
    peak level is never above 0; this holds for every count, odd ones
    included, and every sample rate.  A square reaches 1 only for the raw
    byte 0: the raw byte 255 stays below full scale. *)
Theorem reported_peaks_at_most_full_scale
  (obs samp_rate : Z) (reads : list sync_read) (st : state)
  (Hreads : Forall (fun ev => Forall is_byte (rd_data ev)) reads)
  (Hblock : Forall is_byte (buffer st))
  (Hfresh : mon st = monitor_init /\ reports (stderr st) = []) :
  (forall r,
     In r (reports (stderr (snd (sync_loop obs samp_rate reads st)))) ->
     (0 <= rep_ipeak r)%Q /\ (rep_ipeak r <= 1)%Q /\
     (0 <= rep_qpeak r)%Q /\ (rep_qpeak r <= 1)%Q /\
     ((0 < rep_ipeak r)%Q -> (printed_ipeak r <= 0)%R) /\
     ((0 < rep_qpeak r)%Q -> (printed_qpeak r <= 0)%R)) /\
  (forall b, is_byte b -> ((normalize b * normalize b == 1)%Q <-> b = 0)).
Proof.
  split; [|exact full_scale_only_from_zero].
  destruct Hfresh as [Hmon Hlog].
  assert (Hok : capture_in_range st).
  { unfold capture_in_range. rewrite Hmon, Hlog.
    split; [exact Hblock|]. split; [|constructor].
    unfold peaks_in_range. simpl. repeat split; lra. }
  clear Hmon Hlog Hblock.
  assert (Hall : capture_in_range (snd (sync_loop obs samp_rate reads st))).
  { revert st Hok. induction Hreads as [|ev reads Hev Hreads IH]; intros st Hok; simpl.
    - destruct (do_exit st); exact Hok.
    - destruct (do_exit st); [exact Hok|].
      pose proof (sync_body_in_range obs samp_rate ev st Hev Hok) as H1.
      destruct (sync_body obs samp_rate ev st) as [[why|] st1]; [exact H1|].
      apply IH. exact H1. }
  destruct Hall as (_ & _ & Hrep).
  intros r Hr. rewrite Forall_forall in Hrep. exact (Hrep r Hr).
Qed.

Lemma reported_peaks_at_most_full_scale_witness :
  let st := mkState false 0 [9; 9; 9; 9; 9; 9; 9; 9] monitor_init (mkFILE [] []) [] 0 in
  let reads := [mkRead 0 [0; 255; 192; 128; 64; 128; 7] false] in
  exists r,
    reports (stderr (snd (sync_loop 8 1 reads st))) = [r] /\
    (rep_ipeak r <= 1)%Q /\ (rep_qpeak r <= 1)%Q.
Proof.
  intros st reads.
  assert (H1 : Forall (fun ev => Forall is_byte (rd_data ev)) reads)
    by (repeat constructor; unfold is_byte; lia).
  assert (H2 : Forall is_byte (buffer st))
    by (repeat constructor; unfold is_byte; lia).
  assert (H3 : mon st = monitor_init /\ reports (stderr st) = [])
    by (split; reflexivity).
  destruct (reported_peaks_at_most_full_scale 8 1 reads st H1 H2 H3) as [H _].
  assert (E : exists r, reports (stderr (snd (sync_loop 8 1 reads st))) = [r])
    by (vm_compute; eexists; reflexivity).
  destruct E as [r E]. exists r. split; [exact E|].
  destruct (H r) as (_ & A & _ & B & _); [rewrite E; left; reflexivity|].
  split; assumption.
Defined.

(** ** The cadence of the reports *)

Lemma sync_loop_app (obs samp_rate : Z) (a b : list sync_read) :
  forall st,
  sync_loop obs samp_rate (a ++ b) st
  = match sync_loop obs samp_rate a st with
    | (None, st') => sync_loop obs samp_rate b st'
    | (Some why, st') => (Some why, st')
    end.
Proof.
  induction a as [|ev a IH]; intros st; simpl.
  - destruct (do_exit st) eqn:E; [|reflexivity].
    destruct b; simpl; rewrite E; reflexivity.
  - destruct (do_exit st); [reflexivity|].
    destruct (sync_body obs samp_rate ev st) as [[why|] st1]; [reflexivity|].
    apply IH.
Qed.

(** A full block of whole pairs with no budget set, on a stream that takes
    every write: the trip goes back to the loop test, and the monitor either
    adds the pairs of the block to its counter or reports and starts again. *)
Lemma sync_body_full_block (obs samp_rate : Z) (ev : sync_read) (st : state) :
  Z.even obs = true -> 0 < obs ->
  report_threshold samp_rate + obs < 2 ^ 31 ->
  full_block obs ev ->
  do_exit st = false -> f_accept (file st) = [] -> bytes_to_read st = 0 ->
  0 <= interval (mon st) <= report_threshold samp_rate ->
  exists st',
    sync_body obs samp_rate ev st = (None, st') /\
    do_exit st' = false /\ f_accept (file st') = [] /\ bytes_to_read st' = 0 /\
    (interval (mon st) + obs / 2 <= report_threshold samp_rate ->
       interval (mon st') = interval (mon st) + obs / 2 /\ stderr st' = stderr st) /\
    (report_threshold samp_rate < interval (mon st) + obs / 2 ->
       mon st' = mkMonitor 0 0 0 0 0 /\ exists r, stderr st' = stderr st ++ [MsgPeak r]).
Proof.
  intros Heven Hobs Hfit (Hr & Hsig & Hlen) Hrun Hscript Hbudget Hint.
  pose proof (report_threshold_range samp_rate) as HT.
  assert (Hover : over_budget (Z.of_nat (length (rd_data ev))) st = false)
    by (unfold over_budget; rewrite Hbudget; reflexivity).
  assert (Hn : sync_count ev st = obs)
    by (unfold sync_count; rewrite Hover; exact Hlen).
  set (buffer0 := rd_data ev ++ skipn (length (rd_data ev)) (buffer st)).
  assert (Hb0 : 0 <= obs <= Z.of_nat (length buffer0))
    by (unfold buffer0; rewrite length_app; lia).
  set (a := accumulate_pairs (firstn (Z.to_nat obs) buffer0) (mon st)).
  assert (Ha : interval a = interval (mon st)).
  { destruct (accumulate_pairs_spec (firstn (Z.to_nat obs) buffer0) (mon st) (mon st)
                (Qeq_refl _) (Qeq_refl _) (Qeq_refl _) (Qeq_refl _))
      as (_ & _ & _ & _ & K & _). exact K. }
  assert (Hm : power_monitor samp_rate (sync_count ev st) buffer0 (mon st)
               = Done (monitor_report samp_rate obs a)).
  { rewrite Hn. unfold power_monitor. now rewrite monitor_loop_even. }
  destruct (monitor_report samp_rate obs a) as [m' out] eqn:Er.
  pose proof (sync_body_accepting obs samp_rate ev st m' out Hr ltac:(lia) Hscript Hm) as E.
  cbv zeta in E. rewrite Hsig, Hover, Hn, Hrun, Hbudget, Z.ltb_irrefl in E.
  simpl in E.
  eexists. split; [exact E|]. simpl.
  split; [reflexivity|]. split; [reflexivity|]. split; [reflexivity|].
  assert (Hdiv : 0 <= obs / 2 <= obs) by (Z.to_euclidean_division_equations; lia).
  unfold monitor_report in Er. rewrite Ha in Er.
  rewrite s32_small, u32_small in Er by lia.
  split; intros H.
  - destruct (_ >? _) eqn:Eg in Er.
    + rewrite Z.gtb_ltb in Eg. apply Z.ltb_lt in Eg. lia.
    + inversion Er; subst. simpl. split; [reflexivity | apply app_nil_r].
  - destruct (_ >? _) eqn:Eg in Er.
    + inversion Er; subst. split; [reflexivity|]. eexists. reflexivity.
    + rewrite Z.gtb_ltb in Eg. apply Z.ltb_ge in Eg. lia.
Qed.

Lemma Forall_prefix (A : Type) (P : A -> Prop) (j : nat) (l : list A) :
  Forall P l -> Forall P (firstn j l).
Proof.
  intros H. rewrite <- (firstn_skipn j l) in H.
  apply Forall_app in H. tauto.
Qed.

(** Blocks that do not fill the window are taken without a report. *)
Lemma sync_loop_quiet_blocks (obs samp_rate : Z) (reads : list sync_read) :
  Z.even obs = true -> 0 < obs ->
  report_threshold samp_rate + obs < 2 ^ 31 ->
  Forall (full_block obs) reads ->
  forall st,
  do_exit st = false -> f_accept (file st) = [] -> bytes_to_read st = 0 ->
  0 <= interval (mon st) ->
  interval (mon st) + Z.of_nat (length reads) * (obs / 2) <= report_threshold samp_rate ->
  exists st',
    sync_loop obs samp_rate reads st = (None, st') /\
    do_exit st' = false /\ f_accept (file st') = [] /\ bytes_to_read st' = 0 /\
    interval (mon st') = interval (mon st) + Z.of_nat (length reads) * (obs / 2) /\
    stderr st' = stderr st.
Proof.
  intros Heven Hobs Hfit Hreads.
  assert (Hdiv : 0 < obs / 2).
  { apply Z.even_spec in Heven. destruct Heven as [h Hh].
    Z.to_euclidean_division_equations; lia. }
  induction Hreads as [|ev reads Hev Hreads IH]; intros st Hrun Hscript Hbudget H0 Hroom.
  - exists st. simpl. rewrite Hrun. repeat split; try assumption; lia.
  - simpl length in Hroom. rewrite Nat2Z.inj_succ in Hroom.
    assert (0 <= Z.of_nat (length reads) * (obs / 2)) by nia.
    destruct (sync_body_full_block obs samp_rate ev st Heven Hobs Hfit Hev
                Hrun Hscript Hbudget ltac:(nia))
      as (st1 & Hbody & Hrun1 & Hscript1 & Hbudget1 & Hquiet & _).
    destruct Hquiet as [Hi1 Hlog1]; [nia|].
    destruct (IH st1 Hrun1 Hscript1 Hbudget1 ltac:(lia) ltac:(nia))
      as (st' & Hloop & Hrun' & Hscript' & Hbudget' & Hi' & Hlog').
    exists st'.
    split; [simpl; rewrite Hrun, Hbody; exact Hloop|].
    split; [exact Hrun'|]. split; [exact Hscript'|].
    split; [exact Hbudget'|]. split; [|congruence].
    rewrite Hi', Hi1.
    change (length (ev :: reads)) with (S (length reads)).
    rewrite Nat2Z.inj_succ. nia.
Qed.

(** X10: the cadence of the reports, counted in blocks.  With full blocks
    of [obs] bytes ([obs] even), no budget and fresh accumulators, write
    T for the threshold, P = obs / 2 for the pairs of a block and
    k = T / P + 1.  Then the first k - 1 blocks emit nothing, the k-th emits
    exactly one report and leaves the accumulators fresh again; the window
    of a report is therefore k * P pairs, the least whole number of blocks
    above T. *)
Theorem report_every_k_blocks (obs samp_rate : Z) (reads : list sync_read) (st : state)
  (Hobs : Z.even obs = true /\ 0 < obs)
  (Hfit : report_threshold samp_rate + obs < 2 ^ 31)
  (Hreads : Forall (full_block obs) reads)
  (Hstart : do_exit st = false /\ f_accept (file st) = [] /\ bytes_to_read st = 0)
  (Hfresh : mon st = monitor_init)
  (Hcount : Z.of_nat (length reads) = report_threshold samp_rate / (obs / 2) + 1) :
  let T := report_threshold samp_rate in
  let P := obs / 2 in
  let k := T / P + 1 in
  (k - 1) * P <= T < k * P /\
  (forall j, (j < length reads)%nat ->
     exists st',
       sync_loop obs samp_rate (firstn j reads) st = (None, st') /\
       interval (mon st') = Z.of_nat j * P /\ stderr st' = stderr st) /\
  exists st' r,
    sync_loop obs samp_rate reads st = (None, st') /\
    mon st' = monitor_init /\
    stderr st' = stderr st ++ [MsgPeak r].
Proof.
  intros T P k. destruct Hobs as [Heven Hpos].
  destruct Hstart as (Hrun & Hscript & Hbudget).
  pose proof (report_threshold_range samp_rate) as HT. fold T in HT.
  assert (HP : 0 < P).
  { unfold P. apply Z.even_spec in Heven. destruct Heven as [h Hh].
    Z.to_euclidean_division_equations; lia. }
  assert (Hk : (k - 1) * P <= T < k * P).
  { unfold k. pose proof (Z.div_mod T P ltac:(lia)) as D.
    pose proof (Z.mod_pos_bound T P HP) as M. nia. }
  assert (Hi0 : interval (mon st) = 0) by (rewrite Hfresh; reflexivity).
  assert (Hquiet : forall j, (j < length reads)%nat ->
            exists st',
              sync_loop obs samp_rate (firstn j reads) st = (None, st') /\
              do_exit st' = false /\ f_accept (file st') = [] /\ bytes_to_read st' = 0 /\
              interval (mon st') = Z.of_nat j * P /\ stderr st' = stderr st).
  { intros j Hj.
    assert (Hlen : length (firstn j reads) = j) by (rewrite length_firstn; lia).
    destruct (sync_loop_quiet_blocks obs samp_rate (firstn j reads) Heven Hpos Hfit
                (Forall_prefix _ _ j _ Hreads) st Hrun Hscript Hbudget ltac:(lia))
      as (st' & A & B & C & D & E & F).
    { rewrite Hi0, Hlen. fold P T. fold T P k in Hcount. nia. }
    exists st'. rewrite Hi0, Hlen in E. fold P in E.
    repeat split; try assumption; lia. }
  split; [exact Hk|].
  split.
  { intros j Hj. destruct (Hquiet j Hj) as (st' & A & _ & _ & _ & E & F).
    exists st'. repeat split; assumption. }
  fold T P k in Hcount.
  destruct reads as [|ev0 reads0] eqn:Ereads; [simpl in Hcount; lia|].
  rewrite <- Ereads in *.
  destruct (exists_last (l := reads)) as (front & last & Esplit);
    [rewrite Ereads; discriminate|].
  assert (Hfl : length reads = S (length front))
    by (rewrite Esplit, length_app; simpl; lia).
  destruct (Hquiet (length front) ltac:(lia)) as (st1 & A & B & C & D & E & F).
  assert (Efront : firstn (length front) reads = front).
  { rewrite Esplit, firstn_front by lia. apply firstn_all. }
  rewrite Efront in A.
  assert (Hlast : full_block obs last).
  { rewrite Esplit in Hreads. apply Forall_app in Hreads.
    destruct Hreads as [_ Hl]. now inversion Hl. }
  destruct (sync_body_full_block obs samp_rate last st1 Heven Hpos Hfit Hlast B C D)
    as (st' & Hbody & Hrun' & _ & _ & _ & Hreport).
  { fold T. rewrite E. nia. }
  destruct Hreport as (Hm & r & Hlog).
  { fold T P. rewrite E. nia. }
  exists st', r.
  rewrite Esplit, sync_loop_app, A. simpl. rewrite B, Hbody, Hrun'.
  split; [reflexivity|]. split; [exact Hm|]. now rewrite Hlog, F.
Qed.

Lemma report_every_k_blocks_witness :
  let st := mkState false 0 [9; 9; 9; 9] monitor_init (mkFILE [] []) [] 0 in
  let block := mkRead 0 [0; 128; 255; 128] false in
  exists st' r,
    sync_loop 4 2 [block; block; block] st = (None, st') /\
    mon st' = monitor_init /\ stderr st' = [MsgPeak r].
Proof.
  intros st block.
  assert (H1 : Z.even 4 = true /\ 0 < 4) by (split; reflexivity).
  assert (H2 : report_threshold 2 + 4 < 2 ^ 31) by reflexivity.
  assert (H3 : Forall (full_block 4) [block; block; block])
    by (repeat constructor; simpl; lia).
  assert (H4 : do_exit st = false /\ f_accept (file st) = [] /\ bytes_to_read st = 0)
    by (repeat split; reflexivity).
  assert (H5 : mon st = monitor_init) by reflexivity.
  assert (H6 : Z.of_nat (length [block; block; block])
               = report_threshold 2 / (4 / 2) + 1) by reflexivity.
  pose proof (report_every_k_blocks 4 2 [block; block; block] st H1 H2 H3 H4 H5 H6) as H.
  cbv zeta in H. destruct H as (_ & _ & st' & r & A & B & C).
  exists st', r. split; [exact A|]. split; [exact B | exact C].
Defined.

(** ** The file as a whole *)

Lemma read_async_unlimited (events : list async_event) :
  deliveries events ->
  forall st,
  do_exit st = false -> f_accept (file st) = [] -> bytes_to_read st = 0 ->
  exists st',
    read_async events st = Done st' /\
    do_exit st' = false /\ cancels st' = cancels st /\ bytes_to_read st' = 0 /\
    file st' = mkFILE (f_data (file st) ++ map convert_byte (concat (delivered events))) [].
Proof.
  induction 1 as [|[buf|] events Hev Hevents IH]; intros st Hrun Hscript Hbudget.
  - exists st. simpl. rewrite app_nil_r.
    repeat split; try assumption. destruct (file st); simpl in *; now subst.
  - pose proof (rtlsdr_callback_accepting buf st Hrun Hev Hscript) as E.
    cbv zeta in E.
    assert (Hover : over_budget (u32 (Z.of_nat (length buf))) st = false)
      by (unfold over_budget; rewrite Hbudget; reflexivity).
    assert (Hlen : callback_len buf st = Z.of_nat (length buf)).
    { unfold callback_len. rewrite Hover. apply u32_small. lia. }
    rewrite Hover, Hlen, Hbudget, Nat2Z.id, firstn_all in E. simpl in E.
    match type of E with
    | _ = Done ?s =>
        destruct (IH s eq_refl eq_refl eq_refl) as (st' & A & B & C & D & F)
    end.
    exists st'. simpl. rewrite E.
    split; [exact A|]. split; [exact B|]. split; [exact C|]. split; [exact D|].
    rewrite F. simpl. now rewrite map_app, app_assoc.
  - contradiction.
Qed.

(** X11: the file of an asynchronous capture with no budget, on a stream
    that takes every write: [main] leaves the bytes that were there, then the
    104 bytes of the header, then the converted bytes of every delivered
    block in order, and nothing else; no cancellation is asked for.  Applying
    the byte map once more to what follows the header gives the raw samples
    back. *)
Theorem async_capture_file (o : options) (w : world)
  (Hmode : opt_sync_mode o = false)
  (Hbudget : opt_bytes_to_read o = 0)
  (Hfile : f_accept (w_file w) = [])
  (Hevents : deliveries (w_events w)) :
  let raw := concat (delivered (w_events w)) in
  let header :=
    concat (header_images (w_now w) (opt_samp_rate o) (opt_frequency o) 8) in
  exists st,
    main o w = Capture None st /\
    length header = 104%nat /\
    f_data (file st) = f_data (w_file w) ++ header ++ map convert_byte raw /\
    do_exit st = false /\ cancels st = 0%nat /\
    (Forall is_byte raw ->
     map convert_byte (skipn (length (f_data (w_file w)) + 104) (f_data (file st)))
     = raw).
Proof.
  intros raw header. unfold main.
  destruct (check_block_size (opt_out_block_size o)) as [obs warn].
  rewrite wave_header_as_seq, write_seq_complete by exact Hfile.
  rewrite Hmode. fold header.
  match goal with
  | |- context [read_async _ ?s] =>
      destruct (read_async_unlimited (w_events w) Hevents s eq_refl eq_refl Hbudget)
        as (st' & A & B & C & D & F)
  end.
  exists st'. rewrite A.
  assert (Hlen : length header = 104%nat) by reflexivity.
  split; [reflexivity|]. split; [exact Hlen|].
  simpl in F, C. rewrite F. simpl. fold raw.
  split; [now rewrite <- app_assoc|].
  split; [exact B|]. split; [exact C|].
  intros Hraw.
  rewrite <- Hlen, <- length_app, skipn_app, Nat.sub_diag.
  rewrite skipn_all. simpl. now apply map_convert_byte_twice.
Qed.

Lemma async_capture_file_witness :
  let o := mkOptions 2048000 100000000 512 0 false in
  let w := mkWorld (mkTm 30 15 12 30 9 126) (fun _ => 0) (mkFILE [] [])
                   [] [Deliver [128; 129]; Deliver [0; 255]] in
  exists st,
    main o w = Capture None st /\
    skipn 104 (f_data (file st)) = [0; 1; 128; 127].
Proof.
  intros o w.
  assert (H1 : opt_sync_mode o = false) by reflexivity.
  assert (H2 : opt_bytes_to_read o = 0) by reflexivity.
  assert (H3 : f_accept (w_file w) = []) by reflexivity.
  assert (H4 : deliveries (w_events w)) by (repeat constructor).
  pose proof (async_capture_file o w H1 H2 H3 H4) as H. cbv zeta in H.
  destruct H as (st & A & _ & B & _).
  exists st. split; [exact A|]. rewrite B. reflexivity.
Defined.

(** ** Never more than what was read *)

Lemma fwrite_growth (data : list Z) (f : FILE) :
  (length (f_data (snd (fwrite data f))) <= length (f_data f) + length data)%nat.
Proof.
  unfold fwrite. destruct (f_accept f) as [|k rest]; simpl; rewrite length_app.
  - lia.
  - rewrite length_firstn. lia.
Qed.

Lemma sync_body_growth (obs samp_rate : Z) (ev : sync_read) (st : state) :
  Z.of_nat (length (rd_data ev)) < 2 ^ 31 ->
  (length (f_data (file (snd (sync_body obs samp_rate ev st))))
   <= length (f_data (file st)) + length (rd_data ev))%nat.
Proof.
  intros Hint.
  unfold sync_body.
  set (st0 := if rd_signal ev then sighandler st else st).
  assert (E0 : file st0 = file st /\ sync_count ev st0 = sync_count ev st)
    by (unfold st0; destruct (rd_signal ev); split; reflexivity).
  destruct E0 as [Ef Ec].
  pose proof (sync_count_range ev st Hint) as Hn.
  destruct (rd_r ev <? 0); [simpl; rewrite Ef; lia|].
  destruct (power_monitor _ _ _ _) as [[m' out]| |]; try (simpl; rewrite Ef; lia).
  destruct (convert _ _) as [b1| |]; try (simpl; rewrite Ef; lia).
  rewrite Ec, Ef.
  match goal with
  | |- context [fwrite ?d ?f] =>
      pose proof (fwrite_growth d f) as G;
      assert (L : (length d <= length (rd_data ev))%nat)
        by (rewrite length_firstn; lia);
      destruct (fwrite d f) as [w f']
  end.
  simpl in G.
  destruct (negb _); [simpl; lia|].
  destruct (_ <? _); simpl; lia.
Qed.

Lemma rtlsdr_callback_growth (buf : list Z) (st st' : state) :
  Z.of_nat (length buf) < 2 ^ 32 ->
  rtlsdr_callback buf st = Done st' ->
  (length (f_data (file st')) <= length (f_data (file st)) + length buf)%nat.
Proof.
  intros Hint. pose proof (callback_len_range buf st Hint) as Hn.
  unfold rtlsdr_callback.
  destruct (do_exit st); [intros H; inversion H; lia|].
  set (st0 := if over_budget _ st then rtlsdr_cancel_async (set_do_exit st) else st).
  assert (Ef : file st0 = file st)
    by (unfold st0; destruct (over_budget _ st); reflexivity).
  destruct (convert _ _) as [b1| |]; try discriminate.
  rewrite Ef.
  match goal with
  | |- context [fwrite ?d ?f] =>
      pose proof (fwrite_growth d f) as G;
      assert (L : (length d <= length buf)%nat) by (rewrite length_firstn; lia);
      destruct (fwrite d f) as [w f']
  end.
  simpl in G. intros H. inversion H. simpl.
  destruct (negb _); simpl; lia.
Qed.

(** X12: neither capture path ever writes more sample bytes than the device
    handed over, whatever the stream accepts, whatever the budget and
    whatever the counts (odd ones included): the file grows by at most the
    total length of the reads, or of the delivered blocks. *)
Theorem never_more_than_read :
  (forall obs samp_rate reads st,
     Forall (fun ev => Z.of_nat (length (rd_data ev)) < 2 ^ 31) reads ->
     (length (f_data (file (snd (sync_loop obs samp_rate reads st))))
      <= length (f_data (file st)) + bytes_read reads)%nat) /\
  (forall events st st',
     Forall (fun buf => Z.of_nat (length buf) < 2 ^ 32) (delivered events) ->
     read_async events st = Done st' ->
     (length (f_data (file st'))
      <= length (f_data (file st)) + length (concat (delivered events)))%nat).
Proof.
  split.
  - intros obs samp_rate reads st Hreads. revert st.
    induction Hreads as [|ev reads Hev Hreads IH]; intros st; simpl.
    + destruct (do_exit st); simpl; lia.
    + destruct (do_exit st); [simpl; lia|].
      pose proof (sync_body_growth obs samp_rate ev st Hev) as G.
      destruct (sync_body obs samp_rate ev st) as [[why|] st1]; simpl in *; [lia|].
      specialize (IH st1). lia.
  - intros events. induction events as [|[buf|] events IH]; intros st st' Hall H;
      simpl in *.
    + inversion H. lia.
    + inversion Hall; subst.
      destruct (rtlsdr_callback buf st) as [st1| |] eqn:E; try discriminate.
      apply rtlsdr_callback_growth in E; [|assumption].
      specialize (IH st1 st' ltac:(assumption) H).
      rewrite length_app. lia.
    + specialize (IH (sighandler st) st' Hall H). simpl in IH. exact IH.
Qed.

Lemma never_more_than_read_witness :
  let st := mkState false 0 [9; 9; 9; 9] monitor_init (mkFILE [] [1%nat]) [] 0 in
  le (length (f_data (file (snd (sync_loop 4 1 [mkRead 0 [1; 2; 3] false] st))))) 3.
Proof.
  intros st.
  assert (H : Forall (fun ev => Z.of_nat (length (rd_data ev)) < 2 ^ 31)
                     [mkRead 0 [1; 2; 3] false])
    by (repeat constructor).
  exact (proj1 never_more_than_read 4 1 [mkRead 0 [1; 2; 3] false] st H).
Defined.

(** ** Reading the header back *)

Lemma from_le32_le32 (x : Z) : 0 <= x < 2 ^ 32 -> from_le32 (le32 x) = x.
Proof.
  intros H. unfold from_le32, le32. change (2 ^ 32) with 4294967296 in H.
  Z.to_euclidean_division_equations; lia.
Qed.

Lemma from_le16_le16 (x : Z) : 0 <= x < 2 ^ 16 -> from_le16 (le16 x) = x.
Proof.
  intros H. unfold from_le16, le16. change (2 ^ 16) with 65536 in H.
  Z.to_euclidean_division_equations; lia.
Qed.

(** X13: the fields of the header can be read back at fixed offsets,
    whatever the clock and the other arguments: the sample rate at byte 24,
    the byte rate at 28 (twice the sample rate modulo 2^32 for 8-bit
    samples), the block alignment at 32, the centre frequency at 76, and the
    year, month and day of the start time at 44, 46 and 50, for a calendar
    date the clock can give. *)
Theorem header_fields_read_back (now : tm) (samp_rate freq : Z)
  (Hrate : 0 <= samp_rate < 2 ^ 32) (Hfreq : 0 <= freq < 2 ^ 32)
  (Hdate : 0 <= tm_year now + 1900 < 2 ^ 16 /\
           0 <= tm_mon now <= 11 /\ 1 <= tm_mday now <= 31) :
  let header := concat (header_images now samp_rate freq 8) in
  from_le32 (field 24 4 header) = samp_rate /\
  from_le32 (field 28 4 header) = (2 * samp_rate) mod 2 ^ 32 /\
  from_le16 (field 32 2 header) = 2 /\
  from_le16 (field 34 2 header) = 8 /\
  from_le32 (field 76 4 header) = freq /\
  from_le16 (field 44 2 header) = tm_year now + 1900 /\
  from_le16 (field 46 2 header) = tm_mon now + 1 /\
  from_le16 (field 50 2 header) = tm_mday now.
Proof.
  intros header. subst header.
  unfold header_images, concat, field,
    bytes_of_riff, bytes_of_chunk, bytes_of_fmt, bytes_of_auxi, bytes_of_datetime,
    header_riff, header_fmt, header_auxi, set_datetime, zero_auxi, zero_datetime.
  cbn [riff_id riff_size riff_type chunk_id chunk_size
       format_tag channels samples_per_sec data_rate block_size bits_per_sample
       start_time stop_time frequency sample_frequency if_frequency bandwidth dc_offset
       year month day_of_week day hour minute second milliseconds].
  rewrite !le16_u16, !le32_u32.
  change (u16 8) with 8. change (2 * 8 / 8) with 2.
  cbn [Tag.strncpy Tag.chars Tag.RIFF Tag.WAVE Tag.fmt Tag.auxi Tag.data
       String.list_ascii_of_string map app firstn skipn repeat le16 le32].
  repeat split.
  - apply (from_le32_le32 samp_rate Hrate).
  - change (from_le32 (le32 (2 * u32 samp_rate)) = (2 * samp_rate) mod 2 ^ 32).
    replace (le32 (2 * u32 samp_rate)) with (le32 (u32 (2 * samp_rate))).
    + apply from_le32_le32. apply Z.mod_pos_bound. lia.
    + rewrite <- (le32_u32 (2 * u32 samp_rate)). f_equal.
      unfold u32. now rewrite Z.mul_mod_idemp_r by lia.
  - apply (from_le32_le32 freq Hfreq).
  - apply from_le16_le16. lia.
  - apply from_le16_le16. lia.
  - apply from_le16_le16. lia.
Qed.

Lemma header_fields_read_back_witness :
  let header := concat (header_images (mkTm 30 15 12 30 9 126) 2048000 100000000 8) in
  from_le32 (field 24 4 header) = 2048000 /\
  from_le32 (field 28 4 header) = 4096000 /\
  from_le32 (field 76 4 header) = 100000000 /\
  from_le16 (field 44 2 header) = 2026.
Proof.
  assert (H1 : 0 <= 2048000 < 2 ^ 32) by lia.
  assert (H2 : 0 <= 100000000 < 2 ^ 32) by lia.
  assert (H3 : 0 <= tm_year (mkTm 30 15 12 30 9 126) + 1900 < 2 ^ 16 /\
               0 <= tm_mon (mkTm 30 15 12 30 9 126) <= 11 /\
               1 <= tm_mday (mkTm 30 15 12 30 9 126) <= 31) by (simpl; lia).
  pose proof (header_fields_read_back (mkTm 30 15 12 30 9 126) 2048000 100000000
                H1 H2 H3) as H.
  cbv zeta in H. destruct H as (A & B & _ & _ & C & D & _).
  cbv zeta. split; [exact A|]. split; [exact B|]. split; [exact C | exact D].
Defined.

(** ** The options and the exit status *)

(** X14: the byte budget of [-n count] is always even and below 2^32; it is
    twice the count only while the count is below 2^31, and wraps above: a
    count of exactly 2^31 gives the budget 0, which both capture paths read
    as "no limit". *)
Theorem budget_of_count_wraps (count : Z) (Hcount : 0 <= count < 2 ^ 32) :
  Z.even (budget_of_count count) = true /\
  0 <= budget_of_count count < 2 ^ 32 /\
  (count < 2 ^ 31 -> budget_of_count count = 2 * count) /\
  (2 ^ 31 <= count -> budget_of_count count = 2 * count - 2 ^ 32) /\
  (budget_of_count count = 0 <-> count = 0 \/ count = 2 ^ 31) /\
  (forall len st, bytes_to_read st = budget_of_count (2 ^ 31) ->
                  over_budget len st = false).
Proof.
  assert (E : budget_of_count count = (2 * count) mod 2 ^ 32).
  { unfold budget_of_count. rewrite (u32_small count) by lia.
    unfold u64, u32. rewrite Z.mul_comm.
    apply Z.mod_small.
    pose proof (Z.mod_pos_bound (2 * count) (2 ^ 32) ltac:(lia)). lia. }
  assert (Hlow : count < 2 ^ 31 -> budget_of_count count = 2 * count)
    by (intros H; rewrite E; apply Z.mod_small; lia).
  assert (Hhigh : 2 ^ 31 <= count -> budget_of_count count = 2 * count - 2 ^ 32).
  { intros H. rewrite E. symmetry.
    apply (Z.mod_unique (2 * count) (2 ^ 32) 1); [left; lia | lia]. }
  assert (Hcases : count < 2 ^ 31 \/ 2 ^ 31 <= count) by lia.
  split.
  { destruct Hcases as [H|H]; [rewrite (Hlow H) | rewrite (Hhigh H)].
    - rewrite Z.even_mul. reflexivity.
    - rewrite Z.even_sub, Z.even_mul. reflexivity. }
  split.
  { destruct Hcases as [H|H]; [rewrite (Hlow H) | rewrite (Hhigh H)]; lia. }
  split; [exact Hlow|]. split; [exact Hhigh|].
  split.
  { destruct Hcases as [H|H]; [rewrite (Hlow H) | rewrite (Hhigh H)]; lia. }
  intros len st Hb. unfold over_budget. rewrite Hb. reflexivity.
Qed.

Lemma budget_of_count_wraps_witness :
  budget_of_count 131072 = 262144 /\ budget_of_count (2 ^ 31 + 5) = 10.
Proof.
  assert (H1 : 0 <= 131072 < 2 ^ 32) by lia.
  assert (H2 : 0 <= 2 ^ 31 + 5 < 2 ^ 32) by lia.
  split.
  - destruct (budget_of_count_wraps 131072 H1) as (_ & _ & A & _). apply A. lia.
  - destruct (budget_of_count_wraps (2 ^ 31 + 5) H2) as (_ & _ & _ & A & _).
    rewrite A by lia. reflexivity.
Defined.

Lemma sync_body_read_failed (obs samp_rate : Z) (ev : sync_read) (st : state) :
  (rd_r ev < 0 -> fst (sync_body obs samp_rate ev st) = Some ReadFailed) /\
  (0 <= rd_r ev -> fst (sync_body obs samp_rate ev st) <> Some ReadFailed).
Proof.
  unfold sync_body. split; intros H.
  - destruct (rd_r ev <? 0) eqn:E; [reflexivity | apply Z.ltb_ge in E; lia].
  - destruct (rd_r ev <? 0) eqn:E; [apply Z.ltb_lt in E; lia|].
    destruct (power_monitor _ _ _ _) as [[m' out]| |]; try discriminate.
    destruct (convert _ _) as [b1| |]; try discriminate.
    destruct (fwrite _ _) as [w f'].
    destruct (negb _); [discriminate|].
    destruct (u32 _ <? obs); discriminate.
Qed.

(** X15: the status [main] returns after a synchronous capture is the
    absolute value of the last return value of [rtlsdr_read_sync]: positive
    when the loop was left on a failed read, and the (non-negative) value of
    the last read in every other case.  A device that answers 0 to every
    read therefore gives the status 0 however the loop ended, after a short
    write or a short read as well. *)
Theorem exit_status_of_sync_capture
  (obs samp_rate : Z) (reads : list sync_read) (st : state) (r0 : Z)
  (Hopen : 0 <= r0) :
  let why := fst (sync_loop obs samp_rate reads st) in
  let r := sync_last_r obs samp_rate reads st r0 in
  (why = Some ReadFailed ->
     r < 0 /\ (- 2 ^ 31 < r -> exit_status r = - r /\ 0 < exit_status r)) /\
  (why <> Some ReadFailed -> 0 <= r /\ exit_status r = r) /\
  (r0 = 0 -> Forall (fun ev => rd_r ev = 0) reads -> exit_status r = 0).
Proof.
  intros why r. subst why r.
  assert (Hsign : (fst (sync_loop obs samp_rate reads st) = Some ReadFailed ->
                   sync_last_r obs samp_rate reads st r0 < 0) /\
                  (fst (sync_loop obs samp_rate reads st) <> Some ReadFailed ->
                   0 <= sync_last_r obs samp_rate reads st r0)).
  { revert st r0 Hopen. induction reads as [|ev reads IH]; intros st r0 Hopen; simpl.
    - destruct (do_exit st); simpl; split; intros H; (discriminate || exact Hopen).
    - destruct (do_exit st); [simpl; split; intros H; (discriminate || exact Hopen)|].
      destruct (sync_body_read_failed obs samp_rate ev st) as [F1 F2].
      destruct (sync_body obs samp_rate ev st) as [[why|] st1]; simpl in *.
      + split; intros H.
        * destruct (Z_lt_ge_dec (rd_r ev) 0) as [L|G]; [exact L|].
          exfalso. apply F2; [lia | exact H].
        * destruct (Z_lt_ge_dec (rd_r ev) 0) as [L|G]; [|lia].
          exfalso. apply H. now apply F1.
      + apply IH.
        destruct (Z_lt_ge_dec (rd_r ev) 0) as [L|G]; [|lia].
        specialize (F1 L). discriminate. }
  destruct Hsign as [Hneg Hpos].
  split; [|split].
  - intros H. specialize (Hneg H). split; [exact Hneg|].
    intros Hmin. unfold exit_status.
    destruct (_ >=? 0) eqn:E; [rewrite Z.geb_le in E; lia|].
    rewrite s32_small by lia. lia.
  - intros H. specialize (Hpos H). split; [exact Hpos|].
    unfold exit_status.
    destruct (_ >=? 0) eqn:E; [reflexivity|].
    rewrite Z.geb_leb in E. apply Z.leb_gt in E. lia.
  - intros H0 Hall.
    assert (Hz : sync_last_r obs samp_rate reads st r0 = 0).
    { subst r0. clear Hneg Hpos Hopen. revert st.
      induction Hall as [|ev reads Hev Hall IH]; intros st; simpl.
      - destruct (do_exit st); reflexivity.
      - destruct (do_exit st); [reflexivity|].
        destruct (sync_body obs samp_rate ev st) as [[why|] st1]; [exact Hev|].
        rewrite Hev. apply IH. }
    rewrite Hz. reflexivity.
Qed.

Lemma exit_status_of_sync_capture_witness :
  let st := mkState false 0 [9; 9] monitor_init (mkFILE [] [1%nat]) [] 0 in
  fst (sync_loop 2 1 [mkRead 0 [128; 129] false] st) = Some ShortWrite /\
  exit_status (sync_last_r 2 1 [mkRead 0 [128; 129] false] st 0) = 0.
Proof.
  intros st. split; [vm_compute; reflexivity|].
  assert (H : 0 <= 0) by lia.
  pose proof (exit_status_of_sync_capture 2 1 [mkRead 0 [128; 129] false] st 0 H) as E.
  cbv zeta in E. destruct E as (_ & _ & E).
  apply E; [reflexivity | repeat constructor].
Defined.

(** ** Output block size *)

(** A read that leaves fewer bytes than the block size, on a stream that
    takes every write, ends the synchronous loop as a short read. *)
Lemma sync_loop_short_read (obs samp_rate : Z) (ev : sync_read)
  (reads : list sync_read) (st : state) :
  do_exit st = false ->
  0 <= rd_r ev ->
  Z.of_nat (length (rd_data ev)) < 2 ^ 31 ->
  Z.even (sync_count ev st) = true \/ sync_count ev st < Z.of_nat (length (buffer st)) ->
  f_accept (file st) = [] ->
  sync_count ev st < obs ->
  fst (sync_loop obs samp_rate (ev :: reads) st) = Some ShortRead.
Proof.
  intros Hrun Hr Hint Hin Hscript Hshort.
  pose proof (sync_count_range ev st Hint) as Hn.
  set (buffer0 := rd_data ev ++ skipn (length (rd_data ev)) (buffer st)).
  assert (Hb0 : Z.of_nat (length buffer0)
                = Z.max (Z.of_nat (length (rd_data ev))) (Z.of_nat (length (buffer st)))).
  { unfold buffer0. rewrite length_app, length_skipn. lia. }
  destruct (power_monitor_returns samp_rate (sync_count ev st) buffer0 (mon st))
    as (m' & out & Hm); [lia | destruct Hin; [now left | right; lia] |].
  pose proof (sync_body_accepting obs samp_rate ev st m' out Hr Hint Hscript Hm) as Hb.
  cbv zeta in Hb.
  simpl. rewrite Hrun, Hb.
  destruct (sync_count ev st <? obs) eqn:E; [reflexivity|].
  apply Z.ltb_ge in E. lia.
Qed.

(** C8: a requested block size below [MINIMAL_BUF_LENGTH] (512) or above
    [MAXIMAL_BUF_LENGTH] (256 * 16384) is replaced by [DEFAULT_BUF_LENGTH]
    (16 * 16384) and a size within the bounds is kept unchanged; the check
    only logs its warning, and [main] never leaves on it: the only [exit]
    [main] can reach is the one of the header writer.  The size [used] that
    the check yields is the size [main] works with: once the header is
    written, the block [main] allocates has [used] bytes, the capture starts
    on that block with the warnings of the check as the only messages so
    far, and the synchronous loop runs with [used] as its block size, so
    that a read is short when it leaves fewer than [used] bytes.  The
    warnings are there exactly when the request is out of range. *)
Theorem C8_block_size_fallback (o : options) (w : world) :
  let requested := opt_out_block_size o in
  let used := fst (check_block_size requested) in
  MINIMAL_BUF_LENGTH = 512 /\ MAXIMAL_BUF_LENGTH = 256 * 16384 /\
  DEFAULT_BUF_LENGTH = 16 * 16384 /\
  (requested < MINIMAL_BUF_LENGTH \/ requested > MAXIMAL_BUF_LENGTH ->
     used = DEFAULT_BUF_LENGTH) /\
  (MINIMAL_BUF_LENGTH <= requested <= MAXIMAL_BUF_LENGTH ->
     check_block_size requested = (requested, [])) /\
  MINIMAL_BUF_LENGTH <= used <= MAXIMAL_BUF_LENGTH /\
  (forall code f, main o w = Exit code f ->
     wave_header (w_now w) (opt_samp_rate o) (opt_frequency o) 8 (w_file w)
     = (f, inr code)) /\
  (forall f,
     wave_header (w_now w) (opt_samp_rate o) (opt_frequency o) 8 (w_file w)
     = (f, inl tt) ->
     let block := map (w_heap w) (seq 0 (Z.to_nat used)) in
     let warnings := snd (check_block_size requested) in
     let st := mkState false (opt_bytes_to_read o) block monitor_init f warnings 0 in
     Z.of_nat (length block) = used /\
     (warnings = [] <-> MINIMAL_BUF_LENGTH <= requested <= MAXIMAL_BUF_LENGTH) /\
     main o w =
       if opt_sync_mode o then
         Capture (fst (sync_loop used (opt_samp_rate o) (w_reads w)
                                 (log [MsgSyncMode] st)))
                 (snd (sync_loop used (opt_samp_rate o) (w_reads w)
                                 (log [MsgSyncMode] st)))
       else
         match read_async (w_events w) (log [MsgAsyncMode] st) with
         | Done st' => Capture None st'
         | _ => Crash
         end) /\
  (forall f ev reads,
     wave_header (w_now w) (opt_samp_rate o) (opt_frequency o) 8 (w_file w)
     = (f, inl tt) ->
     opt_sync_mode o = true ->
     opt_bytes_to_read o = 0 ->
     f_accept f = [] ->
     w_reads w = ev :: reads ->
     0 <= rd_r ev ->
     Z.of_nat (length (rd_data ev)) < used ->
     exists st, main o w = Capture (Some ShortRead) st).
Proof.
  intros requested used.
  assert (Hout : requested < MINIMAL_BUF_LENGTH \/ requested > MAXIMAL_BUF_LENGTH ->
                 check_block_size requested
                 = (DEFAULT_BUF_LENGTH,
                    [MsgBlockSizeWrong; MsgMinimalLength MINIMAL_BUF_LENGTH;
                     MsgMaximalLength MAXIMAL_BUF_LENGTH])).
  { intros H. unfold check_block_size.
    destruct (requested <? MINIMAL_BUF_LENGTH) eqn:E1; [reflexivity|].
    destruct (requested >? MAXIMAL_BUF_LENGTH) eqn:E2; [reflexivity|].
    apply Z.ltb_ge in E1. rewrite Z.gtb_ltb in E2. apply Z.ltb_ge in E2. lia. }
  assert (Hin : MINIMAL_BUF_LENGTH <= requested <= MAXIMAL_BUF_LENGTH ->
                check_block_size requested = (requested, [])).
  { intros H. unfold check_block_size.
    destruct (requested <? MINIMAL_BUF_LENGTH) eqn:E1; [apply Z.ltb_lt in E1; lia|].
    destruct (requested >? MAXIMAL_BUF_LENGTH) eqn:E2; [|reflexivity].
    rewrite Z.gtb_ltb in E2. apply Z.ltb_lt in E2. lia. }
  assert (Hcases : (requested < MINIMAL_BUF_LENGTH \/ requested > MAXIMAL_BUF_LENGTH) \/
                   MINIMAL_BUF_LENGTH <= requested <= MAXIMAL_BUF_LENGTH) by lia.
  assert (Hused : MINIMAL_BUF_LENGTH <= used <= MAXIMAL_BUF_LENGTH).
  { subst used. destruct Hcases as [H|H].
    - rewrite (Hout H). simpl. vm_compute. split; discriminate.
    - rewrite (Hin H). exact H. }
  assert (Hmain : forall f,
     wave_header (w_now w) (opt_samp_rate o) (opt_frequency o) 8 (w_file w)
     = (f, inl tt) ->
     let block := map (w_heap w) (seq 0 (Z.to_nat used)) in
     let warnings := snd (check_block_size requested) in
     let st := mkState false (opt_bytes_to_read o) block monitor_init f warnings 0 in
     main o w =
       if opt_sync_mode o then
         Capture (fst (sync_loop used (opt_samp_rate o) (w_reads w)
                                 (log [MsgSyncMode] st)))
                 (snd (sync_loop used (opt_samp_rate o) (w_reads w)
                                 (log [MsgSyncMode] st)))
       else
         match read_async (w_events w) (log [MsgAsyncMode] st) with
         | Done st' => Capture None st'
         | _ => Crash
         end).
  { intros f Hf. subst used. unfold main. fold requested.
    destruct (check_block_size requested) as [obs warn]. cbv zeta. cbn [fst snd].
    rewrite Hf.
    destruct (opt_sync_mode o); [|reflexivity].
    destruct (sync_loop _ _ _ _). reflexivity. }
  assert (Hlen : Z.of_nat (length (map (w_heap w) (seq 0 (Z.to_nat used)))) = used).
  { rewrite length_map, length_seq. unfold MINIMAL_BUF_LENGTH in Hused. lia. }
  split; [reflexivity|]. split; [reflexivity|]. split; [reflexivity|].
  split; [intros H; subst used; now rewrite (Hout H)|].
  split; [exact Hin|].
  split; [exact Hused|].
  split; [|split].
  - intros code f. unfold main.
    destruct (check_block_size (opt_out_block_size o)) as [obs warn].
    destruct (wave_header _ _ _ _ _) as [f' [u|c]].
    + destruct (opt_sync_mode o);
        [destruct (sync_loop _ _ _ _); discriminate
        |destruct (read_async _ _); discriminate].
    + intros H. inversion H. reflexivity.
  - intros f Hf block warnings st.
    split; [exact Hlen|]. split; [|exact (Hmain f Hf)].
    subst warnings. destruct Hcases as [H|H].
    + rewrite (Hout H). split; [discriminate|]. intros H'. lia.
    + rewrite (Hin H). split; [intros _; exact H | reflexivity].
  - intros f ev reads Hf Hsync Hbudget Hscript Hreads Hr Hshort.
    pose proof (Hmain f Hf) as E. cbv zeta in E.
    rewrite Hsync, Hreads in E.
    eexists. rewrite E. f_equal.
    assert (Hcount : forall st, bytes_to_read st = 0 ->
                                sync_count ev st = Z.of_nat (length (rd_data ev))).
    { intros st Hb. unfold sync_count, over_budget. now rewrite Hb. }
    unfold MAXIMAL_BUF_LENGTH in Hused.
    apply sync_loop_short_read.
    + reflexivity.
    + exact Hr.
    + lia.
    + right. rewrite Hcount by exact Hbudget.
      change (Z.of_nat (length (rd_data ev))
              < Z.of_nat (length (map (w_heap w) (seq 0 (Z.to_nat used))))).
      rewrite Hlen. exact Hshort.
    + exact Hscript.
    + rewrite Hcount by exact Hbudget. exact Hshort.
Qed.

Lemma C8_block_size_witness :
  fst (check_block_size 100) = DEFAULT_BUF_LENGTH /\
  fst (check_block_size (300 * 16384)) = DEFAULT_BUF_LENGTH /\
  check_block_size 65536 = (65536, []) /\
  (* -b 100 -S: a first read of 512 bytes, more than the request, is short *)
  (let o := mkOptions DEFAULT_SAMPLE_RATE 100000000 100 0 true in
   let w := mkWorld (mkTm 0 0 0 1 0 126) (fun _ => 0) (mkFILE [] [])
                    [mkRead 0 (repeat 128 512%nat) false] [] in
   exists st, main o w = Capture (Some ShortRead) st).
Proof.
  pose (o := fun b => mkOptions DEFAULT_SAMPLE_RATE 100000000 b 0 false).
  pose (w := mkWorld (mkTm 0 0 0 1 0 126) (fun _ => 0) (mkFILE [] []) [] []).
  split; [|split; [|split]].
  - apply (C8_block_size_fallback (o 100) w). left. reflexivity.
  - apply (C8_block_size_fallback (o (300 * 16384)) w). right. reflexivity.
  - apply (C8_block_size_fallback (o 65536) w). split; discriminate.
  - intros o' w'.
    destruct (wave_header (w_now w') (opt_samp_rate o') (opt_frequency o') 8 (w_file w'))
      as [f r] eqn:E.
    assert (Er : r = inl tt /\ f_accept f = [])
      by (vm_compute in E; inversion E; split; reflexivity).
    destruct Er as [Er Ef]. subst r.
    pose proof (C8_block_size_fallback o' w') as H. cbv zeta in H.
    destruct H as (_ & _ & _ & _ & _ & _ & _ & _ & H).
    apply (H f (mkRead 0 (repeat 128 512%nat) false) []).
    + exact E.
    + reflexivity.
    + reflexivity.
    + exact Ef.
    + reflexivity.
    + simpl. lia.
    + reflexivity.
Defined.

(** ** More on counts, budgets and device trouble *)

(** X17: a budget of exactly one block does not end a synchronous capture:
    the first full block brings the budget to 0, which later trips read as
    "no limit", so with n full blocks served on a stream that takes every
    write the loop is still running and n * obs bytes have been written. *)
Theorem budget_of_one_block_never_ends
  (obs samp_rate : Z) (reads : list sync_read) (st : state)
  (Hobs : Z.even obs = true /\ 0 < obs < 2 ^ 31)
  (Hreads : Forall (full_block obs) reads)
  (Hstart : do_exit st = false /\ f_accept (file st) = [])
  (Hbudget : bytes_to_read st = obs) :
  exists st',
    sync_loop obs samp_rate reads st = (None, st') /\
    do_exit st' = false /\
    length (f_data (file st'))
    = (length (f_data (file st)) + length reads * Z.to_nat obs)%nat /\
    (reads <> [] -> bytes_to_read st' = 0).
Proof.
  destruct Hobs as [Heven Hobs]. destruct Hstart as [Hrun Hscript].
  destruct (sync_loop_budget_block obs samp_rate reads Heven Hobs Hreads st
              Hrun Hscript (or_introl Hbudget)) as (st' & A & B & C).
  exists st'. split; [exact A|]. split; [exact B|]. split; [exact C|].
  intros Hne. destruct reads as [|ev reads]; [contradiction|].
  apply Forall_cons_iff in Hreads. destruct Hreads as [Hev Hrest].
  destruct (sync_body_budget_block obs samp_rate ev st Heven Hobs Hev Hrun Hscript
              (or_introl Hbudget)) as (st1 & Hbody & Hb1 & Hrun1 & Hscript1 & _).
  simpl in A. rewrite Hrun, Hbody in A.
  clear Hbody Hev C Hne. revert st1 Hb1 Hrun1 Hscript1 A.
  induction Hrest as [|ev2 reads Hev2 Hrest IH]; intros st1 Hb1 Hrun1 Hscript1 A.
  - simpl in A. rewrite Hrun1 in A. inversion A. now subst.
  - destruct (sync_body_budget_block obs samp_rate ev2 st1 Heven Hobs Hev2 Hrun1 Hscript1
                (or_intror Hb1)) as (st2 & Hbody & Hb2 & Hrun2 & Hscript2 & _).
    simpl in A. rewrite Hrun1, Hbody in A.
    exact (IH st2 Hb2 Hrun2 Hscript2 A).
Qed.

Lemma budget_of_one_block_never_ends_witness :
  let st := mkState false 4 [9; 9; 9; 9] monitor_init (mkFILE [] []) [] 0 in
  let block := mkRead 0 [128; 129; 130; 131] false in
  exists st',
    sync_loop 4 2048000 [block; block; block] st = (None, st') /\
    length (f_data (file st')) = 12%nat.
Proof.
  intros st block.
  assert (H1 : Z.even 4 = true /\ 0 < 4 < 2 ^ 31) by (split; [reflexivity | lia]).
  assert (H2 : Forall (full_block 4) [block; block; block])
    by (repeat constructor; simpl; lia).
  assert (H3 : do_exit st = false /\ f_accept (file st) = []) by (split; reflexivity).
  assert (H4 : bytes_to_read st = 4) by reflexivity.
  destruct (budget_of_one_block_never_ends 4 2048000 [block; block; block] st H1 H2 H3 H4)
    as (st' & A & _ & B & _).
  exists st'. split; [exact A | exact B].
Defined.

(** X18: what the monitor does with an odd count.  Inside the block, the
    loop accumulates the pairs of the first [n_read + 1] bytes, the byte
    after the data included, while the counter advances by the
    [(n_read - 1) / 2] whole pairs only; when the odd count is the length of
    the block, the last trip reads outside the block. *)
Theorem odd_count_takes_one_more_byte
  (samp_rate n_read : Z) (buf : list Z) (m : monitor)
  (Hodd : Z.odd n_read = true)
  (Hlen : 0 <= n_read <= Z.of_nat (length buf)) :
  (n_read < Z.of_nat (length buf) ->
     power_monitor samp_rate n_read buf m
     = Done (monitor_report samp_rate n_read
               (accumulate_pairs (firstn (Z.to_nat (n_read + 1)) buf) m)) /\
     n_read / 2 = (n_read - 1) / 2 /\
     Z.of_nat (length (firstn (Z.to_nat (n_read + 1)) buf) / 2) = n_read / 2 + 1) /\
  (n_read = Z.of_nat (length buf) -> power_monitor samp_rate n_read buf m = Fault).
Proof.
  split.
  - intros H. unfold power_monitor. rewrite monitor_loop_odd by (assumption || lia).
    split; [reflexivity|].
    apply Z.odd_spec in Hodd. destruct Hodd as [h Hh].
    split; [Z.to_euclidean_division_equations; lia|].
    rewrite length_firstn, Nat.min_l by lia.
    rewrite Nat2Z.inj_div, Z2Nat.id by lia.
    change (Z.of_nat 2) with 2. Z.to_euclidean_division_equations; lia.
  - intros H. unfold power_monitor. now rewrite monitor_loop_odd_full.
Qed.

Lemma odd_count_takes_one_more_byte_witness :
  power_monitor 100 3 [128; 128; 0; 0; 7] monitor_init
  = Done (monitor_report 100 3 (accumulate_pairs [128; 128; 0; 0] monitor_init)) /\
  power_monitor 100 3 [128; 128; 0] monitor_init = Fault.
Proof.
  assert (H1 : Z.odd 3 = true) by reflexivity.
  assert (H2 : 0 <= 3 <= Z.of_nat (length [128; 128; 0; 0; 7])) by (simpl; lia).
  assert (H3 : 0 <= 3 <= Z.of_nat (length [128; 128; 0])) by (simpl; lia).
  split.
  - destruct (odd_count_takes_one_more_byte 100 3 [128; 128; 0; 0; 7] monitor_init H1 H2)
      as [A _].
    destruct A as [A _]; [simpl; lia | exact A].
  - destruct (odd_count_takes_one_more_byte 100 3 [128; 128; 0] monitor_init H1 H3)
      as [_ B].
    apply B. reflexivity.
Defined.

(** X19: device trouble in the synchronous loop, with no budget set and a
    stream that takes every write.  After a failed read nothing of the block
    reaches the monitor or the file and the loop ends.  After a short read
    the whole of what was read is still converted and written, with the
    short-read message, and the loop ends; no later read is consumed in
    either case. *)
Theorem sync_loop_on_device_trouble
  (obs samp_rate : Z) (ev : sync_read) (st : state)
  (Hrun : do_exit st = false)
  (Hsig : rd_signal ev = false) :
  (rd_r ev < 0 ->
     forall reads,
       sync_loop obs samp_rate (ev :: reads) st
       = (Some ReadFailed, log [MsgSyncReadFailed] st)) /\
  (0 <= rd_r ev ->
   Z.of_nat (length (rd_data ev)) < obs -> obs < 2 ^ 31 ->
   Z.of_nat (length (buffer st)) = obs ->
   bytes_to_read st = 0 -> f_accept (file st) = [] ->
     exists st' log0,
       (forall reads,
          sync_loop obs samp_rate (ev :: reads) st = (Some ShortRead, st')) /\
       f_data (file st') = f_data (file st) ++ map convert_byte (rd_data ev) /\
       stderr st' = log0 ++ [MsgShortRead] /\
       do_exit st' = false).
Proof.
  split.
  - intros Hr reads. simpl. rewrite Hrun. unfold sync_body. rewrite Hsig.
    destruct (rd_r ev <? 0) eqn:E; [reflexivity | apply Z.ltb_ge in E; lia].
  - intros Hr Hshort Hobs Hblock Hbudget Hscript.
    assert (Hover : over_budget (Z.of_nat (length (rd_data ev))) st = false)
      by (unfold over_budget; rewrite Hbudget; reflexivity).
    assert (Hn : sync_count ev st = Z.of_nat (length (rd_data ev)))
      by (unfold sync_count; rewrite Hover; reflexivity).
    set (buffer0 := rd_data ev ++ skipn (length (rd_data ev)) (buffer st)).
    destruct (power_monitor_returns samp_rate (sync_count ev st) buffer0 (mon st))
      as (m' & out & Hm).
    { rewrite Hn. unfold buffer0. rewrite length_app. lia. }
    { right. rewrite Hn. unfold buffer0. rewrite length_app, length_skipn. lia. }
    pose proof (sync_body_accepting obs samp_rate ev st m' out Hr ltac:(lia) Hscript Hm)
      as E.
    cbv zeta in E. rewrite Hsig, Hover, Hn, Hrun, Nat2Z.id, firstn_all in E.
    destruct (Z.of_nat (length (rd_data ev)) <? obs) eqn:El;
      [|apply Z.ltb_ge in El; lia].
    eexists. eexists. split.
    + intros reads. simpl. rewrite Hrun, E. reflexivity.
    + simpl. repeat split; reflexivity.
Qed.

Lemma sync_loop_on_device_trouble_witness :
  let st := mkState false 0 [9; 9; 9; 9] monitor_init (mkFILE [] []) [] 0 in
  (sync_loop 4 1 [mkRead (-1) [1; 2] false; mkRead 0 [3; 4; 5; 6] false] st
   = (Some ReadFailed, log [MsgSyncReadFailed] st)) /\
  exists st',
    sync_loop 4 1 [mkRead 0 [128; 129; 130] false; mkRead 0 [3; 4; 5; 6] false] st
    = (Some ShortRead, st') /\
    f_data (file st') = [0; 1; 2].
Proof.
  intros st.
  assert (H0 : do_exit st = false) by reflexivity.
  split.
  - destruct (sync_loop_on_device_trouble 4 1 (mkRead (-1) [1; 2] false) st H0 eq_refl)
      as [A _].
    apply A. simpl. lia.
  - destruct (sync_loop_on_device_trouble 4 1 (mkRead 0 [128; 129; 130] false) st
                H0 eq_refl) as [_ B].
    destruct B as (st' & log0 & B1 & B2 & _);
      [simpl; lia | simpl; lia | lia | reflexivity | reflexivity | reflexivity |].
    exists st'. split; [apply B1 | exact B2].
Defined.
